(** * Trust Diary: the trust-gated session protocol of the persistent services

    A shallow embedding of the Node service [service/trust-diary-service.js]
    and of the Go service [go-service/main.go] (with the identity loader of
    [go-nostr-service/main-encrypted.go]), and the properties of the
    handshake, the entry log, the trust store, the identity store and the
    room identifier that hold of them; then the files of the two services
    across restarts, the recipients of a broadcast, revocation, presence,
    the admin socket and the configuration.

    Conventions.
    - A JavaScript or Go string is a [string] (its UTF-8 bytes); binary data
      ([Uint8Array], [[]byte]) is a [list byte].
    - [Map] objects and Go maps keyed by strings are [gmap string _]; the order
      in which [forEach] / [range] visits them is the one of [map_to_list].
    - The clock ([Date.now()], [time.Now()]) is an input of every handler
      that reads it.
    - The system random source ([nacl.randomBytes], [crypto/rand]) is an
      entropy tape [entropy : nat -> byte] read through a cursor kept in the
      service state.
    - The cryptographic primitives and [JSON.stringify] come from libraries
      outside this repository; they are the fields of the class [Primitives].
    - An event is handled to its end before the next one is taken: a run is
      a sequence of handler calls. The places where a handler gives way
      ([await] on a file write in the Node service, the gaps between the
      critical sections of a Go handler) are not points where [run] lets
      another event in. *)

From stdpp Require Import gmap strings list.
From Stdlib Require Import NArith ZArith Strings.Byte Strings.Ascii Lia.

Open Scope Z_scope.

(* ===================================================================== *)
(** ** Bytes, UTF-8 and base64 *)
(* ===================================================================== *)

Definition byte_of_N (n : N) : byte := default x00 (Byte.of_N n).

#[global] Instance byte_eq_decision : EqDecision byte.
Proof.
  intros a b. destruct (Byte.eqb a b) eqn:E.
  - left. by apply byte_dec_bl.
  - right. by apply eqb_false.
Defined.

(** [naclUtil.decodeUTF8] / [[]byte(s)] : the bytes of a string. *)
Definition decodeUTF8 (s : string) : list byte :=
  map Ascii.byte_of_ascii (String.list_ascii_of_string s).

(** The base64 alphabet, as arithmetic on character codes. *)
Definition sextet_char (n : N) : ascii :=
  if (n <? 26)%N then Ascii.ascii_of_N (65 + n)
  else if (n <? 52)%N then Ascii.ascii_of_N (97 + (n - 26))
  else if (n <? 62)%N then Ascii.ascii_of_N (48 + (n - 52))
  else if (n =? 62)%N then "+"%char else "/"%char.

Definition char_sextet (c : ascii) : option N :=
  let n := Ascii.N_of_ascii c in
  if ((65 <=? n) && (n <=? 90))%N then Some (n - 65)%N
  else if ((97 <=? n) && (n <=? 122))%N then Some (n - 97 + 26)%N
  else if ((48 <=? n) && (n <=? 57))%N then Some (n - 48 + 52)%N
  else if (n =? 43)%N then Some 62%N
  else if (n =? 47)%N then Some 63%N
  else None.

Definition pad_char : ascii := "="%char.

Fixpoint encode_triples (bs : list byte) : list ascii :=
  match bs with
  | [] => []
  | [a] =>
      let a := Byte.to_N a in
      [sextet_char (a / 4); sextet_char ((a mod 4) * 16); pad_char; pad_char]
  | [a; b] =>
      let a := Byte.to_N a in
      let b := Byte.to_N b in
      [sextet_char (a / 4); sextet_char ((a mod 4) * 16 + b / 16);
       sextet_char ((b mod 16) * 4); pad_char]
  | a :: b :: c :: rest =>
      let a := Byte.to_N a in
      let b := Byte.to_N b in
      let c := Byte.to_N c in
      sextet_char (a / 4) :: sextet_char ((a mod 4) * 16 + b / 16)
        :: sextet_char ((b mod 16) * 4 + c / 64) :: sextet_char (c mod 64)
        :: encode_triples rest
  end%N.

(** [naclUtil.encodeBase64] / [base64.StdEncoding.EncodeToString]. *)
Definition encodeBase64 (bs : list byte) : string :=
  String.string_of_list_ascii (encode_triples bs).

Definition quad_bytes (w x y z : N) : list byte :=
  [byte_of_N (w * 4 + x / 16); byte_of_N ((x mod 16) * 16 + y / 4);
   byte_of_N ((y mod 4) * 64 + z)]%N.

Definition is_pad (c : ascii) : bool := bool_decide (c = pad_char).

(** The last group of four characters may carry one or two padding
    characters; an earlier group may not. *)
Definition decode_last (a b c d : ascii) : option (list byte) :=
  w ← char_sextet a; x ← char_sextet b;
  if is_pad d then
    if is_pad c then Some (take 1 (quad_bytes w x 0 0))
    else y ← char_sextet c; Some (take 2 (quad_bytes w x y 0))
  else
    y ← char_sextet c; z ← char_sextet d; Some (quad_bytes w x y z).

Fixpoint decode_quads (cs : list ascii) : option (list byte) :=
  match cs with
  | [] => Some []
  | a :: b :: c :: d :: rest =>
      match rest with
      | [] => decode_last a b c d
      | _ =>
          w ← char_sextet a; x ← char_sextet b;
          y ← char_sextet c; z ← char_sextet d;
          tl ← decode_quads rest;
          Some (quad_bytes w x y z ++ tl)
      end
  | _ => None
  end.

(** [naclUtil.decodeBase64]: [None] is the [TypeError('invalid encoding')]
    it throws on a string that is not base64. *)
Definition decodeBase64 (s : string) : option (list byte) :=
  decode_quads (String.list_ascii_of_string s).

(* ===================================================================== *)
(** ** Shared data *)
(* ===================================================================== *)

(** A diary entry, [{id, content, timestamp, author}] in both services. *)
Record DiaryEntry := mkEntry {
  id : Z;
  content : string;
  timestamp : Z;
  author : string
}.

(** What [JSON.parse] (resp. [json.Unmarshal]) makes of the identity file:
    either the text is not a JSON document (a truncated or garbled write),
    or it is an object all of whose members are strings. *)
Inductive FileData :=
| NotJson (raw : string)
| JsonObject (members : gmap string string).

(** The libraries the services call. *)
Class Primitives := {
  (** Ed25519 verification of [sig] on [msg] under [pk], sizes checked by
      the caller. *)
  crypto_sign_verify : list byte -> list byte -> list byte -> bool;
  (** [nacl.box(msg, nonce, theirPublicKey, mySecretKey)], sizes checked by
      the caller. *)
  crypto_box : list byte -> list byte -> list byte -> list byte -> list byte;
  (** [nacl.hash], SHA-512. *)
  crypto_hash : list byte -> list byte;
  (** [sha256.Sum256]. *)
  sha256_Sum256 : list byte -> list byte;
  (** Key derivation from 32 random bytes: the signing pair (public,
      secret) and the box public key of a box secret key. *)
  sign_keyPair_fromSeed : list byte -> list byte * list byte;
  scalarMult_base : list byte -> list byte;
  (** [JSON.stringify] of an entry. *)
  JSON_stringify : DiaryEntry -> string;
  (** The bytes [base64.StdEncoding.DecodeString] returns next to its error
      on a string that is not base64. *)
  partial_decode : string -> list byte;
  (** The system random source. *)
  entropy : nat -> byte
}.

Definition crypto_sign_BYTES : nat := 64.
Definition crypto_sign_PUBLICKEYBYTES : nat := 32.
Definition crypto_box_PUBLICKEYBYTES : nat := 32.
Definition crypto_box_SECRETKEYBYTES : nat := 32.
(** [nacl.box.nonceLength] *)
Definition nonceLength : nat := 24.

(** [n] bytes of the entropy tape from [cursor] on. *)
Definition tape_read `{Primitives} (cursor n : nat) : list byte :=
  map entropy (seq cursor n).

(* ===================================================================== *)
(** ** Handlers as state transformers that may throw *)
(* ===================================================================== *)

(** A handler runs on the state of its service and either returns or
    throws (a JavaScript exception, a Go panic); the state it leaves is
    kept in both cases. *)
Inductive Outcome (A : Type) :=
| Return (a : A)
| Throw.
Arguments Return {A} a.
Arguments Throw {A}.

Definition Eff (S A : Type) : Type := S -> Outcome A * S.

Section Eff.
Context {S : Type}.

Definition ret {A} (a : A) : Eff S A := fun s => (Return a, s).
Definition throw {A} : Eff S A := fun s => (Throw, s).
Definition bind {A B} (m : Eff S A) (f : A -> Eff S B) : Eff S B :=
  fun s => match m s with
           | (Return a, s') => f a s'
           | (Throw, s') => (Throw, s')
           end.
(** [try { m } catch (err) { h }] *)
Definition try_catch {A} (m : Eff S A) (h : Eff S A) : Eff S A :=
  fun s => match m s with
           | (Throw, s') => h s'
           | r => r
           end.
Definition gets {A} (f : S -> A) : Eff S A := fun s => (Return (f s), s).
Definition modify (f : S -> S) : Eff S unit := fun s => (Return tt, f s).
(** A library call that throws when it has no result. *)
Definition orThrow {A} (o : option A) : Eff S A :=
  match o with Some a => ret a | None => throw end.

Fixpoint forEach {A} (f : A -> Eff S unit) (l : list A) : Eff S unit :=
  match l with
  | [] => ret tt
  | a :: rest => bind (f a) (fun _ => forEach f rest)
  end.

(** The state a handler leaves, whether it returned or threw. *)
Definition exec {A} (m : Eff S A) (s : S) : S := snd (m s).

End Eff.

Notation "x <- m ;; k" := (bind m (fun x => k))
  (at level 100, m at next level, right associativity).
Notation "m ;;; k" := (bind m (fun _ => k))
  (at level 100, right associativity).

(* ===================================================================== *)
(** ** The Node service, [service/trust-diary-service.js] *)
(* ===================================================================== *)

Module JS.

Record KeyPair := mkKeyPair {
  publicKey : list byte;
  secretKey : list byte
}.

Record Identity := mkIdentity {
  keyPair : KeyPair;
  boxKeyPair : KeyPair
}.

(** A value of [this.trustedKeys]. [boxPublicKey] is whatever the request
    body carried, [None] when it carried none. *)
Record TrustedInfo := mkTrusted {
  boxPublicKey : option string;
  name : string;
  permissions : list string;
  trustedAt : Z
}.

(** [conn.state] *)
Inductive ConnState := challenging | untrusted | authenticated.

#[global] Instance ConnState_eq_dec : EqDecision ConnState.
Proof. solve_decision. Defined.

(** A value of [this.connections]; the last three properties exist only
    once the peer is authenticated. *)
Record Conn := mkConn {
  state : ConnState;
  challenge : string;
  joinedAt : Z;
  conn_publicKey : option string;
  conn_permissions : option (list string);
  conn_name : option string
}.

(** The payload of a [response] action. *)
Record AuthData := mkAuthData {
  signature : string;
  data_publicKey : string
}.

(** The body of [POST /api/trusted]. *)
Record TrustRequest := mkTrustRequest {
  req_publicKey : string;
  req_boxPublicKey : option string;
  req_name : option string;
  req_permissions : option (list string)
}.

(** A call of one of the room's senders. The service always calls them
    without a list of target peers; [prepared_for] is the [peerId] in scope
    at the call of [sendEntry], the connection the entry was encrypted for. *)
Inductive Sent :=
| sendChallenge (challenge servicePublicKey serviceBoxPublicKey : string)
| sendEntry (prepared_for : string) (nonce encrypted : string).

Record Service := mkService {
  roomSalt : string;
  identity : option Identity;
  trustedKeys : gmap string TrustedInfo;
  entries : list DiaryEntry;
  connections : gmap string Conn;
  roomId : option string;
  (** the environment: the two files of [dataDir] the model follows, the
      calls made on the room so far (oldest first), the entropy cursor *)
  identity_json : option FileData;
  entries_json : option (list DiaryEntry);
  sent : list Sent;
  rng : nat
}.

Definition with_identity (i : option Identity) (s : Service) : Service :=
  mkService (roomSalt s) i (trustedKeys s) (entries s) (connections s)
    (roomId s) (identity_json s) (entries_json s) (sent s) (rng s).
Definition with_trustedKeys (t : gmap string TrustedInfo) (s : Service) : Service :=
  mkService (roomSalt s) (identity s) t (entries s) (connections s)
    (roomId s) (identity_json s) (entries_json s) (sent s) (rng s).
Definition with_entries (e : list DiaryEntry) (s : Service) : Service :=
  mkService (roomSalt s) (identity s) (trustedKeys s) e (connections s)
    (roomId s) (identity_json s) (entries_json s) (sent s) (rng s).
Definition with_connections (c : gmap string Conn) (s : Service) : Service :=
  mkService (roomSalt s) (identity s) (trustedKeys s) (entries s) c
    (roomId s) (identity_json s) (entries_json s) (sent s) (rng s).
Definition with_roomId (r : option string) (s : Service) : Service :=
  mkService (roomSalt s) (identity s) (trustedKeys s) (entries s)
    (connections s) r (identity_json s) (entries_json s) (sent s) (rng s).
Definition with_identity_json (f : option FileData) (s : Service) : Service :=
  mkService (roomSalt s) (identity s) (trustedKeys s) (entries s)
    (connections s) (roomId s) f (entries_json s) (sent s) (rng s).
Definition with_entries_json (f : option (list DiaryEntry)) (s : Service) : Service :=
  mkService (roomSalt s) (identity s) (trustedKeys s) (entries s)
    (connections s) (roomId s) (identity_json s) f (sent s) (rng s).
Definition with_sent (o : list Sent) (s : Service) : Service :=
  mkService (roomSalt s) (identity s) (trustedKeys s) (entries s)
    (connections s) (roomId s) (identity_json s) (entries_json s) o (rng s).
Definition with_rng (r : nat) (s : Service) : Service :=
  mkService (roomSalt s) (identity s) (trustedKeys s) (entries s)
    (connections s) (roomId s) (identity_json s) (entries_json s) (sent s) r.

Abbreviation M := (Eff Service).

Section Methods.
Context `{Primitives}.

(** [nacl.randomBytes(n)] *)
Definition randomBytes (n : nat) : M (list byte) :=
  fun s => (Return (tape_read (rng s) n), with_rng (rng s + n)%nat s).

(** [nacl.sign.keyPair()] and [nacl.box.keyPair()] *)
Definition sign_keyPair : M KeyPair :=
  seed <- randomBytes 32 ;;
  ret (mkKeyPair (fst (sign_keyPair_fromSeed seed)) (snd (sign_keyPair_fromSeed seed))).
Definition box_keyPair : M KeyPair :=
  sk <- randomBytes 32 ;;
  ret (mkKeyPair (scalarMult_base sk) sk).

(** [nacl.sign.detached.verify(msg, sig, publicKey)] *)
Definition sign_detached_verify (msg sig pk : list byte) : M bool :=
  if negb (length sig =? crypto_sign_BYTES)%nat then throw
  else if negb (length pk =? crypto_sign_PUBLICKEYBYTES)%nat then throw
  else ret (crypto_sign_verify msg sig pk).

(** [nacl.box(msg, nonce, publicKey, secretKey)] *)
Definition nacl_box (msg nonce pk sk : list byte) : M (list byte) :=
  if negb (length pk =? crypto_box_PUBLICKEYBYTES)%nat then throw
  else if negb (length sk =? crypto_box_SECRETKEYBYTES)%nat then throw
  else if negb (length nonce =? nonceLength)%nat then throw
  else ret (crypto_box msg nonce pk sk).

(** Reading [this.identity.…] throws while [this.identity] is [null]. *)
Definition getIdentity : M Identity :=
  i <- gets identity ;; orThrow i.

Definition getPublicKeyString : M string :=
  i <- getIdentity ;; ret (encodeBase64 (publicKey (keyPair i))).

Definition getBoxPublicKeyString : M string :=
  i <- getIdentity ;; ret (encodeBase64 (publicKey (boxKeyPair i))).

(** [loadIdentity]: everything from reading the file to decoding the four
    keys sits in one [try]; its [catch] generates an identity and writes
    it to [identity.json]. *)
Definition readIdentity : M unit :=
  data <- (f <- gets identity_json ;; orThrow f) ;;
  stored <- orThrow (match data with
                     | NotJson _ => None
                     | JsonObject ms => Some ms
                     end) ;;
  pk <- orThrow (stored !! "publicKey" ≫= decodeBase64) ;;
  sk <- orThrow (stored !! "secretKey" ≫= decodeBase64) ;;
  bpk <- orThrow (stored !! "boxPublicKey" ≫= decodeBase64) ;;
  bsk <- orThrow (stored !! "boxSecretKey" ≫= decodeBase64) ;;
  modify (with_identity (Some (mkIdentity (mkKeyPair pk sk) (mkKeyPair bpk bsk)))).

Definition toStore (i : Identity) (now : string) : FileData :=
  JsonObject
    (list_to_map
       [("publicKey", encodeBase64 (publicKey (keyPair i)));
        ("secretKey", encodeBase64 (secretKey (keyPair i)));
        ("boxPublicKey", encodeBase64 (publicKey (boxKeyPair i)));
        ("boxSecretKey", encodeBase64 (secretKey (boxKeyPair i)));
        ("createdAt", now)]%string).

Definition generateIdentity (now : string) : M unit :=
  kp <- sign_keyPair ;;
  bkp <- box_keyPair ;;
  modify (with_identity (Some (mkIdentity kp bkp))) ;;;
  modify (with_identity_json (Some (toStore (mkIdentity kp bkp) now))).

Definition loadIdentity (now : string) : M unit :=
  try_catch readIdentity (generateIdentity now).

(** [saveEntries] and [loadEntries] *)
Definition saveEntries : M unit :=
  modify (fun s => with_entries_json (Some (entries s)) s).

Definition loadEntries (now : Z) : M unit :=
  stored <- gets entries_json ;;
  match stored with
  | Some es => modify (with_entries es)
  | None =>
      modify (with_entries
                [mkEntry 1 "Trust Diary Service started" now "Service"]) ;;;
      saveEntries
  end.

(** [generateRoomId] *)
Definition generateRoomId : M string :=
  salt <- gets roomSalt ;;
  pk <- getPublicKeyString ;;
  let material := (salt +:+ ":" +:+ pk)%string in
  let hash := crypto_hash (decodeUTF8 material) in
  ret (String.substring 0 20 (encodeBase64 hash)).

Definition send (m : Sent) : M unit :=
  modify (fun s => with_sent (sent s ++ [m]) s).

Definition setConnection (peerId : string) (c : Conn) : M unit :=
  modify (fun s => with_connections (<[peerId := c]> (connections s)) s).

(** [handlePeerJoin] *)
Definition handlePeerJoin (peerId : string) (now : Z) : M unit :=
  challenge <- randomBytes 32 ;;
  setConnection peerId
    (mkConn challenging (encodeBase64 challenge) now None None None) ;;;
  pk <- getPublicKeyString ;;
  bpk <- getBoxPublicKeyString ;;
  send (sendChallenge (encodeBase64 challenge) pk bpk).

(** [encryptForPeer] *)
Definition encryptForPeer (data : DiaryEntry) (peerBoxPublicKey : option string)
  : M (string * string) :=
  let message := decodeUTF8 (JSON_stringify data) in
  nonce <- randomBytes nonceLength ;;
  pk <- orThrow (peerBoxPublicKey ≫= decodeBase64) ;;
  i <- getIdentity ;;
  encrypted <- nacl_box message nonce pk (secretKey (boxKeyPair i)) ;;
  ret (encodeBase64 nonce, encodeBase64 encrypted).

Definition sendEncrypted (peerId : string) (peerBoxPublicKey : option string)
    (entry : DiaryEntry) : M unit :=
  encrypted <- encryptForPeer entry peerBoxPublicKey ;;
  send (sendEntry peerId (fst encrypted) (snd encrypted)).

(** [sendEntriesToPeer] *)
Definition sendEntriesToPeer (peerId : string) : M unit :=
  conn <- gets (fun s => connections s !! peerId) ;;
  match conn with
  | None => ret tt
  | Some conn =>
      if negb (bool_decide (state conn = authenticated)) then ret tt
      else
        trustedInfo <- gets (fun s => conn_publicKey conn ≫= (trustedKeys s !!.)) ;;
        match trustedInfo with
        | None => ret tt
        | Some trustedInfo =>
            es <- gets entries ;;
            forEach (sendEncrypted peerId (boxPublicKey trustedInfo)) es
        end
  end.

(** [handleAuthResponse] *)
Definition verifyAndClassify (data : AuthData) (peerId : string) (conn : Conn)
  : M unit :=
  signature <- orThrow (decodeBase64 (signature data)) ;;
  publicKey <- orThrow (decodeBase64 (data_publicKey data)) ;;
  challenge <- orThrow (decodeBase64 (challenge conn)) ;;
  verified <- sign_detached_verify challenge signature publicKey ;;
  if negb verified then ret tt
  else
    let publicKeyStr := data_publicKey data in
    trustedInfo <- gets (fun s => trustedKeys s !! publicKeyStr) ;;
    match trustedInfo with
    | None =>
        setConnection peerId
          (mkConn untrusted (JS.challenge conn) (joinedAt conn)
             (conn_publicKey conn) (conn_permissions conn) (conn_name conn))
    | Some trustedInfo =>
        setConnection peerId
          (mkConn authenticated (JS.challenge conn) (joinedAt conn)
             (Some publicKeyStr) (Some (permissions trustedInfo))
             (Some (name trustedInfo))) ;;;
        sendEntriesToPeer peerId
    end.

Definition handleAuthResponse (data : AuthData) (peerId : string) : M unit :=
  conn <- gets (fun s => connections s !! peerId) ;;
  match conn with
  | None => ret tt
  | Some conn =>
      if negb (bool_decide (state conn = challenging)) then ret tt
      else try_catch (verifyAndClassify data peerId conn) (ret tt)
  end.

(** [handleAuthChallenge] only logs. *)
Definition handleAuthChallenge (data : AuthData) (peerId : string) : M unit :=
  ret tt.

(** [broadcastEntry] *)
Definition broadcastTo (entry : DiaryEntry) (kv : string * Conn) : M unit :=
  let '(peerId, conn) := kv in
  if bool_decide (state conn = authenticated) then
    trustedInfo <- gets (fun s => conn_publicKey conn ≫= (trustedKeys s !!.)) ;;
    match trustedInfo with
    | Some trustedInfo => sendEncrypted peerId (boxPublicKey trustedInfo) entry
    | None => ret tt
    end
  else ret tt.

Definition broadcastEntry (entry : DiaryEntry) : M unit :=
  conns <- gets (fun s => map_to_list (connections s)) ;;
  forEach (broadcastTo entry) conns.

(** [app.post('/api/entries')] and the [add_entry] admin command *)
Definition addEntry (content : string) (now : Z) : M DiaryEntry :=
  n <- gets (fun s => length (entries s)) ;;
  let entry := mkEntry (Z.of_nat n + 1) content now "Admin" in
  modify (fun s => with_entries (entries s ++ [entry]) s) ;;;
  saveEntries ;;;
  broadcastEntry entry ;;;
  ret entry.

(** [app.post('/api/trusted')]: [name || 'Unknown'], [permissions || ['read']] *)
Definition name_or_Unknown (n : option string) : string :=
  match n with
  | Some n => if String.eqb n "" then "Unknown" else n
  | None => "Unknown"
  end.

Definition permissions_or_read (p : option (list string)) : list string :=
  match p with Some p => p | None => ["read"%string] end.

Definition addTrusted (req : TrustRequest) (now : Z) : M unit :=
  modify (fun s =>
    with_trustedKeys
      (<[req_publicKey req :=
           mkTrusted (req_boxPublicKey req) (name_or_Unknown (req_name req))
             (permissions_or_read (req_permissions req)) now]>
         (trustedKeys s)) s).

(** [app.delete('/api/trusted/:key')] *)
Definition removeTrusted (key : string) : M unit :=
  modify (fun s => with_trustedKeys (delete key (trustedKeys s)) s).

(** [room.onPeerLeave] *)
Definition handlePeerLeave (peerId : string) : M unit :=
  modify (fun s => with_connections (delete peerId (connections s)) s).

(** What reaches the running service. *)
Inductive Event :=
| onPeerJoin (peerId : string) (now : Z)
| onPeerLeave (peerId : string)
| getChallenge (data : AuthData) (peerId : string)
| getResponse (data : AuthData) (peerId : string)
| post_api_entries (content : string) (now : Z)
| ws_add_entry (content : string) (now : Z)
| post_api_trusted (req : TrustRequest) (now : Z)
| delete_api_trusted (key : string).

Definition handle (ev : Event) : M unit :=
  match ev with
  | onPeerJoin peerId now => handlePeerJoin peerId now
  | onPeerLeave peerId => handlePeerLeave peerId
  | getChallenge data peerId => handleAuthChallenge data peerId
  | getResponse data peerId => handleAuthResponse data peerId
  | post_api_entries content now => addEntry content now ;;; ret tt
  | ws_add_entry content now => addEntry content now ;;; ret tt
  | post_api_trusted req now => addTrusted req now
  | delete_api_trusted key => removeTrusted key
  end.

(** The state an event leaves, and the state a sequence of events leaves.
    A handler that throws leaves the state it had reached; should the
    process stop there, what it did is the run over the events so far. *)
Definition step (s : Service) (ev : Event) : Service := exec (handle ev) s.

Definition run (s : Service) (evs : list Event) : Service :=
  fold_left step evs s.

(** [new TrustDiaryService(config)] over a data directory, and the steps of
    [initialize] that load the identity and the entries and derive the
    room identifier. *)
Definition construct (salt : string) (identity_file : option FileData)
    (entries_file : option (list DiaryEntry)) : Service :=
  mkService salt None ∅ [] ∅ None identity_file entries_file [] 0.

Definition initialize (iso : string) (now : Z) : M unit :=
  loadIdentity iso ;;;
  loadEntries now ;;;
  r <- generateRoomId ;;
  modify (with_roomId (Some r)).

End Methods.
End JS.

(* ===================================================================== *)
(** ** The Go service, [go-service/main.go] *)
(* ===================================================================== *)

Module Go.

(** [copy(dst[:], src)] into a zeroed 32-byte array. *)
Definition copy32 (src : list byte) : list byte :=
  take 32 (src ++ replicate 32 x00).

Record Identity := mkIdentity {
  PublicKey : list byte;
  PrivateKey : list byte;
  BoxPublicKey : list byte;
  BoxPrivateKey : list byte
}.

Record TrustedUser := mkTrustedUser {
  user_PublicKey : string;
  user_BoxPublicKey : string;
  user_Name : string;
  (** [None] is the nil slice *)
  Permissions : option (list string);
  TrustedAt : Z
}.

Record Connection := mkConnection {
  ID : string;
  State : string;
  conn_PublicKey : string;
  Name : string;
  (** [None] is the nil slice *)
  Challenge : option (list byte);
  Authenticated : bool
}.

(** A message of a peer on its data channel, once [json.Unmarshal] has
    made a map of it: the [type], [signature] and [publicKey] members, each
    the empty string when absent or not a string. *)
Record Message := mkMessage {
  msg_type : string;
  msg_signature : string;
  msg_publicKey : string
}.

(** What the service writes on a data channel. *)
Inductive Wire :=
| challengeMsg (challenge servicePublicKey serviceBoxPublicKey : string)
| entryMsg (entry : DiaryEntry).

(** What [json.Unmarshal(data, &s.entries)] makes of [entries.json]: the
    entries of the file, or an error, with its text and with what it had
    stored in [s.entries] by then ([None] when it had not touched the
    slice, as on a text that is not JSON; the elements decoded before the
    error otherwise). *)
Inductive EntriesFile :=
| Entries (es : list DiaryEntry)
| Unparsable (err : string) (stored : option (list DiaryEntry)).

Record Service := mkService {
  identity : option Identity;
  trustedUsers : gmap string TrustedUser;
  entries : list DiaryEntry;
  connections : gmap string Connection;
  (** the peers that have a data channel *)
  dataChannels : gset string;
  roomSalt : string;
  roomID : string;
  (** the environment: [identity.json], [entries.json], the texts sent on
      each peer's data channel so far (oldest first), the entropy cursor *)
  identity_json : option FileData;
  entries_json : option EntriesFile;
  sent : list (string * Wire);
  rng : nat
}.

Definition with_identity (i : option Identity) (s : Service) : Service :=
  mkService i (trustedUsers s) (entries s) (connections s) (dataChannels s)
    (roomSalt s) (roomID s) (identity_json s) (entries_json s) (sent s) (rng s).
Definition with_trustedUsers (t : gmap string TrustedUser) (s : Service) : Service :=
  mkService (identity s) t (entries s) (connections s) (dataChannels s)
    (roomSalt s) (roomID s) (identity_json s) (entries_json s) (sent s) (rng s).
Definition with_entries (e : list DiaryEntry) (s : Service) : Service :=
  mkService (identity s) (trustedUsers s) e (connections s) (dataChannels s)
    (roomSalt s) (roomID s) (identity_json s) (entries_json s) (sent s) (rng s).
Definition with_connections (c : gmap string Connection) (s : Service) : Service :=
  mkService (identity s) (trustedUsers s) (entries s) c (dataChannels s)
    (roomSalt s) (roomID s) (identity_json s) (entries_json s) (sent s) (rng s).
Definition with_dataChannels (d : gset string) (s : Service) : Service :=
  mkService (identity s) (trustedUsers s) (entries s) (connections s) d
    (roomSalt s) (roomID s) (identity_json s) (entries_json s) (sent s) (rng s).
Definition with_roomID (r : string) (s : Service) : Service :=
  mkService (identity s) (trustedUsers s) (entries s) (connections s)
    (dataChannels s) (roomSalt s) r (identity_json s) (entries_json s) (sent s) (rng s).
Definition with_identity_json (f : option FileData) (s : Service) : Service :=
  mkService (identity s) (trustedUsers s) (entries s) (connections s)
    (dataChannels s) (roomSalt s) (roomID s) f (entries_json s) (sent s) (rng s).
Definition with_entries_json (f : option EntriesFile) (s : Service) : Service :=
  mkService (identity s) (trustedUsers s) (entries s) (connections s)
    (dataChannels s) (roomSalt s) (roomID s) (identity_json s) f (sent s) (rng s).
Definition with_sent (o : list (string * Wire)) (s : Service) : Service :=
  mkService (identity s) (trustedUsers s) (entries s) (connections s)
    (dataChannels s) (roomSalt s) (roomID s) (identity_json s) (entries_json s) o (rng s).
Definition with_rng (r : nat) (s : Service) : Service :=
  mkService (identity s) (trustedUsers s) (entries s) (connections s)
    (dataChannels s) (roomSalt s) (roomID s) (identity_json s) (entries_json s) (sent s) r.

(** [Throw] is a Go panic. *)
Abbreviation M := (Eff Service).

(** A Go [error]: [None] is [nil]. *)
Definition error : Type := option string.

Section Methods.
Context `{Primitives}.

(** [rand.Read] on a fresh slice of [n] bytes *)
Definition rand_Read (n : nat) : M (list byte) :=
  fun s => (Return (tape_read (rng s) n), with_rng (rng s + n)%nat s).

(** [base64.StdEncoding.DecodeString] with its error dropped
    ([bytes, _ := ...]) *)
Definition DecodeString_ (s : string) : list byte :=
  match decodeBase64 s with
  | Some bs => bs
  | None => partial_decode s
  end.

(** [ed25519.Verify(publicKey, message, sig)] panics on a public key that
    is not 32 bytes long and is false on a signature that is not 64. *)
Definition ed25519_Verify (pk msg sig : list byte) : M bool :=
  if negb (length pk =? 32)%nat then throw
  else if negb (length sig =? 64)%nat then ret false
  else ret (crypto_sign_verify msg sig pk).

(** [s.identity.…] on a nil identity panics. *)
Definition getIdentity : M Identity :=
  i <- gets identity ;; orThrow i.

(** [s.connections[peerID].…] on a missing connection panics. *)
Definition getConnection (peerID : string) : M Connection :=
  c <- gets (fun s => connections s !! peerID) ;; orThrow c.

Definition setConnection (peerID : string) (c : Connection) : M unit :=
  modify (fun s => with_connections (<[peerID := c]> (connections s)) s).

(** [loadOrGenerateIdentity]: a readable file is parsed, and a parse
    error is returned; only an unreadable file leads to generation. The
    four members are looked up under their exact names. *)
Definition stored_string (k : string) (ms : gmap string string) : string :=
  default ""%string (ms !! k).

Definition generateIdentity (now : string) : M error :=
  seed <- rand_Read 32 ;;
  boxPriv <- rand_Read 32 ;;
  let pub := fst (sign_keyPair_fromSeed seed) in
  let priv := snd (sign_keyPair_fromSeed seed) in
  let boxPub := scalarMult_base boxPriv in
  modify (with_identity (Some (mkIdentity pub priv boxPub boxPriv))) ;;;
  modify (with_identity_json
            (Some (JsonObject
                     (list_to_map
                        [("publicKey", encodeBase64 pub);
                         ("privateKey", encodeBase64 priv);
                         ("boxPublicKey", encodeBase64 boxPub);
                         ("boxPrivateKey", encodeBase64 boxPriv);
                         ("createdAt", now)]%string)))) ;;;
  ret None.

Definition loadOrGenerateIdentity (now : string) : M error :=
  file <- gets identity_json ;;
  match file with
  | Some (NotJson _) => ret (Some "failed to parse identity"%string)
  | Some (JsonObject stored) =>
      let pubKey := DecodeString_ (stored_string "publicKey" stored) in
      let privKey := DecodeString_ (stored_string "privateKey" stored) in
      let boxPubKey := DecodeString_ (stored_string "boxPublicKey" stored) in
      let boxPrivKey := DecodeString_ (stored_string "boxPrivateKey" stored) in
      modify (with_identity
                (Some (mkIdentity pubKey privKey (copy32 boxPubKey)
                         (copy32 boxPrivKey)))) ;;;
      ret None
  | None => generateIdentity now
  end.

(** [saveEntries] and [loadEntries] *)
Definition saveEntries : M error :=
  modify (fun s => with_entries_json (Some (Entries (entries s))) s) ;;;
  ret None.

Definition loadEntries (now : Z) : M error :=
  file <- gets entries_json ;;
  match file with
  | None =>
      modify (with_entries
                [mkEntry 1 "Trust Diary Service started" now "Service"]) ;;;
      saveEntries
  | Some (Entries es) => modify (with_entries es) ;;; ret None
  | Some (Unparsable err stored) =>
      match stored with
      | Some es => modify (with_entries es)
      | None => ret tt
      end ;;;
      ret (Some ("failed to parse entries: " +:+ err)%string)
  end.

(** [generateRoomID]; [str[:20]] panics on a shorter string. *)
Definition generateRoomID : M string :=
  salt <- gets roomSalt ;;
  i <- getIdentity ;;
  let material := (salt +:+ ":" +:+ encodeBase64 (PublicKey i))%string in
  let hash := sha256_Sum256 (decodeUTF8 material) in
  let encoded := encodeBase64 hash in
  if (String.length encoded <? 20)%nat then throw
  else ret (String.substring 0 20 encoded).

(** [dc.SendText] on the data channel of [peerID] *)
Definition SendText (peerID : string) (m : Wire) : M unit :=
  modify (fun s => with_sent (sent s ++ [(peerID, m)]) s).

(** [sendAuthChallenge] *)
Definition sendAuthChallenge (peerID : string) : M unit :=
  challenge <- rand_Read 32 ;;
  conn <- getConnection peerID ;;
  setConnection peerID
    (mkConnection (ID conn) (State conn) (conn_PublicKey conn) (Name conn)
       (Some challenge) (Authenticated conn)) ;;;
  i <- getIdentity ;;
  SendText peerID
    (challengeMsg (encodeBase64 challenge) (encodeBase64 (PublicKey i))
       (encodeBase64 (BoxPublicKey i))).

(** [sendEntriesToPeer] *)
Definition sendEntriesToPeer (peerID : string) : M unit :=
  dc <- gets (fun s => bool_decide (peerID ∈ dataChannels s)) ;;
  conn <- gets (fun s => connections s !! peerID) ;;
  entries <- gets entries ;;
  match conn with
  | None => ret tt
  | Some conn =>
      if negb dc || negb (Authenticated conn) then ret tt
      else forEach (fun entry => SendText peerID (entryMsg entry)) entries
  end.

(** [handleAuthResponse] *)
Definition handleAuthResponse (peerID : string) (msg : Message) : M unit :=
  conn <- gets (fun s => connections s !! peerID) ;;
  match conn with
  | None => ret tt
  | Some conn =>
      match Challenge conn with
      | None => ret tt
      | Some challenge =>
          let sigStr := msg_signature msg in
          let pubKeyStr := msg_publicKey msg in
          let signature := DecodeString_ sigStr in
          let pubKey := DecodeString_ pubKeyStr in
          verified <- ed25519_Verify pubKey challenge signature ;;
          if negb verified then ret tt
          else
            trusted <- gets (fun s => trustedUsers s !! pubKeyStr) ;;
            match trusted with
            | None =>
                setConnection peerID
                  (mkConnection (ID conn) "untrusted" (conn_PublicKey conn)
                     (Name conn) (Challenge conn) (Authenticated conn))
            | Some trusted =>
                setConnection peerID
                  (mkConnection (ID conn) "authenticated" pubKeyStr
                     (user_Name trusted) (Challenge conn) true) ;;;
                sendEntriesToPeer peerID
            end
      end
  end.

(** [handleEntryRequest] *)
Definition handleEntryRequest (peerID : string) : M unit :=
  conn <- gets (fun s => connections s !! peerID) ;;
  match conn with
  | None => ret tt
  | Some conn =>
      if negb (Authenticated conn) then ret tt
      else sendEntriesToPeer peerID
  end.

(** [handleDataChannelMessage]; [None] is a text [json.Unmarshal] rejects. *)
Definition handleDataChannelMessage (peerID : string) (data : option Message)
  : M unit :=
  match data with
  | None => ret tt
  | Some msg =>
      if String.eqb (msg_type msg) "response" then handleAuthResponse peerID msg
      else if String.eqb (msg_type msg) "request" then handleEntryRequest peerID
      else ret tt
  end.

(** [broadcastEntry] *)
Definition broadcastTo (entry : DiaryEntry) (kv : string * Connection) : M unit :=
  let '(peerID, conn) := kv in
  if Authenticated conn then
    dc <- gets (fun s => bool_decide (peerID ∈ dataChannels s)) ;;
    if dc then SendText peerID (entryMsg entry) else ret tt
  else ret tt.

Definition broadcastEntry (entry : DiaryEntry) : M unit :=
  conns <- gets (fun s => map_to_list (connections s)) ;;
  forEach (broadcastTo entry) conns.

(** [handleAddEntry] *)
Definition handleAddEntry (content : string) (now : Z) : M DiaryEntry :=
  n <- gets (fun s => length (entries s)) ;;
  let entry := mkEntry (Z.of_nat n + 1) content now "Admin" in
  modify (fun s => with_entries (entries s ++ [entry]) s) ;;;
  saveEntries ;;;
  broadcastEntry entry ;;;
  ret entry.

(** [handleAddTrusted] *)
Definition handleAddTrusted (user : TrustedUser) (now : Z) : M unit :=
  let permissions :=
    match Permissions user with
    | None => Some ["read"%string]
    | Some p => Some p
    end in
  modify (fun s =>
    with_trustedUsers
      (<[user_PublicKey user :=
           mkTrustedUser (user_PublicKey user) (user_BoxPublicKey user)
             (user_Name user) permissions now]> (trustedUsers s)) s).

(** [handleRemoveTrusted] *)
Definition handleRemoveTrusted (key : string) : M unit :=
  modify (fun s => with_trustedUsers (delete key (trustedUsers s)) s).

(** The life of a connection in [handleWebSocketSignaling] *)
Definition wsConnected (peerID : string) : M unit :=
  setConnection peerID (mkConnection peerID "connecting" "" "" None false).

Definition onDataChannel (peerID : string) : M unit :=
  modify (fun s => with_dataChannels ({[peerID]} ∪ dataChannels s) s) ;;;
  conn <- getConnection peerID ;;
  setConnection peerID
    (mkConnection (ID conn) "connected" (conn_PublicKey conn) (Name conn)
       (Challenge conn) (Authenticated conn)).

Definition onClose (peerID : string) : M unit :=
  modify (fun s => with_dataChannels (dataChannels s ∖ {[peerID]}) s) ;;;
  conn <- getConnection peerID ;;
  setConnection peerID
    (mkConnection (ID conn) "disconnected" (conn_PublicKey conn) (Name conn)
       (Challenge conn) (Authenticated conn)).

Definition wsClosed (peerID : string) : M unit :=
  modify (fun s => with_connections (delete peerID (connections s)) s) ;;;
  modify (fun s => with_dataChannels (dataChannels s ∖ {[peerID]}) s).

Inductive Event :=
| WebSocketConnected (peerID : string)
| OnDataChannel (peerID : string)
| OnOpen (peerID : string)
| OnMessage (peerID : string) (data : option Message)
| OnClose (peerID : string)
| WebSocketClosed (peerID : string)
| POST_api_entries (content : string) (now : Z)
| POST_api_trusted (user : TrustedUser) (now : Z)
| DELETE_api_trusted (key : string).

Definition handle (ev : Event) : M unit :=
  match ev with
  | WebSocketConnected peerID => wsConnected peerID
  | OnDataChannel peerID => onDataChannel peerID
  | OnOpen peerID => sendAuthChallenge peerID
  | OnMessage peerID data => handleDataChannelMessage peerID data
  | OnClose peerID => onClose peerID
  | WebSocketClosed peerID => wsClosed peerID
  | POST_api_entries content now => handleAddEntry content now ;;; ret tt
  | POST_api_trusted user now => handleAddTrusted user now
  | DELETE_api_trusted key => handleRemoveTrusted key
  end.

(** The state an event leaves, and the state a sequence of events leaves.
    [Throw] is a panic of the goroutine; the state is the one reached
    before it. *)
Definition step (s : Service) (ev : Event) : Service := exec (handle ev) s.

Definition run (s : Service) (evs : list Event) : Service :=
  fold_left step evs s.

(** [NewTrustDiaryService] over a data directory, and the steps of
    [Initialize] that load the identity and the entries and derive the
    room identifier. *)
Definition NewTrustDiaryService (identity_file : option FileData)
    (entries_file : option EntriesFile) : Service :=
  mkService None ∅ [] ∅ ∅ "trust-diary-v1" "" identity_file entries_file [] 0.

Definition Initialize (iso : string) (now : Z) : M error :=
  err <- loadOrGenerateIdentity iso ;;
  match err with
  | Some e => ret (Some ("failed to load identity: " +:+ e)%string)
  | None =>
      loadEntries now ;;;
      r <- generateRoomID ;;
      modify (with_roomID r) ;;;
      ret None
  end.

End Methods.
End Go.

(* ===================================================================== *)
(** ** The identity loader of [go-nostr-service/main-encrypted.go] *)
(* ===================================================================== *)

Module GoNostr.

Record Service := mkService {
  signPublicKey : list byte;
  signPrivateKey : list byte;
  boxPublicKey : list byte;
  boxPrivateKey : list byte;
  identity_json : option FileData;
  rng : nat
}.

Abbreviation M := (Eff Service).

Section Methods.
Context `{Primitives}.

Definition rand_Read (n : nat) : M (list byte) :=
  fun s => (Return (tape_read (rng s) n),
            mkService (signPublicKey s) (signPrivateKey s) (boxPublicKey s)
              (boxPrivateKey s) (identity_json s) (rng s + n)%nat).

Definition setKeys (sp ss bp bs : list byte) : M unit :=
  modify (fun s => mkService sp ss bp bs (identity_json s) (rng s)).

Definition writeIdentity (f : FileData) : M unit :=
  modify (fun s => mkService (signPublicKey s) (signPrivateKey s)
                     (boxPublicKey s) (boxPrivateKey s) (Some f) (rng s)).

(** [loadOrCreateIdentity], up to the derivation of the Nostr keys *)
Definition loadOrCreateIdentity : M Go.error :=
  file <- gets identity_json ;;
  match file with
  | Some (NotJson _) => ret (Some "invalid character"%string)
  | Some (JsonObject identity) =>
      setKeys (Go.DecodeString_ (Go.stored_string "sign_public_key" identity))
              (Go.DecodeString_ (Go.stored_string "sign_private_key" identity))
              (Go.DecodeString_ (Go.stored_string "box_public_key" identity))
              (Go.DecodeString_ (Go.stored_string "box_private_key" identity)) ;;;
      ret None
  | None =>
      seed <- rand_Read 32 ;;
      boxPriv <- rand_Read 32 ;;
      let signPub := fst (sign_keyPair_fromSeed seed) in
      let signPriv := snd (sign_keyPair_fromSeed seed) in
      let boxPub := scalarMult_base boxPriv in
      setKeys signPub signPriv boxPub boxPriv ;;;
      writeIdentity
        (JsonObject
           (list_to_map
              [("sign_public_key", encodeBase64 signPub);
               ("sign_private_key", encodeBase64 signPriv);
               ("box_public_key", encodeBase64 boxPub);
               ("box_private_key", encodeBase64 boxPriv)]%string)) ;;;
      ret None
  end.

End Methods.
End GoNostr.

(* ===================================================================== *)
(** ** The vocabulary of the statements *)
(* ===================================================================== *)

Section Notions.
Context `{Primitives}.

(** The response [data] carries a valid signature of the challenge (in
    base64, as the Node service keeps it) under the key it claims. *)
Definition js_signature_valid (challenge : string) (data : JS.AuthData) : bool :=
  match decodeBase64 (JS.signature data),
        decodeBase64 (JS.data_publicKey data),
        decodeBase64 challenge with
  | Some sig, Some pk, Some ch =>
      (length sig =? crypto_sign_BYTES)%nat
      && (length pk =? crypto_sign_PUBLICKEYBYTES)%nat
      && crypto_sign_verify ch sig pk
  | _, _, _ => false
  end.

(** The same for a [response] message of the Go service, whose claimed key
    has the size of a public key. *)
Definition go_key_sized (msg : Go.Message) : bool :=
  (length (Go.DecodeString_ (Go.msg_publicKey msg)) =? 32)%nat.

Definition go_signature_valid (challenge : list byte) (msg : Go.Message) : bool :=
  go_key_sized msg
  && (length (Go.DecodeString_ (Go.msg_signature msg)) =? 64)%nat
  && crypto_sign_verify challenge (Go.DecodeString_ (Go.msg_signature msg))
       (Go.DecodeString_ (Go.msg_publicKey msg)).

(** The state of the connection of [peerId], if it has one. *)
Definition js_state (s : JS.Service) (peerId : string) : option JS.ConnState :=
  JS.state <$> JS.connections s !! peerId.

Definition js_authenticated (s : JS.Service) (peerId : string) : Prop :=
  js_state s peerId = Some JS.authenticated.

Definition go_authenticated (s : Go.Service) (peerID : string) : Prop :=
  exists conn, Go.connections s !! peerID = Some conn
               /\ (Go.Authenticated conn = true
                   \/ Go.State conn = "authenticated"%string).

(** The entry messages prepared for [peerId] among the calls on the room,
    and the entry messages written on the data channel of [peerID]. *)
Definition js_is_entry_for (peerId : string) (m : JS.Sent) : bool :=
  match m with
  | JS.sendEntry p _ _ => bool_decide (p = peerId)
  | _ => false
  end.

Definition js_entries_for (peerId : string) (l : list JS.Sent) : list JS.Sent :=
  List.filter (js_is_entry_for peerId) l.

Definition go_is_entry_for (peerID : string) (m : string * Go.Wire) : bool :=
  match m with
  | (p, Go.entryMsg _) => bool_decide (p = peerID)
  | _ => false
  end.

Definition go_entries_for (peerID : string) (l : list (string * Go.Wire))
  : list (string * Go.Wire) :=
  List.filter (go_is_entry_for peerID) l.

(** The calls the Node service makes on the room while it handles [ev]. *)
Definition js_calls (s : JS.Service) (ev : JS.Event) : list JS.Sent :=
  drop (length (JS.sent s)) (JS.sent (JS.step s ev)).

(** What a peer receives from the Node service. The senders of the room
    are called without target peers, and the room then sends to every peer
    in it. The peers in the room are the ones with a record in
    [connections]: [handlePeerJoin] sets the record when a peer joins,
    [onPeerLeave] deletes it when the peer leaves, and nothing else adds or
    removes one. [js_delivered peer s evs] are the calls delivered to
    [peer], oldest first, while the service handles [evs] from [s] on. *)
Fixpoint js_delivered (peer : string) (s : JS.Service) (evs : list JS.Event)
  : list JS.Sent :=
  match evs with
  | [] => []
  | ev :: rest =>
      (if bool_decide (is_Some (JS.connections (JS.step s ev) !! peer))
       then js_calls s ev else [])
      ++ js_delivered peer (JS.step s ev) rest
  end.

(** An event that leaves the session of [peer] open: any event but that
    peer leaving or joining anew. *)
Definition js_in_session (peer : string) (ev : JS.Event) : Prop :=
  match ev with
  | JS.onPeerJoin p _ => p <> peer
  | JS.onPeerLeave p => p <> peer
  | _ => True
  end.

(** Every response of [peer] processed along [evs] claims a key that is
    absent from the trust store at that moment. *)
Fixpoint js_responses_untrusted (peer : string) (s : JS.Service)
    (evs : list JS.Event) : Prop :=
  match evs with
  | [] => True
  | ev :: rest =>
      match ev with
      | JS.getResponse data p =>
          p = peer -> JS.trustedKeys s !! JS.data_publicKey data = None
      | _ => True
      end
      /\ js_responses_untrusted peer (JS.step s ev) rest
  end.

Fixpoint go_responses_untrusted (peer : string) (s : Go.Service)
    (evs : list Go.Event) : Prop :=
  match evs with
  | [] => True
  | ev :: rest =>
      match ev with
      | Go.OnMessage p (Some msg) =>
          p = peer -> Go.msg_type msg = "response"%string ->
          Go.trustedUsers s !! Go.msg_publicKey msg = None
      | _ => True
      end
      /\ go_responses_untrusted peer (Go.step s ev) rest
  end.

(** The ids of a log count from one in the order of the log. *)
Definition log_wf (l : list DiaryEntry) : Prop :=
  forall i e, l !! i = Some e -> id e = Z.of_nat i + 1.

(** The entry message the Node service prepares for [peerId] from [entry],
    with the nonce it reads at [cursor] on the entropy tape. *)
Definition js_nonce (cursor : nat) : list byte := tape_read cursor nonceLength.

Definition js_sealed (peerId : string) (pk sk : list byte) (cursor : nat)
    (entry : DiaryEntry) : JS.Sent :=
  JS.sendEntry peerId
    (encodeBase64 (js_nonce cursor))
    (encodeBase64
       (crypto_box (decodeUTF8 (JSON_stringify entry)) (js_nonce cursor) pk sk)).

(** The connection a verified response leaves behind. *)
Definition js_classified (st : JS.ConnState) (conn : JS.Conn)
    (pk : option string) (perms : option (list string)) (nm : option string)
  : JS.Conn :=
  JS.mkConn st (JS.challenge conn) (JS.joinedAt conn) pk perms nm.

Definition go_classified (st : string) (conn : Go.Connection) (pk nm : string)
    (auth : bool) : Go.Connection :=
  Go.mkConnection (Go.ID conn) st pk nm (Go.Challenge conn) auth.

(** The entry an append creates. *)
Definition js_new_entry (s : JS.Service) (content : string) (now : Z) : DiaryEntry :=
  mkEntry (Z.of_nat (length (JS.entries s)) + 1) content now "Admin".

Definition go_new_entry (s : Go.Service) (content : string) (now : Z) : DiaryEntry :=
  mkEntry (Z.of_nat (length (Go.entries s)) + 1) content now "Admin".

(** [peerId] is authenticated under a trusted key whose bound box key
    decodes to [pk], [sk] is the box secret key of the service, and
    [entry] is in the log. *)
Definition js_bound (s : JS.Service) (peerId : string) (pk sk : list byte)
    (entry : DiaryEntry) : Prop :=
  exists conn k ti b i,
    JS.connections s !! peerId = Some conn /\
    JS.state conn = JS.authenticated /\
    JS.conn_publicKey conn = Some k /\
    JS.trustedKeys s !! k = Some ti /\
    JS.boxPublicKey ti = Some b /\
    decodeBase64 b = Some pk /\
    length pk = crypto_box_PUBLICKEYBYTES /\
    JS.identity s = Some i /\
    sk = JS.secretKey (JS.boxKeyPair i) /\
    entry ∈ JS.entries s.

(** [js_fresh_seq B lo l hi]: the calls [l] on the room, in order, are
    challenges and entry messages; each entry message is sealed for a
    recipient that [B] admits, under a nonce read from a window of the
    entropy tape of its own, the windows lying in [lo, hi) one after the
    other. *)
Inductive js_fresh_seq
    (B : string -> list byte -> list byte -> DiaryEntry -> Prop)
  : nat -> list JS.Sent -> nat -> Prop :=
| fresh_nil lo hi :
    (lo <= hi)%nat -> js_fresh_seq B lo [] hi
| fresh_challenge lo hi a b c l :
    js_fresh_seq B lo l hi ->
    js_fresh_seq B lo (JS.sendChallenge a b c :: l) hi
| fresh_entry lo hi cursor p pk sk e l :
    (lo <= cursor)%nat -> B p pk sk e ->
    js_fresh_seq B (cursor + nonceLength) l hi ->
    js_fresh_seq B lo (js_sealed p pk sk cursor e :: l) hi.

(** A handler that only sends: it leaves the stores alone and appends
    fresh entry messages. *)
Definition js_frame (B : string -> list byte -> list byte -> DiaryEntry -> Prop)
    (s s' : JS.Service) : Prop :=
  JS.connections s' = JS.connections s /\
  JS.trustedKeys s' = JS.trustedKeys s /\
  JS.entries s' = JS.entries s /\
  JS.identity s' = JS.identity s /\
  JS.roomSalt s' = JS.roomSalt s /\
  JS.identity_json s' = JS.identity_json s /\
  JS.entries_json s' = JS.entries_json s /\
  exists l, JS.sent s' = JS.sent s ++ l /\ js_fresh_seq B (JS.rng s) l (JS.rng s').

Definition go_flag (s : Go.Service) (p : string) : Prop :=
  exists conn, Go.connections s !! p = Some conn /\ Go.Authenticated conn = true.

Definition go_frame (P : string -> Prop) (s s' : Go.Service) : Prop :=
  Go.connections s' = Go.connections s /\
  Go.trustedUsers s' = Go.trustedUsers s /\
  Go.entries s' = Go.entries s /\
  Go.dataChannels s' = Go.dataChannels s /\
  Go.identity s' = Go.identity s /\
  exists l, Go.sent s' = Go.sent s ++ l /\
            Forall (fun m => exists p e, m = (p, Go.entryMsg e) /\ P p) l.

(** The record an add stores. *)
Definition js_trust_record (req : JS.TrustRequest) (now : Z) : JS.TrustedInfo :=
  JS.mkTrusted (JS.req_boxPublicKey req) (JS.name_or_Unknown (JS.req_name req))
    (JS.permissions_or_read (JS.req_permissions req)) now.

Definition go_trust_record (user : Go.TrustedUser) (now : Z) : Go.TrustedUser :=
  Go.mkTrustedUser (Go.user_PublicKey user) (Go.user_BoxPublicKey user)
    (Go.user_Name user)
    (Some (default ["read"%string] (Go.Permissions user))) now.

(** The room identifier as a function of the salt and the signing public
    key, over a hash. *)
Definition room_id_of (hash : list byte -> list byte) (salt : string)
    (signPublicKey : list byte) : string :=
  String.substring 0 20
    (encodeBase64 (hash (decodeUTF8 (salt +:+ ":" +:+ encodeBase64 signPublicKey)))).

(** The identity the Node service generates with the entropy cursor at
    [cursor]. *)
Definition js_generated (cursor : nat) : JS.Identity :=
  JS.mkIdentity
    (JS.mkKeyPair (sign_keyPair_fromSeed (tape_read cursor 32)).1
                  (sign_keyPair_fromSeed (tape_read cursor 32)).2)
    (JS.mkKeyPair (scalarMult_base (tape_read (cursor + 32) 32))
                  (tape_read (cursor + 32) 32)).

(** The states the Node service reaches from a data directory without an
    entries file. *)
Inductive js_reachable : JS.Service -> Prop :=
| js_reach_start salt f iso now :
    js_reachable (exec (JS.initialize iso now) (JS.construct salt f None))
| js_reach_step s ev :
    js_reachable s -> js_reachable (JS.step s ev).

(** The same for the Go service. *)
Inductive go_reachable : Go.Service -> Prop :=
| go_reach_start f iso now :
    go_reachable (exec (Go.Initialize iso now) (Go.NewTrustDiaryService f None))
| go_reach_step s ev :
    go_reachable s -> go_reachable (Go.step s ev).

End Notions.

(* ===================================================================== *)
(** ** A concrete instance, for examples *)
(* ===================================================================== *)

Module Demo.

(** Stand-ins with the sizes of the real primitives: a signature is the
    message followed by the public key, a box is the recipient key, the
    nonce and the message, a hash is the message cut or padded to size. *)
Definition primitives : Primitives := {|
  crypto_sign_verify msg sig pk := bool_decide (sig = msg ++ pk);
  crypto_box msg nonce pk sk := pk ++ nonce ++ msg;
  crypto_hash m := take 64 (m ++ replicate 64 x00);
  sha256_Sum256 m := take 32 (m ++ replicate 32 x00);
  sign_keyPair_fromSeed seed := (seed, seed ++ seed);
  scalarMult_base sk := reverse sk;
  JSON_stringify e := content e;
  partial_decode s := [];
  entropy n := byte_of_N (N.of_nat n mod 256)
|}.

#[local] Existing Instance primitives.

(** A reader: a key pair of the demo scheme and its response to a
    challenge. *)
Definition reader_key (b : byte) : list byte := replicate 32 b.

Definition respond (challenge : string) (pk : list byte) : JS.AuthData :=
  JS.mkAuthData
    (encodeBase64 (default [] (decodeBase64 challenge) ++ pk))
    (encodeBase64 pk).

Definition alice : list byte := reader_key "a"%byte.
Definition mallory : list byte := reader_key "m"%byte.

Definition trust_alice : JS.TrustRequest :=
  JS.mkTrustRequest (encodeBase64 alice) (Some (encodeBase64 alice))
    (Some "Alice"%string) None.

(** The Node service on an empty data directory, with Alice trusted and a
    peer that has just joined. *)
Definition js_started : JS.Service :=
  exec (JS.initialize "2025-01-01T00:00:00Z" 1000)
    (JS.construct "trust-diary-v1" None None).

Definition js_joined : JS.Service :=
  JS.run js_started
    [JS.post_api_trusted trust_alice 1100; JS.onPeerJoin "peer-1" 1200].

Definition js_challenge : string :=
  default ""%string (JS.challenge <$> JS.connections js_joined !! "peer-1"%string).

(** A response signed over another challenge, and the right one. *)
Definition stale_response : JS.AuthData :=
  respond (encodeBase64 (replicate 32 "c"%byte)) alice.
Definition good_response : JS.AuthData := respond js_challenge alice.

(** The Go service on an empty data directory, with Alice trusted and a
    peer whose data channel has opened. *)
Definition go_alice : Go.TrustedUser :=
  Go.mkTrustedUser (encodeBase64 alice) (encodeBase64 alice) "Alice" None 0.

Definition go_started : Go.Service :=
  exec (Go.Initialize "2025-01-01T00:00:00Z" 1000)
    (Go.NewTrustDiaryService None None).

Definition go_joined : Go.Service :=
  Go.run go_started
    [Go.POST_api_trusted go_alice 1100; Go.WebSocketConnected "1700000000";
     Go.OnDataChannel "1700000000"; Go.OnOpen "1700000000"].

Definition go_challenge : list byte :=
  default [] (Go.connections go_joined !! "1700000000"%string ≫= Go.Challenge).

Definition go_response (challenge pk : list byte) : Go.Message :=
  Go.mkMessage "response" (encodeBase64 (challenge ++ pk)) (encodeBase64 pk).

Definition go_request : Go.Message := Go.mkMessage "request" "" "".

(** A response with a valid signature under a key nobody trusted, and
    the connection before and after Alice is served. *)
Definition untrusted_response : JS.AuthData := respond js_challenge mallory.

Definition js_served : JS.Service :=
  JS.run js_joined [JS.getResponse good_response "peer-1"].

Definition joined_conn : JS.Conn :=
  JS.mkConn JS.challenging js_challenge 1200 None None None.

Definition served_conn : JS.Conn :=
  JS.mkConn JS.authenticated js_challenge 1200 (Some (encodeBase64 alice))
    (Some ["read"%string]) (Some "Alice"%string).

Definition alice_info : JS.TrustedInfo :=
  JS.mkTrusted (Some (encodeBase64 alice)) "Alice" ["read"%string] 1100.

Definition go_peer : string := "1700000000".

Definition go_joined_conn : Go.Connection :=
  Go.mkConnection go_peer "connected" "" "" (Some go_challenge) false.

(** The Go service once Alice is authenticated, and the entry both
    services start their log with. *)
Definition go_served : Go.Service :=
  Go.run go_joined [Go.OnMessage go_peer (Some (go_response go_challenge alice))].

Definition go_served_conn : Go.Connection :=
  Go.mkConnection go_peer "authenticated" (encodeBase64 alice) "Alice"
    (Some go_challenge) true.

Definition first_entry : DiaryEntry :=
  mkEntry 1 "Trust Diary Service started" 1000 "Service".

Definition js_identity : JS.Identity := js_generated 0.

(** The same responses for the Go service. *)
Definition go_stale_response : Go.Message :=
  go_response (replicate 32 "c"%byte) alice.
Definition go_good_response : Go.Message := go_response go_challenge alice.
Definition go_untrusted_response : Go.Message := go_response go_challenge mallory.
Definition go_alice_record : Go.TrustedUser := go_trust_record go_alice 1100.

(** The Node service once Mallory, whom nobody trusted, has answered the
    challenge, and the request that trusts Mallory afterwards. *)
Definition js_refused : JS.Service :=
  JS.run js_joined [JS.getResponse untrusted_response "peer-1"].

Definition trust_mallory : JS.TrustRequest :=
  JS.mkTrustRequest (encodeBase64 mallory) (Some (encodeBase64 mallory))
    (Some "Mallory"%string) None.

End Demo.

(* ===================================================================== *)
(** ** Notions for the sessions, the randomness and the files *)
(* ===================================================================== *)

(** The trusted record [broadcastEntry] and [sendEntriesToPeer] of the Node
    service encrypt with for a connection: the record of the key the
    connection authenticated under, if it is still in [trustedKeys]. *)
Definition js_audience (trusted : gmap string JS.TrustedInfo) (conn : JS.Conn)
  : option JS.TrustedInfo :=
  if bool_decide (JS.state conn = JS.authenticated)
  then JS.conn_publicKey conn ≫= (trusted !!.)
  else None.

(** The box key of a trusted record, when [nacl.box] accepts it: base64 of
    32 bytes. *)
Definition js_box_key (ti : JS.TrustedInfo) : option (list byte) :=
  pk ← JS.boxPublicKey ti ≫= decodeBase64;
  if (length pk =? crypto_box_PUBLICKEYBYTES)%nat then Some pk else None.

(** The key a broadcast seals with for the peer [p], if it seals for it. *)
Definition js_recipient_key (s : JS.Service) (p : string) : option (list byte) :=
  conn ← JS.connections s !! p;
  ti ← js_audience (JS.trustedKeys s) conn;
  js_box_key ti.

(** [&TrustDiaryService{...}] of [main] in the Nostr service: no keys yet. *)
Definition nostr_new (identity_file : option FileData) : GoNostr.Service :=
  GoNostr.mkService [] [] [] [] identity_file 0.

(** The peers [broadcastEntry] of the Go service writes to: those whose
    connection has the [Authenticated] flag and that have a data channel. *)
Definition go_recipient (s : Go.Service) (p : string) : bool :=
  match Go.connections s !! p with
  | Some conn => Go.Authenticated conn && bool_decide (p ∈ Go.dataChannels s)
  | None => false
  end.

(** An event that does not trust the key [k]. *)
Definition js_keeps_revoked (k : string) (ev : JS.Event) : Prop :=
  match ev with
  | JS.post_api_trusted req _ => JS.req_publicKey req <> k
  | _ => True
  end.

(** [js_windows lo l hi]: each call of [l] on the room carries random bytes
    read from a window of the entropy tape of its own, a challenge 32
    bytes and an entry message a nonce of 24; the windows lie in [lo, hi)
    one after the other, in the order of the calls. *)
Inductive js_windows `{Primitives} : nat -> list JS.Sent -> nat -> Prop :=
| windows_nil lo hi :
    (lo <= hi)%nat -> js_windows lo [] hi
| windows_challenge lo hi cursor pk bpk l :
    (lo <= cursor)%nat ->
    js_windows (cursor + 32) l hi ->
    js_windows lo
      (JS.sendChallenge (encodeBase64 (tape_read cursor 32)) pk bpk :: l) hi
| windows_entry lo hi cursor p encrypted l :
    (lo <= cursor)%nat ->
    js_windows (cursor + nonceLength) l hi ->
    js_windows lo (JS.sendEntry p (encodeBase64 (js_nonce cursor)) encrypted :: l) hi.

(** A handler draws its randomness from fresh windows. *)
Definition js_draws `{Primitives} (s s' : JS.Service) : Prop :=
  exists l, JS.sent s' = JS.sent s ++ l /\ js_windows (JS.rng s) l (JS.rng s').



(* ===================================================================== *)
(** ** The rest of the Node service: the trust file, presence, the admin
       socket and the configuration *)
(* ===================================================================== *)

Module Node.

(** An element of the array in [trusted.json], as [saveTrustedKeys] writes
    it: [{publicKey, ...info}], with strings for [publicKey] and [name].
    [boxPublicKey] and [permissions] may be missing from an element. *)
Record StoredKey := mkStoredKey {
  stored_publicKey : string;
  stored_boxPublicKey : option string;
  stored_name : string;
  stored_permissions : option (list string);
  stored_trustedAt : Z
}.

(** What [JSON.parse] makes of [trusted.json]: an array, or something
    [trusted.forEach] cannot run on (the text is not JSON, or not an array).
    An element of the array is an object as above or, [None], a [null], on
    which [entry.publicKey] throws. *)
Inductive TrustedFile :=
| NotAnArray (raw : string)
| TrustedArray (elements : list (option StoredKey)).

(** The payload of an [announce] action before encryption, by the members
    that vary; [type] and [name] are constants. *)
Record Announcement := mkAnnouncement {
  ann_timestamp : Z;
  ann_entriesCount : nat;
  ann_publicKey : string
}.

(** A message on the admin WebSocket, once parsed: [data.type] is
    ['subscribe'], ['add_entry'] (with [data.content]) or anything else. *)
Inductive AdminMessage :=
| subscribe
| add_entry (content : string)
| other_type.

(** The service with the parts of its environment the handshake does not
    touch: [trusted.json], the calls of [sendAnnouncement] (nonce and
    ciphertext, oldest first), the admin sockets whose ['entry'] listeners
    are registered (in the order of registration, one per [subscribe]) and
    the entries sent on admin sockets. *)
Record State := mkState {
  core : JS.Service;
  trusted_json : option TrustedFile;
  announced : list (string * string);
  listeners : list string;
  ws_sent : list (string * DiaryEntry)
}.

Definition with_core (c : JS.Service) (st : State) : State :=
  mkState c (trusted_json st) (announced st) (listeners st) (ws_sent st).
Definition with_trusted_json (f : option TrustedFile) (st : State) : State :=
  mkState (core st) f (announced st) (listeners st) (ws_sent st).
Definition with_announced (a : list (string * string)) (st : State) : State :=
  mkState (core st) (trusted_json st) a (listeners st) (ws_sent st).
Definition with_listeners (l : list string) (st : State) : State :=
  mkState (core st) (trusted_json st) (announced st) l (ws_sent st).
Definition with_ws_sent (o : list (string * DiaryEntry)) (st : State) : State :=
  mkState (core st) (trusted_json st) (announced st) (listeners st) o.

Abbreviation M := (Eff State).

(** A method of the service run on the extended state. *)
Definition lift {A} (m : JS.M A) : M A :=
  fun st => let '(r, c) := m (core st) in (r, with_core c st).

Section Methods.
Context `{Primitives}.
(** [JSON.stringify] of an announcement. *)
Context (stringify_announcement : Announcement -> string).

(** [loadTrustedKeys]: every element is set under its [publicKey], with
    [permissions || ['read']]; whatever goes wrong is caught and logged,
    and what was set before stays. *)
Definition storedInfo (entry : StoredKey) : JS.TrustedInfo :=
  JS.mkTrusted (stored_boxPublicKey entry) (stored_name entry)
    (JS.permissions_or_read (stored_permissions entry)) (stored_trustedAt entry).

Definition setTrusted (element : option StoredKey) : M unit :=
  entry <- orThrow element ;;
  lift (modify (fun s =>
    JS.with_trustedKeys
      (<[stored_publicKey entry := storedInfo entry]> (JS.trustedKeys s)) s)).

Definition readTrustedKeys : M unit :=
  data <- (f <- gets trusted_json ;; orThrow f) ;;
  trusted <- orThrow (match data with
                      | NotAnArray _ => None
                      | TrustedArray l => Some l
                      end) ;;
  forEach setTrusted trusted.

Definition loadTrustedKeys : M unit :=
  try_catch readTrustedKeys (ret tt).

(** [saveTrustedKeys]: [Array.from(this.trustedKeys.entries())] mapped to
    [{publicKey, ...info}]. *)
Definition toStored (kv : string * JS.TrustedInfo) : StoredKey :=
  mkStoredKey kv.1 (JS.boxPublicKey kv.2) (JS.name kv.2)
    (Some (JS.permissions kv.2)) (JS.trustedAt kv.2).

Definition saveTrustedKeys : M unit :=
  modify (fun st =>
    with_trusted_json
      (Some (TrustedArray
               (map (fun kv => Some (toStored kv))
                  (map_to_list (JS.trustedKeys (core st))))))
      st).

(** [app.post('/api/trusted')] and [app.delete('/api/trusted/:key')] in
    full: the change of [this.trustedKeys], then the file. *)
Definition post_api_trusted (req : JS.TrustRequest) (now : Z) : M unit :=
  lift (JS.addTrusted req now) ;;; saveTrustedKeys.

Definition delete_api_trusted (key : string) : M unit :=
  lift (JS.removeTrusted key) ;;; saveTrustedKeys.

(** [encryptForPeer] on the text of [JSON.stringify(data)]. *)
Definition encryptText (message : string) (peerBoxPublicKey : option string)
  : JS.M (string * string) :=
  nonce <- JS.randomBytes nonceLength ;;
  pk <- orThrow (peerBoxPublicKey ≫= decodeBase64) ;;
  i <- JS.getIdentity ;;
  encrypted <- JS.nacl_box (decodeUTF8 message) nonce pk (JS.secretKey (JS.boxKeyPair i)) ;;
  ret (encodeBase64 nonce, encodeBase64 encrypted).

(** The [broadcast] closure of [startPresenceBroadcast], run at the start
    and every 30 seconds: one announcement encrypted for each trusted key. *)
Definition sendAnnouncement (encrypted : string * string) : M unit :=
  modify (fun st => with_announced (announced st ++ [encrypted]) st).

Definition announceTo (announcement : Announcement)
    (kv : string * JS.TrustedInfo) : M unit :=
  encrypted <- lift (encryptText (stringify_announcement announcement)
                       (JS.boxPublicKey kv.2)) ;;
  sendAnnouncement encrypted.

Definition broadcast (now : Z) : M unit :=
  n <- gets (fun st => length (JS.entries (core st))) ;;
  pk <- lift JS.getPublicKeyString ;;
  let announcement := mkAnnouncement now n pk in
  trusted <- gets (fun st => map_to_list (JS.trustedKeys (core st))) ;;
  forEach (announceTo announcement) trusted.

(** [this.emit('entry', entry)]: each listener sends the entry on its
    socket, in the order of registration. A [ws.send] is recorded whatever
    the state of the socket; it does not throw. *)
Definition emit_entry (entry : DiaryEntry) : M unit :=
  ls <- gets listeners ;;
  forEach (fun ws => modify (fun st => with_ws_sent (ws_sent st ++ [(ws, entry)]) st)) ls.

(** [handleAdminMessage] *)
Definition handleAdminMessage (ws : string) (data : AdminMessage) (now : Z) : M unit :=
  match data with
  | subscribe => modify (fun st => with_listeners (listeners st ++ [ws]) st)
  | add_entry content =>
      entry <- lift (JS.addEntry content now) ;;
      emit_entry entry
  | other_type => ret tt
  end.

(** [ws.on('message')]: [None] is a text [JSON.parse] rejects; whatever is
    thrown is caught and logged. *)
Definition ws_message (ws : string) (message : option AdminMessage) (now : Z)
  : M unit :=
  try_catch (data <- orThrow message ;; handleAdminMessage ws data now) (ret tt).

(** [app.post('/api/entries')] on the extended state: nothing is emitted. *)
Definition post_api_entries (content : string) (now : Z) : M unit :=
  lift (JS.addEntry content now) ;;; ret tt.

End Methods.

(** A value of JavaScript, as far as the configuration needs them. *)
Inductive Value :=
| undefined
| null
| number (n : Z)
| text (s : string).

(** [v || d] *)
Definition truthy (v : Value) : bool :=
  match v with
  | undefined | null => false
  | number n => negb (n =? 0)
  | text s => negb (String.eqb s "")
  end.

Definition or_else (v d : Value) : Value := if truthy v then v else d.

(** [config.k] for an object given by its own properties *)
Definition get (o : gmap string Value) (k : string) : Value :=
  default undefined (o !! k).

(** [this.config] as the constructor builds it:
    [{port: config.port || 3333, dataDir: ..., roomSalt: ..., ...config}];
    the properties of [config] come last and replace the ones before. *)
Definition constructor_config (config : gmap string Value) : gmap string Value :=
  config ∪
  list_to_map
    [("port"%string, or_else (get config "port") (number 3333));
     ("dataDir"%string, or_else (get config "dataDir") (text "./diary-data"));
     ("roomSalt"%string, or_else (get config "roomSalt") (text "trust-diary-v1"))].

End Node.

(** The extended service over a data directory, as the constructor leaves
    it. *)
Definition node_new (salt : string) (identity_file : option FileData)
    (entries_file : option (list DiaryEntry))
    (trusted_file : option Node.TrustedFile) : Node.State :=
  Node.mkState (JS.construct salt identity_file entries_file) trusted_file [] [] [].

(** The elements of [trusted.json] the loop of [loadTrustedKeys] reaches:
    the ones before the first [null]. *)
Fixpoint node_readable (elements : list (option Node.StoredKey))
  : list Node.StoredKey :=
  match elements with
  | Some entry :: rest => entry :: node_readable rest
  | _ => []
  end.

(** [trusted.json] lists the trust store, in some order. *)
Definition node_trust_saved (st : Node.State) : Prop :=
  exists l, Node.trusted_json st = Some (Node.TrustedArray (map Some l))
            /\ l ≡ₚ map Node.toStored (map_to_list (JS.trustedKeys (Node.core st))).

(** The announcement sealed for a trusted record with the nonce read at
    [cursor], as [sendAnnouncement] gets it: nonce and ciphertext. *)
Definition node_sealed_announcement `{Primitives} (text : string)
    (sk : list byte) (cursor : nat) (ti : JS.TrustedInfo) : string * string :=
  (encodeBase64 (js_nonce cursor),
   encodeBase64
     (crypto_box (decodeUTF8 text) (js_nonce cursor)
        (default [] (js_box_key ti)) sk)).

(* ===================================================================== *)
(** ** The trust file of the Go service *)
(* ===================================================================== *)

Module GoStore.

(** What [json.Unmarshal] into a [[]TrustedUser] makes of [trusted.json]:
    an error, with its text, or the slice of the users. *)
Inductive TrustedFile :=
| Unparsable (err : string)
| Users (users : list Go.TrustedUser).

(** The variable of a [for ... range] loop: one for the whole loop (Go
    before 1.22) or one for each iteration (from Go 1.22 on). The sources
    come without a [go.mod] that would settle it. *)
Inductive LoopVar :=
| PerLoop
| PerIteration.

(** The service with [trusted.json]. *)
Record State := mkState {
  core : Go.Service;
  trusted_json : option TrustedFile
}.

Definition with_core (c : Go.Service) (st : State) : State :=
  mkState c (trusted_json st).
Definition with_trusted_json (f : option TrustedFile) (st : State) : State :=
  mkState (core st) f.

Abbreviation M := (Eff State).

Definition lift {A} (m : Go.M A) : M A :=
  fun st => let '(r, c) := m (core st) in (r, with_core c st).

Section Methods.
Context `{Primitives}.

(** [s.trustedUsers[key] = &user]; the map is kept by value, which is what
    every later read of the pointer sees: nothing writes through it. *)
Definition setUser (key : string) (user : Go.TrustedUser) : M unit :=
  lift (modify (fun s =>
    Go.with_trustedUsers (<[key := user]> (Go.trustedUsers s)) s)).

(** What [&user], taken in the loop over [trusted] at the element [user],
    points to once the loop is over: with one variable for the whole loop
    every pointer taken is the same, and the variable holds the last
    element. *)
Definition pointee (loopvar : LoopVar) (trusted : list Go.TrustedUser)
    (user : Go.TrustedUser) : Go.TrustedUser :=
  match loopvar with
  | PerIteration => user
  | PerLoop => default user (last trusted)
  end.

(** [loadTrustedUsers]: [s.trustedUsers[user.PublicKey] = &user] for each
    element. *)
Definition loadTrustedUsers (loopvar : LoopVar) : M Go.error :=
  file <- gets trusted_json ;;
  match file with
  | None => ret (Some "no trusted users found"%string)
  | Some (Unparsable err) =>
      ret (Some ("failed to parse trusted users: " +:+ err)%string)
  | Some (Users trusted) =>
      forEach (fun user =>
                 setUser (Go.user_PublicKey user) (pointee loopvar trusted user))
        trusted ;;;
      ret None
  end.

(** [saveTrustedUsers]: the values of the map, in the order of [range];
    the file is taken to be writable, as [entries.json] is. *)
Definition saveTrustedUsers : M Go.error :=
  modify (fun st =>
    with_trusted_json
      (Some (Users (map snd (map_to_list (Go.trustedUsers (core st)))))) st) ;;;
  ret None.

(** [handleAddTrusted] and [handleRemoveTrusted] in full: the change of
    [s.trustedUsers], then the file; an error of the save is logged. *)
Definition handleAddTrusted (user : Go.TrustedUser) (now : Z) : M unit :=
  lift (Go.handleAddTrusted user now) ;;;
  saveTrustedUsers ;;;
  ret tt.

Definition handleRemoveTrusted (key : string) : M unit :=
  lift (Go.handleRemoveTrusted key) ;;;
  saveTrustedUsers ;;;
  ret tt.

End Methods.
End GoStore.

(** The Go service over a data directory, as [NewTrustDiaryService] leaves
    it. *)
Definition go_new (identity_file : option FileData)
    (entries_file : option Go.EntriesFile)
    (trusted_file : option GoStore.TrustedFile) : GoStore.State :=
  GoStore.mkState (Go.NewTrustDiaryService identity_file entries_file) trusted_file.

(** Every record of the trust store sits under its own [PublicKey]. *)
Definition go_keyed (m : gmap string Go.TrustedUser) : Prop :=
  forall k u, m !! k = Some u -> Go.user_PublicKey u = k.

(** [trusted.json] lists the records of the trust store, in some order. *)
Definition go_trust_saved (st : GoStore.State) : Prop :=
  exists l, GoStore.trusted_json st = Some (GoStore.Users l)
            /\ l ≡ₚ map snd (map_to_list (Go.trustedUsers (GoStore.core st))).

(* ===================================================================== *)
(** ** More sample data *)
(* ===================================================================== *)

Module Sample.

#[local] Existing Instance Demo.primitives.

(** Bob, trusted without a box key: the request body carried none. *)
Definition bob : list byte := Demo.reader_key "b"%byte.

Definition trust_bob : JS.TrustRequest :=
  JS.mkTrustRequest (encodeBase64 bob) None (Some "Bob"%string) None.

Definition bob_info : JS.TrustedInfo :=
  JS.mkTrusted None "Bob" ["read"%string] 1100.

(** The Node service with Bob trusted, when a peer has joined and once it
    has answered the challenge with Bob's key. *)
Definition js_bob_joined : JS.Service :=
  JS.run Demo.js_started
    [JS.post_api_trusted trust_bob 1100; JS.onPeerJoin "peer-2" 1200].

Definition bob_challenge : string :=
  default ""%string (JS.challenge <$> JS.connections js_bob_joined !! "peer-2"%string).

Definition bob_response : JS.AuthData := Demo.respond bob_challenge bob.

Definition bob_joined_conn : JS.Conn :=
  JS.mkConn JS.challenging bob_challenge 1200 None None None.

Definition js_bob_served : JS.Service :=
  JS.run js_bob_joined [JS.getResponse bob_response "peer-2"].

Definition bob_served_conn : JS.Conn :=
  JS.mkConn JS.authenticated bob_challenge 1200 (Some (encodeBase64 bob))
    (Some ["read"%string]) (Some "Bob"%string).

(** An entry to add. *)
Definition second_entry : DiaryEntry := mkEntry 2 "Dear diary" 1300 "Admin".

(** The Node service with its files, once Alice is served. *)
Definition node_served : Node.State :=
  Node.mkState Demo.js_served None [] [] [].

(** A stand-in for [JSON.stringify] of an announcement. *)
Definition stringify_announcement (a : Node.Announcement) : string :=
  Node.ann_publicKey a.

(** Two users in the trust file of the Go service. *)
Definition go_bob : Go.TrustedUser :=
  Go.mkTrustedUser (encodeBase64 bob) (encodeBase64 bob) "Bob" None 0.

Definition go_users : list Go.TrustedUser := [Demo.go_alice; go_bob].

(** While the peer Mallory answered for is still in the room, a second
    peer joins, answers its challenge with Alice's key, and an entry is
    added. *)
Definition js_second_joined : JS.Service :=
  JS.step Demo.js_refused (JS.onPeerJoin "peer-2" 1300).

Definition second_challenge : string :=
  default ""%string
    (JS.challenge <$> JS.connections js_second_joined !! "peer-2"%string).

Definition room_events : list JS.Event :=
  [JS.onPeerJoin "peer-2" 1300;
   JS.getResponse (Demo.respond second_challenge Demo.alice) "peer-2";
   JS.post_api_entries "Dear diary" 1400].

End Sample.

(* ===================================================================== *)
(** ** Strings and base64 *)
(* ===================================================================== *)

Lemma list_ind3 {A} (P : list A -> Prop) :
  P [] -> (forall a, P [a]) -> (forall a b, P [a; b]) ->
  (forall a b c l, P l -> P (a :: b :: c :: l)) ->
  forall l, P l.
Proof.
  intros H0 H1 H2 H3.
  fix IH 1. intros [|a [|b [|c l]]].
  - exact H0.
  - apply H1.
  - apply H2.
  - apply H3, IH.
Qed.

Lemma string_of_list_ascii_length (l : list ascii) :
  String.length (String.string_of_list_ascii l) = length l.
Proof. induction l as [|c l IH]; simpl; congruence. Qed.

Lemma substring_prefix_length (n : nat) (s : string) :
  String.length (String.substring 0 n s) = Nat.min n (String.length s).
Proof.
  revert s. induction n as [|n IH]; intros [|c s]; simpl; auto.
Qed.

(** Base64 writes four characters for every three bytes, the last group
    padded. *)
Lemma encode_triples_length (bs : list byte) :
  length (encode_triples bs) = (4 * ((length bs + 2) / 3))%nat.
Proof.
  induction bs as [| a | a b | a b c l IH] using list_ind3; try reflexivity.
  cbn [encode_triples length]. rewrite IH.
  replace (S (S (S (length l))) + 2)%nat with (1 * 3 + (length l + 2))%nat by lia.
  rewrite Nat.div_add_l by lia. lia.
Qed.

Lemma encodeBase64_length (bs : list byte) :
  String.length (encodeBase64 bs) = (4 * ((length bs + 2) / 3))%nat.
Proof.
  unfold encodeBase64.
  by rewrite string_of_list_ascii_length, encode_triples_length.
Qed.

(** Base64 round trip: every sextet has its own character, none of them
    the padding character, and four sextets hold three bytes. *)
Lemma N_lt_64_cases (P : N -> Prop) :
  (forall k : nat, (k < 64)%nat -> P (N.of_nat k)) ->
  forall n : N, (n < 64)%N -> P n.
Proof.
  intros HP n Hn. rewrite <- (N2Nat.id n). apply HP. lia.
Qed.

Lemma char_sextet_sextet_char (n : N) :
  (n < 64)%N -> char_sextet (sextet_char n) = Some n.
Proof.
  revert n. apply N_lt_64_cases. intros k Hk.
  do 64 (destruct k as [|k]; [vm_compute; reflexivity|]). lia.
Qed.

Lemma sextet_char_not_pad (n : N) :
  (n < 64)%N -> is_pad (sextet_char n) = false.
Proof.
  revert n. apply N_lt_64_cases. intros k Hk.
  do 64 (destruct k as [|k]; [vm_compute; reflexivity|]). lia.
Qed.

Lemma byte_to_N_lt (a : byte) : (Byte.to_N a < 256)%N.
Proof.
  pose proof (Byte.to_of_N_option_map (Byte.to_N a)) as Ho.
  rewrite Byte.of_to_N in Ho. simpl in Ho.
  destruct (N.leb_spec (Byte.to_N a) 255); [lia | discriminate].
Qed.

Lemma byte_of_N_to_N (a : byte) : byte_of_N (Byte.to_N a) = a.
Proof. unfold byte_of_N. by rewrite Byte.of_to_N. Qed.

Lemma N_div_mod_split (n d : N) : (d <> 0 -> n / d * d + n mod d = n)%N.
Proof. intros Hd. rewrite (N.div_mod n d) at 3 by done. lia. Qed.

Lemma N_low_div (m q d : N) : (q < d -> (m * d + q) / d = m)%N.
Proof.
  intros Hq. rewrite N.div_add_l by lia. rewrite N.div_small by done. lia.
Qed.

Lemma N_low_mod (m q d : N) : (q < d -> (m * d + q) mod d = q)%N.
Proof.
  intros Hq. rewrite N.add_comm, N.Div0.mod_add. by apply N.mod_small.
Qed.

Lemma quad_bytes_triple (a b c : byte) :
  let a' := Byte.to_N a in
  let b' := Byte.to_N b in
  let c' := Byte.to_N c in
  quad_bytes (a' / 4) ((a' mod 4) * 16 + b' / 16)
             ((b' mod 16) * 4 + c' / 64) (c' mod 64) = [a; b; c]%N.
Proof.
  intros a' b' c'. unfold quad_bytes.
  pose proof (byte_to_N_lt b) as Hb. pose proof (byte_to_N_lt c) as Hc.
  fold b' in Hb. fold c' in Hc.
  assert (b' / 16 < 16)%N as Hb16 by (apply N.Div0.div_lt_upper_bound; lia).
  assert (c' / 64 < 4)%N as Hc64 by (apply N.Div0.div_lt_upper_bound; lia).
  rewrite (N_low_div _ _ 16), (N_low_mod _ _ 16) by done.
  rewrite (N_low_div _ _ 4), (N_low_mod _ _ 4) by done.
  rewrite !N_div_mod_split by done.
  subst a' b' c'. by rewrite !byte_of_N_to_N.
Qed.

Lemma quad_bytes_pair (a b : byte) :
  let a' := Byte.to_N a in
  let b' := Byte.to_N b in
  take 2 (quad_bytes (a' / 4) ((a' mod 4) * 16 + b' / 16)
                     ((b' mod 16) * 4) 0) = [a; b]%N.
Proof.
  intros a' b'. unfold quad_bytes. cbn [take].
  pose proof (byte_to_N_lt b) as Hb. fold b' in Hb.
  assert (b' / 16 < 16)%N as Hb16 by (apply N.Div0.div_lt_upper_bound; lia).
  rewrite (N_low_div _ _ 16), (N_low_mod _ _ 16) by done.
  rewrite N.div_mul by done.
  rewrite !N_div_mod_split by done.
  subst a' b'. by rewrite !byte_of_N_to_N.
Qed.

Lemma quad_bytes_single (a : byte) :
  let a' := Byte.to_N a in
  take 1 (quad_bytes (a' / 4) ((a' mod 4) * 16) 0 0) = [a]%N.
Proof.
  intros a'. unfold quad_bytes. cbn [take].
  rewrite N.div_mul by done.
  rewrite N_div_mod_split by done.
  subst a'. by rewrite byte_of_N_to_N.
Qed.

Lemma sextet_bounds (a b : byte) :
  let a' := Byte.to_N a in
  let b' := Byte.to_N b in
  (a' / 4 < 64 /\ (a' mod 4) * 16 < 64 /\ (a' mod 4) * 16 + b' / 16 < 64
   /\ (a' mod 16) * 4 < 64 /\ (a' mod 16) * 4 + b' / 64 < 64
   /\ a' mod 64 < 64)%N.
Proof.
  intros a' b'.
  pose proof (byte_to_N_lt a) as Ha. pose proof (byte_to_N_lt b) as Hb.
  fold a' in Ha. fold b' in Hb.
  assert (a' / 4 < 64)%N by (apply N.Div0.div_lt_upper_bound; lia).
  assert (b' / 16 < 16)%N by (apply N.Div0.div_lt_upper_bound; lia).
  assert (b' / 64 < 4)%N by (apply N.Div0.div_lt_upper_bound; lia).
  pose proof (N.mod_upper_bound a' 4). pose proof (N.mod_upper_bound a' 16).
  pose proof (N.mod_upper_bound a' 64). lia.
Qed.

(** Decoding undoes encoding. *)
Lemma decode_quads_encode_triples (bs : list byte) :
  decode_quads (encode_triples bs) = Some bs.
Proof.
  induction bs as [| a | a b | a b c l IH] using list_ind3.
  - reflexivity.
  - destruct (sextet_bounds a a) as (H1 & H2 & _).
    cbn [encode_triples decode_quads]. unfold decode_last.
    rewrite !char_sextet_sextet_char by done. cbn [mbind option_bind].
    change (is_pad pad_char) with true. cbn iota.
    by rewrite quad_bytes_single.
  - destruct (sextet_bounds a b) as (H1 & _ & H3 & _).
    destruct (sextet_bounds b b) as (_ & _ & _ & H4 & _).
    cbn [encode_triples decode_quads]. unfold decode_last.
    rewrite !char_sextet_sextet_char by done. cbn [mbind option_bind].
    change (is_pad pad_char) with true. cbn iota.
    rewrite sextet_char_not_pad by done.
    rewrite ?char_sextet_sextet_char by done. cbn [mbind option_bind].
    by rewrite quad_bytes_pair.
  - destruct (sextet_bounds a b) as (H1 & _ & H3 & _).
    destruct (sextet_bounds b c) as (_ & _ & _ & _ & H5 & _).
    destruct (sextet_bounds c c) as (_ & _ & _ & _ & _ & H6).
    cbn [encode_triples].
    change (decode_quads (?a :: ?b :: ?c :: ?d :: ?rest)) with
      (match rest with
       | [] => decode_last a b c d
       | _ =>
           w ← char_sextet a; x ← char_sextet b;
           y ← char_sextet c; z ← char_sextet d;
           tl ← decode_quads rest;
           Some (quad_bytes w x y z ++ tl)
       end).
    rewrite IH. unfold decode_last.
    rewrite !char_sextet_sextet_char by done. cbn [mbind option_bind].
    rewrite !sextet_char_not_pad by done.
    rewrite ?char_sextet_sextet_char by done. cbn [mbind option_bind].
    rewrite quad_bytes_triple.
    destruct (encode_triples l) eqn:El; [|done].
    destruct l as [|x [|y [|z l']]]; [done|done|done|done].
Qed.

Lemma decodeBase64_encodeBase64 (bs : list byte) :
  decodeBase64 (encodeBase64 bs) = Some bs.
Proof.
  unfold decodeBase64, encodeBase64.
  rewrite String.list_ascii_of_string_of_list_ascii.
  apply decode_quads_encode_triples.
Qed.

(* ===================================================================== *)
(** ** Handlers, step by step *)
(* ===================================================================== *)

Lemma exec_bind {S A B} (m : Eff S A) (f : A -> Eff S B) (s : S) :
  exec (bind m f) s =
  match m s with
  | (Return a, s') => exec (f a) s'
  | (Throw, s') => s'
  end.
Proof. unfold exec, bind. by destruct (m s) as [[a|] s']. Qed.

(** A loop keeps whatever each of its rounds keeps. *)
Lemma forEach_preserves {S A} (R : S -> S -> Prop) (f : A -> Eff S unit)
    (l : list A) :
  (forall s, R s s) ->
  (forall s1 s2 s3, R s1 s2 -> R s2 s3 -> R s1 s3) ->
  (forall a s, a ∈ l -> R s (exec (f a) s)) ->
  forall s, R s (exec (forEach f l) s).
Proof.
  intros Hrefl Htrans. induction l as [|a l IH]; intros Hf s.
  - apply Hrefl.
  - cbn [forEach]. rewrite exec_bind.
    pose proof (Hf a s ltac:(left)) as Ha. unfold exec in Ha.
    destruct (f a s) as [[[]|] s']; simpl in Ha.
    + eapply Htrans; [exact Ha|]. apply IH. intros b s0 Hb. apply Hf. by right.
    + exact Ha.
Qed.

(* ===================================================================== *)
(** ** The handshake and the sending of entries in the Node service *)
(* ===================================================================== *)

Section JsHandshake.
Context `{Primitives}.

Lemma js_response_ignored (s : JS.Service) (data : JS.AuthData) (peerId : string) :
  js_state s peerId <> Some JS.challenging ->
  JS.handleAuthResponse data peerId s = (Return tt, s).
Proof.
  unfold js_state, JS.handleAuthResponse, bind, gets. intros Hst.
  destruct (JS.connections s !! peerId) as [conn|]; [|done].
  simpl in Hst. rewrite bool_decide_false by congruence. done.
Qed.

Lemma js_verify_valid (s : JS.Service) (data : JS.AuthData) (conn : JS.Conn) :
  js_signature_valid (JS.challenge conn) data = true ->
  exists sig pk ch,
    decodeBase64 (JS.signature data) = Some sig /\
    decodeBase64 (JS.data_publicKey data) = Some pk /\
    decodeBase64 (JS.challenge conn) = Some ch /\
    JS.sign_detached_verify ch sig pk s = (Return true, s).
Proof.
  unfold js_signature_valid, JS.sign_detached_verify. intros Hv.
  destruct (decodeBase64 (JS.signature data)) as [sig|]; [|done].
  destruct (decodeBase64 (JS.data_publicKey data)) as [pk|]; [|done].
  destruct (decodeBase64 (JS.challenge conn)) as [ch|]; [|done].
  apply andb_true_iff in Hv as [Hv Hver]. apply andb_true_iff in Hv as [Hs Hp].
  exists sig, pk, ch. rewrite Hs, Hp, Hver. done.
Qed.

Lemma js_classify_invalid (s : JS.Service) (data : JS.AuthData) (peerId : string) (conn : JS.Conn) :
  js_signature_valid (JS.challenge conn) data = false ->
  exec (try_catch (JS.verifyAndClassify data peerId conn) (ret tt)) s = s
  /\ fst (try_catch (JS.verifyAndClassify data peerId conn) (ret tt) s) = Return tt.
Proof.
  unfold js_signature_valid, JS.verifyAndClassify, JS.sign_detached_verify.
  unfold exec, try_catch, bind, orThrow, ret, throw. intros Hv.
  destruct (decodeBase64 (JS.signature data)) as [sig|]; [|done].
  destruct (decodeBase64 (JS.data_publicKey data)) as [pk|]; [|done].
  destruct (decodeBase64 (JS.challenge conn)) as [ch|]; [|done].
  destruct (length sig =? crypto_sign_BYTES)%nat; [|done].
  destruct (length pk =? crypto_sign_PUBLICKEYBYTES)%nat; [|done].
  simpl in *. rewrite Hv. done.
Qed.

Lemma tape_read_length (cursor n : nat) : length (tape_read cursor n) = n.
Proof. unfold tape_read. by rewrite length_map, length_seq. Qed.

Section Fresh.
Context (B : string -> list byte -> list byte -> DiaryEntry -> Prop).

Lemma js_fresh_seq_le (lo hi : nat) (l : list JS.Sent) :
  js_fresh_seq B lo l hi -> (lo <= hi)%nat.
Proof. induction 1; unfold nonceLength in *; lia. Qed.

Lemma js_fresh_seq_lower (lo lo' hi : nat) (l : list JS.Sent) :
  (lo' <= lo)%nat -> js_fresh_seq B lo l hi -> js_fresh_seq B lo' l hi.
Proof.
  intros Hle Hs. revert lo' Hle.
  induction Hs as [lo hi Hlh | lo hi a b c l Hs IH | lo hi cur p pk sk e l Hc HB Hs IH];
    intros lo' Hle.
  - constructor. lia.
  - constructor. by apply IH.
  - constructor; [lia | done | done].
Qed.

Lemma js_fresh_seq_app (lo mid hi : nat) (l1 l2 : list JS.Sent) :
  js_fresh_seq B lo l1 mid -> js_fresh_seq B mid l2 hi ->
  js_fresh_seq B lo (l1 ++ l2) hi.
Proof.
  induction 1 as [lo mid Hlm | lo mid a b c l Hs IH | lo mid cur p pk sk e l Hc HB Hs IH];
    intros H2; simpl.
  - by eapply js_fresh_seq_lower.
  - constructor. by apply IH.
  - constructor; [done | done | by apply IH].
Qed.

Lemma js_fresh_seq_entries_for (peer : string) (lo hi : nat) (l : list JS.Sent) :
  js_fresh_seq B lo l hi -> (forall pk sk e, ~ B peer pk sk e) ->
  js_entries_for peer l = [].
Proof.
  intros Hs HB. induction Hs as [| |lo hi cur p pk sk e l Hc Hb Hs IH]; simpl; auto.
  rewrite bool_decide_false; [exact IH|]. intros ->. by eapply HB.
Qed.

End Fresh.

Lemma js_fresh_seq_mono
    (B B' : string -> list byte -> list byte -> DiaryEntry -> Prop)
    (lo hi : nat) (l : list JS.Sent) :
  (forall p pk sk e, B p pk sk e -> B' p pk sk e) ->
  js_fresh_seq B lo l hi -> js_fresh_seq B' lo l hi.
Proof. intros HB. induction 1; constructor; auto. Qed.

Lemma js_frame_refl B (s : JS.Service) : js_frame B s s.
Proof.
  split_and!; try done. exists []. split; [by rewrite app_nil_r | by constructor].
Qed.

Lemma js_frame_trans B (s1 s2 s3 : JS.Service) :
  js_frame B s1 s2 -> js_frame B s2 s3 -> js_frame B s1 s3.
Proof.
  intros (A1 & A2 & A3 & A4 & A5 & A6 & A7 & l1 & A9 & A10)
         (B1 & B2 & B3 & B4 & B5 & B6 & B7 & l2 & B9 & B10).
  split_and!; try congruence.
  exists (l1 ++ l2). split.
  - by rewrite B9, A9, app_assoc.
  - by eapply js_fresh_seq_app.
Qed.

Lemma js_frame_weaken B B' (s s' : JS.Service) :
  (forall p pk sk e, B p pk sk e -> B' p pk sk e) ->
  js_frame B s s' -> js_frame B' s s'.
Proof.
  intros HB (A1 & A2 & A3 & A4 & A5 & A6 & A7 & l1 & A9 & A10).
  split_and!; try done. exists l1. split; [done|]. by eapply js_fresh_seq_mono.
Qed.

(** [encryptForPeer], case by case *)
Lemma js_encryptForPeer_eq (e : DiaryEntry) (k : option string) (s : JS.Service) :
  JS.encryptForPeer e k s =
  let s1 := JS.with_rng (JS.rng s + nonceLength) s in
  match k ≫= decodeBase64, JS.identity s with
  | Some pk, Some i =>
      if ((length pk =? crypto_box_PUBLICKEYBYTES)%nat
          && (length (JS.secretKey (JS.boxKeyPair i)) =? crypto_box_SECRETKEYBYTES)%nat)%bool
      then (Return (encodeBase64 (js_nonce (JS.rng s)),
                    encodeBase64
                      (crypto_box (decodeUTF8 (JSON_stringify e))
                         (js_nonce (JS.rng s)) pk (JS.secretKey (JS.boxKeyPair i)))),
            s1)
      else (Throw, s1)
  | _, _ => (Throw, s1)
  end.
Proof.
  unfold JS.encryptForPeer, JS.randomBytes, JS.getIdentity, JS.nacl_box, js_nonce.
  unfold bind, ret, throw, gets, orThrow.
  cbn beta iota. rewrite tape_read_length, Nat.eqb_refl.
  destruct (k ≫= decodeBase64) as [pk|]; [|done].
  cbn -[Nat.eqb nonceLength tape_read].
  destruct (JS.identity s) as [i|]; [|done].
  cbn -[Nat.eqb nonceLength tape_read].
  destruct (length pk =? _)%nat; [|done].
  destruct (length (JS.secretKey (JS.boxKeyPair i)) =? _)%nat; done.
Qed.

Lemma js_sendEncrypted_frame (p : string) (k : option string) (e : DiaryEntry)
    (s : JS.Service) :
  js_frame
    (fun q pk sk e' =>
       q = p /\ e' = e /\ k ≫= decodeBase64 = Some pk /\
       length pk = crypto_box_PUBLICKEYBYTES /\
       exists i, JS.identity s = Some i /\ sk = JS.secretKey (JS.boxKeyPair i))
    s (exec (JS.sendEncrypted p k e) s).
Proof.
  unfold JS.sendEncrypted, exec, bind. rewrite js_encryptForPeer_eq.
  cbn zeta.
  assert (Hthrow : forall B, js_frame B s (JS.with_rng (JS.rng s + nonceLength) s)).
  { intros B. split_and!; try done.
    exists []. split; [by rewrite app_nil_r | constructor; simpl; lia]. }
  destruct (k ≫= decodeBase64) as [pk|] eqn:Hk; [|apply Hthrow].
  destruct (JS.identity s) as [i|] eqn:Hi; [|apply Hthrow].
  destruct (length pk =? _)%nat eqn:Hpk; [|apply Hthrow].
  destruct (length (JS.secretKey _) =? _)%nat; [|apply Hthrow].
  apply Nat.eqb_eq in Hpk.
  split_and!; try done. eexists [_]. split; [done|].
  apply (fresh_entry _ _ _ (JS.rng s)); [done| |constructor; done].
  split_and!; eauto.
Qed.

Lemma js_sendEntriesToPeer_frame (p : string) (s : JS.Service) :
  js_frame (fun q pk sk e => q = p /\ js_bound s q pk sk e) s
    (exec (JS.sendEntriesToPeer p) s).
Proof.
  unfold JS.sendEntriesToPeer. rewrite exec_bind. unfold gets at 1.
  destruct (JS.connections s !! p) as [conn|] eqn:Hc; [|apply js_frame_refl].
  destruct (bool_decide (JS.state conn = JS.authenticated)) eqn:Hst; simpl;
    [|apply js_frame_refl].
  apply bool_decide_eq_true in Hst.
  rewrite exec_bind. unfold gets at 1.
  destruct (JS.conn_publicKey conn) as [k|] eqn:Hk; [|apply js_frame_refl].
  simpl.
  destruct (JS.trustedKeys s !! k) as [ti|] eqn:Ht; [|apply js_frame_refl].
  rewrite exec_bind. unfold gets at 1.
  set (B := fun q pk sk e => q = p /\ js_bound s q pk sk e).
  apply (forEach_preserves
           (fun s1 s2 => JS.identity s1 = JS.identity s -> js_frame B s1 s2));
    [| | |done].
  - intros s1 _. apply js_frame_refl.
  - intros s1 s2 s3 H12 H23 H1. specialize (H12 H1).
    eapply js_frame_trans; [exact H12|]. apply H23.
    destruct H12 as (_ & _ & _ & -> & _). done.
  - intros e s0 He Hi. eapply js_frame_weaken; [|apply js_sendEncrypted_frame].
    intros q pk sk e' (-> & -> & Hd & Hlen & i & Hi0 & ->). split; [done|].
    destruct (JS.boxPublicKey ti) as [b|] eqn:Hb; [|done]. simpl in Hd.
    exists conn, k, ti, b, i. split_and!; try done. congruence.
Qed.

Lemma js_broadcastEntry_frame (e : DiaryEntry) (s : JS.Service) :
  e ∈ JS.entries s ->
  js_frame (js_bound s) s (exec (JS.broadcastEntry e) s).
Proof.
  intros He. unfold JS.broadcastEntry. rewrite exec_bind. unfold gets at 1.
  assert (Hin : forall kv, kv ∈ map_to_list (JS.connections s) ->
                           JS.connections s !! kv.1 = Some kv.2).
  { intros [q c] Hq. by apply elem_of_map_to_list in Hq. }
  revert Hin. generalize (map_to_list (JS.connections s)). intros conns Hin.
  apply (forEach_preserves
           (fun s1 s2 => JS.identity s1 = JS.identity s /\
                         JS.trustedKeys s1 = JS.trustedKeys s ->
                         js_frame (js_bound s) s1 s2));
    [| | |done].
  - intros s1 _. apply js_frame_refl.
  - intros s1 s2 s3 H12 H23 H1. specialize (H12 H1).
    eapply js_frame_trans; [exact H12|]. apply H23.
    destruct H12 as (_ & -> & _ & -> & _). done.
  - intros [q c] s0 Hq [Hi Htk]. apply Hin in Hq. simpl in Hq.
    unfold JS.broadcastTo.
    destruct (bool_decide (JS.state c = JS.authenticated)) eqn:Hst;
      [|apply js_frame_refl].
    apply bool_decide_eq_true in Hst.
    rewrite exec_bind. unfold gets at 1.
    destruct (JS.conn_publicKey c) as [k|] eqn:Hk; [|apply js_frame_refl].
    simpl. rewrite Htk.
    destruct (JS.trustedKeys s !! k) as [ti|] eqn:Ht; [|apply js_frame_refl].
    eapply js_frame_weaken; [|apply js_sendEncrypted_frame].
    intros q' pk sk e' (-> & -> & Hd & Hlen & i & Hi0 & ->).
    destruct (JS.boxPublicKey ti) as [b|] eqn:Hb; [|done]. simpl in Hd.
    exists c, k, ti, b, i. split_and!; try done. congruence.
Qed.

Lemma js_response_invalid (s : JS.Service) (data : JS.AuthData)
    (peerId : string) (conn : JS.Conn) :
  JS.connections s !! peerId = Some conn ->
  JS.state conn = JS.challenging ->
  js_signature_valid (JS.challenge conn) data = false ->
  JS.handleAuthResponse data peerId s = (Return tt, s).
Proof.
  intros Hc Hst Hv. unfold JS.handleAuthResponse, bind, gets.
  rewrite Hc, Hst. simpl.
  destruct (js_classify_invalid s data peerId conn Hv) as [He Hr].
  unfold exec in He.
  destruct (try_catch _ _ s) as [o s']. simpl in *. congruence.
Qed.

Lemma js_response_untrusted (s : JS.Service) (data : JS.AuthData)
    (peerId : string) (conn : JS.Conn) :
  JS.connections s !! peerId = Some conn ->
  JS.state conn = JS.challenging ->
  js_signature_valid (JS.challenge conn) data = true ->
  JS.trustedKeys s !! JS.data_publicKey data = None ->
  JS.handleAuthResponse data peerId s =
  (Return tt,
   JS.with_connections
     (<[peerId := js_classified JS.untrusted conn (JS.conn_publicKey conn)
                    (JS.conn_permissions conn) (JS.conn_name conn)]>
        (JS.connections s)) s).
Proof.
  intros Hc Hst Hv Ht. unfold JS.handleAuthResponse, bind, gets.
  rewrite Hc, Hst. simpl.
  destruct (js_verify_valid s data conn Hv) as (sig & pk & ch & Hs & Hp & Hch & Hver).
  unfold JS.verifyAndClassify, try_catch, bind, orThrow, ret, gets.
  rewrite Hs, Hp, Hch, Hver. simpl. rewrite Ht. done.
Qed.

Lemma js_response_trusted (s : JS.Service) (data : JS.AuthData)
    (peerId : string) (conn : JS.Conn) (ti : JS.TrustedInfo) :
  JS.connections s !! peerId = Some conn ->
  JS.state conn = JS.challenging ->
  js_signature_valid (JS.challenge conn) data = true ->
  JS.trustedKeys s !! JS.data_publicKey data = Some ti ->
  JS.handleAuthResponse data peerId s =
  (Return tt,
   exec (JS.sendEntriesToPeer peerId)
     (JS.with_connections
        (<[peerId := js_classified JS.authenticated conn
                       (Some (JS.data_publicKey data))
                       (Some (JS.permissions ti)) (Some (JS.name ti))]>
           (JS.connections s)) s)).
Proof.
  intros Hc Hst Hv Ht. unfold JS.handleAuthResponse, bind, gets.
  rewrite Hc, Hst. simpl.
  destruct (js_verify_valid s data conn Hv) as (sig & pk & ch & Hs & Hp & Hch & Hver).
  unfold JS.verifyAndClassify, try_catch, bind, orThrow, ret, gets.
  rewrite Hs, Hp, Hch, Hver. simpl. rewrite Ht.
  unfold JS.setConnection, modify, exec. simpl.
  destruct (JS.sendEntriesToPeer peerId _) as [[[]|] s']; done.
Qed.

(** The three ways [handleAuthResponse] can go. *)
Lemma js_response_cases (s : JS.Service) (data : JS.AuthData) (peerId : string) :
  JS.handleAuthResponse data peerId s = (Return tt, s)
  \/ (exists conn,
        JS.connections s !! peerId = Some conn /\
        JS.state conn = JS.challenging /\
        js_signature_valid (JS.challenge conn) data = true /\
        JS.trustedKeys s !! JS.data_publicKey data = None /\
        JS.handleAuthResponse data peerId s =
        (Return tt,
         JS.with_connections
           (<[peerId := js_classified JS.untrusted conn (JS.conn_publicKey conn)
                          (JS.conn_permissions conn) (JS.conn_name conn)]>
              (JS.connections s)) s))
  \/ (exists conn ti,
        JS.connections s !! peerId = Some conn /\
        JS.state conn = JS.challenging /\
        js_signature_valid (JS.challenge conn) data = true /\
        JS.trustedKeys s !! JS.data_publicKey data = Some ti /\
        JS.handleAuthResponse data peerId s =
        (Return tt,
         exec (JS.sendEntriesToPeer peerId)
           (JS.with_connections
              (<[peerId := js_classified JS.authenticated conn
                             (Some (JS.data_publicKey data))
                             (Some (JS.permissions ti)) (Some (JS.name ti))]>
                 (JS.connections s)) s))).
Proof.
  destruct (JS.connections s !! peerId) as [conn|] eqn:Hc.
  2:{ left. apply js_response_ignored. unfold js_state. by rewrite Hc. }
  destruct (decide (JS.state conn = JS.challenging)) as [Hst|Hst].
  2:{ left. apply js_response_ignored. unfold js_state. rewrite Hc. simpl. congruence. }
  destruct (js_signature_valid (JS.challenge conn) data) eqn:Hv.
  2:{ left. by eapply js_response_invalid. }
  destruct (JS.trustedKeys s !! JS.data_publicKey data) as [ti|] eqn:Ht.
  - right. right. exists conn, ti. repeat split; try done.
    by apply js_response_trusted.
  - right. left. exists conn. repeat split; try done.
    by apply js_response_untrusted.
Qed.

Lemma js_bound_authenticated (s : JS.Service) (p : string) (pk sk : list byte)
    (e : DiaryEntry) :
  js_bound s p pk sk e -> js_authenticated s p.
Proof.
  intros (conn & k & ti & b & i & Hc & Hst & _).
  unfold js_authenticated, js_state. by rewrite Hc; simpl; rewrite Hst.
Qed.

Lemma js_frame_entries_for B (peer : string) (s s' : JS.Service) :
  js_frame B s s' -> (forall pk sk e, ~ B peer pk sk e) ->
  js_entries_for peer (JS.sent s') = js_entries_for peer (JS.sent s).
Proof.
  intros (_ & _ & _ & _ & _ & _ & _ & l & -> & Hl) HB.
  unfold js_entries_for. rewrite List.filter_app.
  fold (js_entries_for peer l).
  by rewrite (js_fresh_seq_entries_for B peer _ _ l Hl HB), app_nil_r.
Qed.

Lemma js_frame_state B (peer : string) (s s' : JS.Service) :
  js_frame B s s' -> js_state s' peer = js_state s peer.
Proof. intros (Hc & _). unfold js_state. by rewrite Hc. Qed.

Lemma js_addEntry_exec (content : string) (now : Z) (s : JS.Service) :
  exec (JS.addEntry content now) s =
  exec (JS.broadcastEntry (js_new_entry s content now))
    (JS.with_entries_json (Some (JS.entries s ++ [js_new_entry s content now]))
       (JS.with_entries (JS.entries s ++ [js_new_entry s content now]) s)).
Proof.
  unfold JS.addEntry, JS.saveEntries, js_new_entry, exec, bind, gets, modify, ret.
  simpl. by destruct (JS.broadcastEntry _ _) as [[[]|] s'].
Qed.

Lemma js_step_addEntry (content : string) (now : Z) (s : JS.Service) :
  JS.step s (JS.post_api_entries content now) = exec (JS.addEntry content now) s
  /\ JS.step s (JS.ws_add_entry content now) = exec (JS.addEntry content now) s.
Proof.
  unfold JS.step, JS.handle, exec, bind, ret.
  by destruct (JS.addEntry content now s) as [[e|] s'].
Qed.

Lemma js_handlePeerJoin_exec (peerId : string) (now : Z) (s : JS.Service) :
  let conn := JS.mkConn JS.challenging (encodeBase64 (tape_read (JS.rng s) 32))
                now None None None in
  JS.connections (exec (JS.handlePeerJoin peerId now) s)
    = <[peerId := conn]> (JS.connections s)
  /\ JS.trustedKeys (exec (JS.handlePeerJoin peerId now) s) = JS.trustedKeys s
  /\ JS.entries (exec (JS.handlePeerJoin peerId now) s) = JS.entries s
  /\ exists l, JS.sent (exec (JS.handlePeerJoin peerId now) s) = JS.sent s ++ l
               /\ Forall (fun m => exists a b c, m = JS.sendChallenge a b c) l.
Proof.
  unfold JS.handlePeerJoin, JS.randomBytes, JS.setConnection,
    JS.getPublicKeyString, JS.getBoxPublicKeyString, JS.getIdentity, JS.send.
  unfold exec, bind, gets, modify, ret, orThrow, throw. simpl.
  destruct (JS.identity s) as [i|] eqn:Hi; simpl; rewrite ?Hi; simpl;
    split_and!; try done.
  - eexists [_]. split; [done|]. repeat constructor. eauto.
  - exists []. split; [by rewrite app_nil_r | constructor].
Qed.

(** One event never authenticates a peer whose response names an
    untrusted key, nor prepares an entry for a peer that is not
    authenticated. *)
Lemma js_step_gate (s : JS.Service) (ev : JS.Event) (peer : string) :
  ~ js_authenticated s peer ->
  match ev with
  | JS.getResponse data p =>
      p = peer -> JS.trustedKeys s !! JS.data_publicKey data = None
  | _ => True
  end ->
  ~ js_authenticated (JS.step s ev) peer
  /\ js_entries_for peer (JS.sent (JS.step s ev)) = js_entries_for peer (JS.sent s).
Proof.
  intros Hna Hev. destruct ev as [p now|p|data p|data p|c now|c now|req now|key].
  - (* onPeerJoin *)
    unfold JS.step, JS.handle.
    destruct (js_handlePeerJoin_exec p now s) as (Hc & _ & _ & l & Hs & Hl).
    split.
    + unfold js_authenticated, js_state. rewrite Hc.
      destruct (decide (p = peer)) as [->|Hne].
      * by rewrite lookup_insert_eq.
      * by rewrite lookup_insert_ne.
    + rewrite Hs. unfold js_entries_for. rewrite List.filter_app.
      replace (List.filter (js_is_entry_for peer) l) with (@nil JS.Sent);
        [by rewrite app_nil_r|].
      symmetry. clear Hs. induction Hl as [|m l (a & b & c & ->) _ IH]; done.
  - (* onPeerLeave *)
    unfold JS.step, JS.handle, JS.handlePeerLeave, exec, modify. simpl.
    split; [|done]. unfold js_authenticated, js_state in *. simpl.
    destruct (decide (p = peer)) as [->|Hne].
    + by rewrite lookup_delete_eq.
    + by rewrite lookup_delete_ne.
  - done.
  - (* getResponse *)
    unfold JS.step, JS.handle, exec.
    destruct (js_response_cases s data p)
      as [-> | [(conn & Hc & Hst & Hv & Ht & ->) | (conn & ti & Hc & Hst & Hv & Ht & ->)]];
      simpl.
    + done.
    + split; [|done]. unfold js_authenticated, js_state in *. simpl.
      destruct (decide (p = peer)) as [->|Hne].
      * by rewrite lookup_insert_eq.
      * by rewrite lookup_insert_ne.
    + destruct (decide (p = peer)) as [->|Hne]; [rewrite Hev in Ht; done|].
      match goal with |- context [exec _ ?s1] => set (s1' := s1) end.
      pose proof (js_sendEntriesToPeer_frame p s1') as Hf.
      split.
      * unfold js_authenticated. rewrite (js_frame_state _ _ _ _ Hf).
        unfold js_authenticated, js_state in *. subst s1'. simpl.
        by rewrite lookup_insert_ne.
      * rewrite (js_frame_entries_for _ peer _ _ Hf); [done|].
        intros pk sk e [-> _]. done.
  - (* post_api_entries *)
    rewrite (proj1 (js_step_addEntry c now s)), js_addEntry_exec.
    match goal with |- context [exec _ ?s1] => set (s1' := s1) end.
    assert (Hin : js_new_entry s c now ∈ JS.entries s1').
    { subst s1'. simpl. apply elem_of_app. right. by left. }
    pose proof (js_broadcastEntry_frame (js_new_entry s c now) s1' Hin) as Hf.
    split.
    + unfold js_authenticated. by rewrite (js_frame_state _ _ _ _ Hf).
    + rewrite (js_frame_entries_for _ peer _ _ Hf); [done|].
      intros pk sk e Hb. by apply js_bound_authenticated in Hb.
  - (* ws_add_entry *)
    rewrite (proj2 (js_step_addEntry c now s)), js_addEntry_exec.
    match goal with |- context [exec _ ?s1] => set (s1' := s1) end.
    assert (Hin : js_new_entry s c now ∈ JS.entries s1').
    { subst s1'. simpl. apply elem_of_app. right. by left. }
    pose proof (js_broadcastEntry_frame (js_new_entry s c now) s1' Hin) as Hf.
    split.
    + unfold js_authenticated. by rewrite (js_frame_state _ _ _ _ Hf).
    + rewrite (js_frame_entries_for _ peer _ _ Hf); [done|].
      intros pk sk e Hb. by apply js_bound_authenticated in Hb.
  - done.
  - done.
Qed.

Lemma js_run_gate (evs : list JS.Event) (s : JS.Service) (peer : string) :
  ~ js_authenticated s peer ->
  js_responses_untrusted peer s evs ->
  ~ js_authenticated (JS.run s evs) peer
  /\ js_entries_for peer (JS.sent (JS.run s evs)) = js_entries_for peer (JS.sent s).
Proof.
  revert s. induction evs as [|ev evs IH]; intros s Hna Hun; [done|].
  destruct Hun as [Hev Hrest]. simpl.
  destruct (js_step_gate s ev peer Hna) as [Hna' Hs'].
  { destruct ev; try done. }
  destruct (IH _ Hna' Hrest) as [Hna'' Hs'']. split; [done|]. congruence.
Qed.

(** The challenge of a joining peer is the next 32 bytes of the random
    source, and a response to it is valid exactly when its signature of 64
    bytes verifies over those bytes under its key of 32 bytes. *)
Lemma js_join_challenge (peerId : string) (now : Z) (s : JS.Service)
    (data : JS.AuthData) :
  let s' := JS.step s (JS.onPeerJoin peerId now) in
  exists conn,
    JS.connections s' !! peerId = Some conn
    /\ JS.state conn = JS.challenging
    /\ decodeBase64 (JS.challenge conn) = Some (tape_read (JS.rng s) 32)
    /\ JS.rng s' = (JS.rng s + 32)%nat
    /\ js_signature_valid (JS.challenge conn) data =
       match decodeBase64 (JS.signature data),
             decodeBase64 (JS.data_publicKey data) with
       | Some sig, Some pk =>
           (length sig =? crypto_sign_BYTES)%nat
           && (length pk =? crypto_sign_PUBLICKEYBYTES)%nat
           && crypto_sign_verify (tape_read (JS.rng s) 32) sig pk
       | _, _ => false
       end.
Proof.
  intros s'. subst s'. unfold JS.step, JS.handle.
  destruct (js_handlePeerJoin_exec peerId now s) as (Hc & _).
  eexists. split; [by rewrite Hc, lookup_insert_eq|].
  cbn [JS.state JS.challenge]. split; [done|].
  split; [apply decodeBase64_encodeBase64|]. split.
  - unfold JS.handlePeerJoin, JS.randomBytes, JS.setConnection,
      JS.getPublicKeyString, JS.getBoxPublicKeyString, JS.getIdentity, JS.send.
    unfold exec, bind, gets, modify, ret, orThrow, throw. simpl.
    destruct (JS.identity s) as [i|] eqn:Hi; simpl; rewrite ?Hi; simpl; lia.
  - unfold js_signature_valid. rewrite decodeBase64_encodeBase64.
    by destruct (decodeBase64 (JS.signature data)),
                (decodeBase64 (JS.data_publicKey data)).
Qed.

End JsHandshake.

(** *** The untrusted state of the Node service *)

Section Final.
Context `{Primitives}.

(** In the Node service ['untrusted'] is final: until the peer leaves or
    joins again, no event changes the state of its connection. *)
Lemma js_untrusted_final (s : JS.Service) (ev : JS.Event) (peer : string) :
  js_state s peer = Some JS.untrusted ->
  (forall now, ev <> JS.onPeerJoin peer now) ->
  ev <> JS.onPeerLeave peer ->
  js_state (JS.step s ev) peer = Some JS.untrusted.
Proof.
  intros Hst Hj Hl. destruct ev as [p now|p|data p|data p|c now|c now|req now|key].
  - unfold JS.step, JS.handle.
    destruct (js_handlePeerJoin_exec p now s) as (Hc & _).
    unfold js_state in *. rewrite Hc, lookup_insert_ne; [done|].
    intros ->. by eapply Hj.
  - unfold JS.step, JS.handle, JS.handlePeerLeave, exec, modify, js_state in *.
    simpl. rewrite lookup_delete_ne; [done|]. intros ->. done.
  - done.
  - unfold JS.step, JS.handle, exec.
    destruct (js_response_cases s data p)
      as [-> | [(conn & Hc & Hcs & Hv & Ht & ->) | (conn & ti & Hc & Hcs & Hv & Ht & ->)]];
      cbn [snd]; [done| |].
    + unfold js_state in *. simpl.
      destruct (decide (p = peer)) as [->|Hne].
      * rewrite Hc in Hst. simpl in Hst. congruence.
      * by rewrite lookup_insert_ne.
    + match goal with |- context [exec _ ?s1] => set (s1' := s1) end.
      rewrite (js_frame_state _ peer _ _ (js_sendEntriesToPeer_frame p s1')).
      unfold js_state in *. subst s1'. simpl.
      destruct (decide (p = peer)) as [->|Hne].
      * rewrite Hc in Hst. simpl in Hst. congruence.
      * by rewrite lookup_insert_ne.
  - rewrite (proj1 (js_step_addEntry c now s)), js_addEntry_exec.
    match goal with |- context [exec (JS.broadcastEntry ?e) ?s1] =>
      rewrite (js_frame_state _ peer _ _ (js_broadcastEntry_frame e s1
        ltac:(simpl; apply elem_of_app; right; by left))) end.
    done.
  - rewrite (proj2 (js_step_addEntry c now s)), js_addEntry_exec.
    match goal with |- context [exec (JS.broadcastEntry ?e) ?s1] =>
      rewrite (js_frame_state _ peer _ _ (js_broadcastEntry_frame e s1
        ltac:(simpl; apply elem_of_app; right; by left))) end.
    done.
  - done.
  - done.
Qed.

(** So an untrusted session stays as it is, and nothing is prepared for
    it, whatever else happens while it lasts. *)
Lemma js_step_untrusted (s : JS.Service) (ev : JS.Event) (peer : string) :
  js_state s peer = Some JS.untrusted ->
  js_in_session peer ev ->
  js_state (JS.step s ev) peer = Some JS.untrusted
  /\ js_entries_for peer (JS.sent (JS.step s ev)) = js_entries_for peer (JS.sent s).
Proof.
  intros Hst Hev. split.
  - apply js_untrusted_final; [done| |].
    + intros now ->. by apply Hev.
    + intros ->. by apply Hev.
  - destruct ev as [p now|p|data p|data p|c now|c now|req now|key];
      try (apply js_step_gate;
           [unfold js_authenticated; rewrite Hst; congruence | done]).
    destruct (decide (p = peer)) as [->|Hne].
    + unfold JS.step, JS.handle, exec.
      rewrite js_response_ignored; [done|]. rewrite Hst. congruence.
    + apply js_step_gate; [|done].
      unfold js_authenticated. rewrite Hst. congruence.
Qed.

Lemma js_run_untrusted (evs : list JS.Event) (s : JS.Service) (peer : string) :
  js_state s peer = Some JS.untrusted ->
  Forall (js_in_session peer) evs ->
  js_state (JS.run s evs) peer = Some JS.untrusted
  /\ js_entries_for peer (JS.sent (JS.run s evs)) = js_entries_for peer (JS.sent s).
Proof.
  revert s. induction evs as [|ev evs IH]; intros s Hst Hevs; [done|].
  apply Forall_cons in Hevs as [Hev Hevs]. simpl.
  destruct (js_step_untrusted s ev peer Hst Hev) as [Hst' Hs'].
  destruct (IH _ Hst' Hevs) as [Hst'' Hs'']. split; [done|]. congruence.
Qed.

End Final.

(* ===================================================================== *)
(** ** The handshake and the sending of entries in the Go service *)
(* ===================================================================== *)

Section GoHandshake.
Context `{Primitives}.

Lemma go_frame_refl (P : string -> Prop) (s : Go.Service) : go_frame P s s.
Proof.
  split_and!; try done. exists []. split; [by rewrite app_nil_r | constructor].
Qed.

Lemma go_frame_trans (P : string -> Prop) (s1 s2 s3 : Go.Service) :
  go_frame P s1 s2 -> go_frame P s2 s3 -> go_frame P s1 s3.
Proof.
  intros (A1 & A2 & A3 & A4 & A5 & l1 & A9 & A10)
         (B1 & B2 & B3 & B4 & B5 & l2 & B9 & B10).
  split_and!; try congruence.
  exists (l1 ++ l2). split.
  - by rewrite B9, A9, app_assoc.
  - by apply Forall_app.
Qed.

Lemma go_frame_entries_for (P : string -> Prop) (peer : string)
    (s s' : Go.Service) :
  go_frame P s s' -> ~ P peer ->
  go_entries_for peer (Go.sent s') = go_entries_for peer (Go.sent s).
Proof.
  intros (_ & _ & _ & _ & _ & l & -> & Hl) HP.
  unfold go_entries_for. rewrite List.filter_app.
  replace (List.filter (go_is_entry_for peer) l) with (@nil (string * Go.Wire));
    [by rewrite app_nil_r|].
  symmetry. induction Hl as [|m l (p & e & -> & Hp) _ IH]; [done|].
  simpl. rewrite bool_decide_false by congruence. exact IH.
Qed.

Lemma go_with_sent_id (s : Go.Service) : Go.with_sent (Go.sent s ++ []) s = s.
Proof. destruct s. unfold Go.with_sent. simpl. by rewrite app_nil_r. Qed.

(** The loop of [sendEntriesToPeer] writes the entries in the order of the
    log. *)
Lemma go_send_all (peerID : string) (es : list DiaryEntry) (s : Go.Service) :
  forEach (fun entry => Go.SendText peerID (Go.entryMsg entry)) es s =
  (Return tt,
   Go.with_sent (Go.sent s ++ map (fun e => (peerID, Go.entryMsg e)) es) s).
Proof.
  revert s. induction es as [|e es IH]; intros s; simpl.
  - unfold ret. by rewrite go_with_sent_id.
  - unfold bind, Go.SendText, modify. rewrite IH. simpl.
    unfold Go.with_sent. simpl. by rewrite <- app_assoc.
Qed.

Lemma go_sendEntriesToPeer_eq (peerID : string) (s : Go.Service) :
  Go.sendEntriesToPeer peerID s =
  (Return tt,
   match Go.connections s !! peerID with
   | Some conn =>
       if bool_decide (peerID ∈ Go.dataChannels s) && Go.Authenticated conn
       then Go.with_sent
              (Go.sent s ++ map (fun e => (peerID, Go.entryMsg e)) (Go.entries s)) s
       else s
   | None => s
   end).
Proof.
  unfold Go.sendEntriesToPeer, bind, gets. simpl.
  destruct (Go.connections s !! peerID) as [conn|]; [|done].
  destruct (bool_decide _), (Go.Authenticated conn); simpl; try done.
  apply go_send_all.
Qed.

Lemma go_sendEntriesToPeer_frame (p : string) (s : Go.Service) :
  go_frame (fun q => q = p /\ go_flag s q) s (exec (Go.sendEntriesToPeer p) s).
Proof.
  unfold exec. rewrite go_sendEntriesToPeer_eq. simpl.
  destruct (Go.connections s !! p) as [conn|] eqn:Hc; [|apply go_frame_refl].
  destruct (bool_decide _); simpl; [|apply go_frame_refl].
  destruct (Go.Authenticated conn) eqn:Ha; [|apply go_frame_refl].
  split_and!; try done. eexists. split; [done|].
  apply Forall_forall. intros m Hm. apply list_elem_of_In, in_map_iff in Hm.
  destruct Hm as (e & <- & _). exists p, e. split; [done|]. split; [done|].
  by exists conn.
Qed.

Lemma go_broadcastEntry_frame (e : DiaryEntry) (s : Go.Service) :
  go_frame (go_flag s) s (exec (Go.broadcastEntry e) s).
Proof.
  unfold Go.broadcastEntry. rewrite exec_bind. unfold gets at 1.
  assert (Hin : forall kv, kv ∈ map_to_list (Go.connections s) ->
                           Go.connections s !! kv.1 = Some kv.2).
  { intros [q c] Hq. by apply elem_of_map_to_list in Hq. }
  revert Hin. generalize (map_to_list (Go.connections s)). intros conns Hin.
  apply (forEach_preserves (go_frame (go_flag s))).
  - apply go_frame_refl.
  - apply go_frame_trans.
  - intros [q c] s0 Hq. apply Hin in Hq. simpl in Hq.
    unfold Go.broadcastTo.
    destruct (Go.Authenticated c) eqn:Ha; [|apply go_frame_refl].
    rewrite exec_bind. unfold gets at 1.
    destruct (bool_decide _); [|apply go_frame_refl].
    unfold exec, Go.SendText, modify. simpl.
    split_and!; try done. eexists [_]. split; [done|].
    repeat constructor. exists q, e. split; [done|]. by exists c.
Qed.

(** The ways [handleAuthResponse] can go. *)
Lemma go_response_cases (s : Go.Service) (peerID : string) (msg : Go.Message) :
  Go.handleAuthResponse peerID msg s = (Return tt, s)
  \/ (Go.handleAuthResponse peerID msg s = (Throw, s) /\ go_key_sized msg = false)
  \/ (exists conn challenge,
        Go.connections s !! peerID = Some conn /\
        Go.Challenge conn = Some challenge /\
        go_signature_valid challenge msg = true /\
        Go.trustedUsers s !! Go.msg_publicKey msg = None /\
        Go.handleAuthResponse peerID msg s =
        (Return tt,
         Go.with_connections
           (<[peerID := go_classified "untrusted" conn (Go.conn_PublicKey conn)
                          (Go.Name conn) (Go.Authenticated conn)]>
              (Go.connections s)) s))
  \/ (exists conn challenge trusted,
        Go.connections s !! peerID = Some conn /\
        Go.Challenge conn = Some challenge /\
        go_signature_valid challenge msg = true /\
        Go.trustedUsers s !! Go.msg_publicKey msg = Some trusted /\
        Go.handleAuthResponse peerID msg s =
        (Return tt,
         exec (Go.sendEntriesToPeer peerID)
           (Go.with_connections
              (<[peerID := go_classified "authenticated" conn
                             (Go.msg_publicKey msg) (Go.user_Name trusted) true]>
                 (Go.connections s)) s))).
Proof.
  unfold Go.handleAuthResponse, bind, gets. simpl.
  destruct (Go.connections s !! peerID) as [conn|] eqn:Hc; [|by left].
  destruct (Go.Challenge conn) as [challenge|] eqn:Hch; [|by left].
  unfold Go.ed25519_Verify.
  destruct (length (Go.DecodeString_ (Go.msg_publicKey msg)) =? 32)%nat eqn:Hpk;
    simpl; [|right; left; done].
  destruct (length (Go.DecodeString_ (Go.msg_signature msg)) =? 64)%nat eqn:Hsig;
    simpl; [|by left].
  unfold ret.
  destruct (crypto_sign_verify _ _ _) eqn:Hv; simpl; [|by left].
  destruct (Go.trustedUsers s !! Go.msg_publicKey msg) as [trusted|] eqn:Ht.
  - right. right. right. exists conn, challenge, trusted.
    split_and!; try done.
    + unfold go_signature_valid, go_key_sized. by rewrite Hpk, Hsig, Hv.
    + unfold Go.setConnection, modify, exec, go_classified. simpl. rewrite Hch.
      by rewrite go_sendEntriesToPeer_eq.
  - right. right. left. exists conn, challenge.
    split_and!; try done.
    + unfold go_signature_valid, go_key_sized. by rewrite Hpk, Hsig, Hv.
    + unfold Go.setConnection, modify, go_classified. simpl. by rewrite Hch.
Qed.

Lemma go_not_auth_insert (s s' : Go.Service) (p peer : string) (c : Go.Connection) :
  Go.connections s' = <[p := c]> (Go.connections s) ->
  ~ go_authenticated s peer ->
  (p = peer -> Go.Authenticated c = false /\ Go.State c <> "authenticated"%string) ->
  ~ go_authenticated s' peer.
Proof.
  intros Hc Hna Hp (conn & Hl & Hor). rewrite Hc in Hl.
  destruct (decide (p = peer)) as [->|Hne].
  - rewrite lookup_insert_eq in Hl. simplify_eq.
    destruct (Hp eq_refl) as [Ha Hs]. destruct Hor; congruence.
  - rewrite lookup_insert_ne in Hl by done. apply Hna. by exists conn.
Qed.

Lemma go_not_auth_same (s s' : Go.Service) (peer : string) :
  Go.connections s' = Go.connections s ->
  ~ go_authenticated s peer -> ~ go_authenticated s' peer.
Proof. intros Hc Hna (conn & Hl & Hor). rewrite Hc in Hl. apply Hna. by exists conn. Qed.

Lemma go_not_auth_conn (s : Go.Service) (peer : string) (conn : Go.Connection) :
  ~ go_authenticated s peer -> Go.connections s !! peer = Some conn ->
  Go.Authenticated conn = false /\ Go.State conn <> "authenticated"%string.
Proof.
  intros Hna Hc. split.
  - destruct (Go.Authenticated conn) eqn:Ha; [|done].
    exfalso. apply Hna. exists conn. auto.
  - intros Hs. apply Hna. exists conn. auto.
Qed.

Lemma go_flag_authenticated (s : Go.Service) (p : string) :
  go_flag s p -> go_authenticated s p.
Proof. intros (conn & Hc & Ha). exists conn. auto. Qed.

(** One event never authenticates a peer whose response names an
    untrusted key, nor writes an entry to a peer that is not
    authenticated. *)
Lemma go_step_gate (s : Go.Service) (ev : Go.Event) (peer : string) :
  ~ go_authenticated s peer ->
  match ev with
  | Go.OnMessage p (Some msg) =>
      p = peer -> Go.msg_type msg = "response"%string ->
      Go.trustedUsers s !! Go.msg_publicKey msg = None
  | _ => True
  end ->
  ~ go_authenticated (Go.step s ev) peer
  /\ go_entries_for peer (Go.sent (Go.step s ev)) = go_entries_for peer (Go.sent s).
Proof.
  intros Hna Hev.
  destruct ev as [p|p|p|p data|p|p|c now|user now|key]; unfold Go.step, Go.handle.
  - (* WebSocketConnected *)
    unfold Go.wsConnected, Go.setConnection, exec, modify. simpl. split; [|done].
    eapply go_not_auth_insert; [done|done|]. intros _. by simpl.
  - (* OnDataChannel *)
    unfold Go.onDataChannel, Go.getConnection, Go.setConnection.
    unfold exec, bind, gets, modify, orThrow, ret, throw. simpl.
    destruct (Go.connections s !! p) as [conn|] eqn:Hc; simpl; (split; [|done]).
    + eapply go_not_auth_insert; [done|done|]. intros ->. simpl.
      split; [|done]. by apply (go_not_auth_conn s peer conn).
    + by eapply go_not_auth_same.
  - (* OnOpen *)
    unfold Go.sendAuthChallenge, Go.rand_Read, Go.getConnection, Go.setConnection,
      Go.getIdentity, Go.SendText.
    unfold exec, bind, gets, modify, orThrow, ret, throw. simpl.
    destruct (Go.connections s !! p) as [conn|] eqn:Hc; simpl.
    2:{ split; [|done]. by eapply go_not_auth_same. }
    assert (Hins : forall s', Go.connections s' =
                     <[p := Go.mkConnection (Go.ID conn) (Go.State conn)
                              (Go.conn_PublicKey conn) (Go.Name conn)
                              (Some (tape_read (Go.rng s) 32))
                              (Go.Authenticated conn)]> (Go.connections s) ->
                   ~ go_authenticated s' peer).
    { intros s' Hs'. eapply go_not_auth_insert; [exact Hs'|done|].
      intros ->. simpl. by apply (go_not_auth_conn s peer conn). }
    destruct (Go.identity s) as [i|]; simpl; (split; [by apply Hins|]); [|done].
    unfold go_entries_for. rewrite List.filter_app. simpl. by rewrite app_nil_r.
  - (* OnMessage *)
    unfold Go.handleDataChannelMessage.
    destruct data as [msg|]; [|done].
    destruct (String.eqb (Go.msg_type msg) "response") eqn:Hty.
    + apply String.eqb_eq in Hty. unfold exec.
      destruct (go_response_cases s p msg)
        as [-> | [[-> _] | [(conn & ch & Hc & Hch & Hv & Ht & ->)
                           | (conn & ch & tr & Hc & Hch & Hv & Ht & ->)]]]; simpl.
      * done.
      * done.
      * split; [|done]. eapply go_not_auth_insert; [done|done|]. intros ->.
        simpl. split; [|done]. by apply (go_not_auth_conn s peer conn).
      * destruct (decide (p = peer)) as [->|Hne]; [rewrite Hev in Ht; done|].
        match goal with |- context [exec _ ?s1] => set (s1' := s1) end.
        pose proof (go_sendEntriesToPeer_frame p s1') as Hf.
        assert (Hna1 : ~ go_authenticated s1' peer).
        { intros (c' & Hl & Hor). subst s1'. simpl in Hl.
          rewrite lookup_insert_ne in Hl by done. apply Hna. by exists c'. }
        split.
        -- eapply go_not_auth_same; [|exact Hna1]. apply Hf.
        -- rewrite (go_frame_entries_for _ peer _ _ Hf); [done|].
           intros [-> _]. done.
    + destruct (String.eqb (Go.msg_type msg) "request"); [|done].
      unfold Go.handleEntryRequest, exec, bind, gets. simpl.
      destruct (Go.connections s !! p) as [conn|] eqn:Hc; [|done].
      destruct (Go.Authenticated conn) eqn:Ha; simpl; [|done].
      pose proof (go_sendEntriesToPeer_frame p s) as Hf. unfold exec in Hf.
      split.
      * eapply go_not_auth_same; [|exact Hna]. apply Hf.
      * rewrite (go_frame_entries_for _ peer _ _ Hf); [done|].
        intros [-> Hfl]. by apply Hna, go_flag_authenticated.
  - (* OnClose *)
    unfold Go.onClose, Go.getConnection, Go.setConnection.
    unfold exec, bind, gets, modify, orThrow, ret, throw. simpl.
    destruct (Go.connections s !! p) as [conn|] eqn:Hc; simpl; (split; [|done]).
    + eapply go_not_auth_insert; [done|done|]. intros ->. simpl.
      split; [|done]. by apply (go_not_auth_conn s peer conn).
    + by eapply go_not_auth_same.
  - (* WebSocketClosed *)
    unfold Go.wsClosed, exec, bind, modify. simpl. split; [|done].
    intros (conn & Hl & Hor). simpl in Hl.
    apply lookup_delete_Some in Hl as [_ Hl]. apply Hna. by exists conn.
  - (* POST_api_entries *)
    assert (He : exec (Go.handleAddEntry c now ;;; ret tt) s =
                 exec (Go.broadcastEntry (go_new_entry s c now))
                   (Go.with_entries_json
                      (Some (Go.Entries (Go.entries s ++ [go_new_entry s c now])))
                      (Go.with_entries (Go.entries s ++ [go_new_entry s c now]) s))).
    { unfold Go.handleAddEntry, Go.saveEntries, go_new_entry.
      unfold exec, bind, gets, modify, ret. simpl.
      by destruct (Go.broadcastEntry _ _) as [[[]|] s']. }
    rewrite He.
    match goal with |- context [exec _ ?s1] => set (s1' := s1) end.
    pose proof (go_broadcastEntry_frame (go_new_entry s c now) s1') as Hf.
    split.
    + eapply go_not_auth_same; [apply Hf|]. by eapply go_not_auth_same.
    + rewrite (go_frame_entries_for _ peer _ _ Hf); [done|].
      intros Hfl. apply go_flag_authenticated in Hfl. revert Hfl.
      by eapply go_not_auth_same.
  - done.
  - done.
Qed.

Lemma go_run_gate (evs : list Go.Event) (s : Go.Service) (peer : string) :
  ~ go_authenticated s peer ->
  go_responses_untrusted peer s evs ->
  ~ go_authenticated (Go.run s evs) peer
  /\ go_entries_for peer (Go.sent (Go.run s evs)) = go_entries_for peer (Go.sent s).
Proof.
  revert s. induction evs as [|ev evs IH]; intros s Hna Hun; [done|].
  destruct Hun as [Hev Hrest]. simpl.
  destruct (go_step_gate s ev peer Hna) as [Hna' Hs'].
  { destruct ev as [| | |p [msg|]| | | | |]; done. }
  destruct (IH _ Hna' Hrest) as [Hna'' Hs'']. split; [done|]. congruence.
Qed.

End GoHandshake.

Section GoResponses.
Context `{Primitives}.

Lemma go_verify_valid (s : Go.Service) (challenge : list byte) (msg : Go.Message) :
  go_signature_valid challenge msg = true ->
  Go.ed25519_Verify (Go.DecodeString_ (Go.msg_publicKey msg)) challenge
    (Go.DecodeString_ (Go.msg_signature msg)) s = (Return true, s).
Proof.
  unfold go_signature_valid, go_key_sized, Go.ed25519_Verify. intros Hv.
  apply andb_true_iff in Hv as [Hv Hver]. apply andb_true_iff in Hv as [Hp Hs].
  by rewrite Hp, Hs, Hver.
Qed.

Lemma go_response_invalid (s : Go.Service) (peerID : string) (msg : Go.Message)
    (conn : Go.Connection) (challenge : list byte) :
  Go.connections s !! peerID = Some conn ->
  Go.Challenge conn = Some challenge ->
  go_key_sized msg = true ->
  go_signature_valid challenge msg = false ->
  Go.handleAuthResponse peerID msg s = (Return tt, s).
Proof.
  intros Hc Hch Hk Hv. unfold Go.handleAuthResponse, bind, gets. simpl.
  rewrite Hc, Hch. unfold go_signature_valid in Hv. rewrite Hk in Hv.
  unfold go_key_sized in Hk. unfold Go.ed25519_Verify. rewrite Hk. simpl in *.
  destruct (length _ =? 64)%nat; simpl in *; [|done].
  unfold ret. by rewrite Hv.
Qed.

Lemma go_response_untrusted (s : Go.Service) (peerID : string) (msg : Go.Message)
    (conn : Go.Connection) (challenge : list byte) :
  Go.connections s !! peerID = Some conn ->
  Go.Challenge conn = Some challenge ->
  go_signature_valid challenge msg = true ->
  Go.trustedUsers s !! Go.msg_publicKey msg = None ->
  Go.handleAuthResponse peerID msg s =
  (Return tt,
   Go.with_connections
     (<[peerID := go_classified "untrusted" conn (Go.conn_PublicKey conn)
                    (Go.Name conn) (Go.Authenticated conn)]>
        (Go.connections s)) s).
Proof.
  intros Hc Hch Hv Ht. unfold Go.handleAuthResponse, bind, gets. simpl.
  rewrite Hc, Hch, (go_verify_valid s challenge msg Hv). simpl. rewrite Ht.
  unfold Go.setConnection, modify, go_classified. by rewrite Hch.
Qed.

Lemma go_response_trusted (s : Go.Service) (peerID : string) (msg : Go.Message)
    (conn : Go.Connection) (challenge : list byte) (trusted : Go.TrustedUser) :
  Go.connections s !! peerID = Some conn ->
  Go.Challenge conn = Some challenge ->
  go_signature_valid challenge msg = true ->
  Go.trustedUsers s !! Go.msg_publicKey msg = Some trusted ->
  Go.handleAuthResponse peerID msg s =
  (Return tt,
   exec (Go.sendEntriesToPeer peerID)
     (Go.with_connections
        (<[peerID := go_classified "authenticated" conn (Go.msg_publicKey msg)
                       (Go.user_Name trusted) true]>
           (Go.connections s)) s)).
Proof.
  intros Hc Hch Hv Ht. unfold Go.handleAuthResponse, bind, gets. simpl.
  rewrite Hc, Hch, (go_verify_valid s challenge msg Hv). simpl. rewrite Ht.
  unfold Go.setConnection, modify, go_classified, exec. simpl. rewrite Hch.
  by rewrite go_sendEntriesToPeer_eq.
Qed.

Lemma go_step_response (s : Go.Service) (peerID : string) (msg : Go.Message) :
  Go.msg_type msg = "response"%string ->
  Go.step s (Go.OnMessage peerID (Some msg)) = exec (Go.handleAuthResponse peerID msg) s.
Proof.
  intros Hty. unfold Go.step, Go.handle, Go.handleDataChannelMessage.
  by rewrite Hty.
Qed.

End GoResponses.

(* ===================================================================== *)
(** ** Sealed entries in the Node service *)
(* ===================================================================== *)

Section Sealing.
Context `{Primitives}.

Lemma js_nonce_length (cursor : nat) : length (js_nonce cursor) = nonceLength.
Proof. apply tape_read_length. Qed.

Lemma js_bound_frame B (s s' : JS.Service) (p : string) (pk sk : list byte)
    (e : DiaryEntry) :
  js_frame B s s' -> js_bound s p pk sk e -> js_bound s' p pk sk e.
Proof.
  intros (Hc & Ht & He & Hi & _) (conn & k & ti & b & i & Hb).
  exists conn, k, ti, b, i. rewrite Hc, Ht, He, Hi. exact Hb.
Qed.

(** Whatever reaches the Node service, the entry messages it sends in
    response are sealed for bound recipients under nonces read from
    successive windows of the entropy tape. *)
Lemma js_step_fresh (s : JS.Service) (ev : JS.Event) :
  exists l, JS.sent (JS.step s ev) = JS.sent s ++ l
            /\ js_fresh_seq (js_bound (JS.step s ev)) (JS.rng s) l
                 (JS.rng (JS.step s ev)).
Proof.
  assert (Hnil : forall s', JS.sent s' = JS.sent s -> JS.rng s' = JS.rng s ->
                 exists l, JS.sent s' = JS.sent s ++ l
                           /\ js_fresh_seq (js_bound s') (JS.rng s) l (JS.rng s')).
  { intros s' Hs Hr. exists []. rewrite app_nil_r, Hr. split; [done|by constructor]. }
  assert (Hframe : forall B s1,
             JS.sent s1 = JS.sent s -> JS.rng s1 = JS.rng s ->
             (forall p pk sk e, B p pk sk e -> js_bound s1 p pk sk e) ->
             forall s', js_frame B s1 s' ->
             exists l, JS.sent s' = JS.sent s ++ l
                       /\ js_fresh_seq (js_bound s') (JS.rng s) l (JS.rng s')).
  { intros B s1 Hs Hr HB s' Hf.
    pose proof Hf as (_ & _ & _ & _ & _ & _ & _ & l & Hl & Hfresh).
    exists l. rewrite Hl, Hs, <- Hr. split; [done|].
    eapply js_fresh_seq_mono; [|exact Hfresh].
    intros p pk sk e Hb. eapply js_bound_frame; [exact Hf|]. by apply HB. }
  destruct ev as [p now|p|data p|data p|c now|c now|req now|key].
  - (* onPeerJoin *)
    unfold JS.step, JS.handle, JS.handlePeerJoin, JS.randomBytes, JS.setConnection,
      JS.getPublicKeyString, JS.getBoxPublicKeyString, JS.getIdentity, JS.send.
    unfold exec, bind, gets, modify, ret, orThrow, throw. simpl.
    destruct (JS.identity s) as [i|] eqn:Hi; simpl; rewrite ?Hi; simpl.
    + eexists [_]. split; [done|]. constructor. constructor. lia.
    + exists []. rewrite app_nil_r. split; [done|]. constructor. lia.
  - by apply Hnil.
  - by apply Hnil.
  - (* getResponse *)
    unfold JS.step, JS.handle, exec.
    destruct (js_response_cases s data p)
      as [-> | [(conn & Hc & Hst & Hv & Ht & ->) | (conn & ti & Hc & Hst & Hv & Ht & ->)]];
      cbn [snd]; [by apply Hnil .. |].
    eapply Hframe; [| | |apply js_sendEntriesToPeer_frame]; try done.
    by intros q pk sk e [_ Hb].
  - (* post_api_entries *)
    rewrite (proj1 (js_step_addEntry c now s)), js_addEntry_exec.
    eapply Hframe; [| | |apply js_broadcastEntry_frame]; try done.
    simpl. apply elem_of_app. right. by left.
  - (* ws_add_entry *)
    rewrite (proj2 (js_step_addEntry c now s)), js_addEntry_exec.
    eapply Hframe; [| | |apply js_broadcastEntry_frame]; try done.
    simpl. apply elem_of_app. right. by left.
  - by apply Hnil.
  - by apply Hnil.
Qed.

Lemma js_with_sent_rng_id (s : JS.Service) :
  JS.with_sent (JS.sent s ++ []) (JS.with_rng (JS.rng s + 0) s) = s.
Proof.
  destruct s. unfold JS.with_sent, JS.with_rng. simpl.
  by rewrite app_nil_r, Nat.add_0_r.
Qed.

Lemma js_sendEncrypted_ok (p k : string) (pk : list byte) (e : DiaryEntry)
    (s : JS.Service) (i : JS.Identity) :
  JS.identity s = Some i ->
  decodeBase64 k = Some pk ->
  length pk = crypto_box_PUBLICKEYBYTES ->
  length (JS.secretKey (JS.boxKeyPair i)) = crypto_box_SECRETKEYBYTES ->
  JS.sendEncrypted p (Some k) e s =
  (Return tt,
   JS.with_sent
     (JS.sent s ++ [js_sealed p pk (JS.secretKey (JS.boxKeyPair i)) (JS.rng s) e])
     (JS.with_rng (JS.rng s + nonceLength) s)).
Proof.
  intros Hi Hk Hpk Hsk. unfold JS.sendEncrypted, bind.
  rewrite js_encryptForPeer_eq. simpl. rewrite Hk, Hi, Hpk, Hsk. simpl.
  done.
Qed.

(** The loop of [sendEntriesToPeer] seals the entries in the order of the
    log, the [j]-th under the nonce of the [j]-th window. *)
Lemma js_seal_all (p k : string) (pk : list byte) (i : JS.Identity)
    (es : list DiaryEntry) (s : JS.Service) :
  JS.identity s = Some i ->
  decodeBase64 k = Some pk ->
  length pk = crypto_box_PUBLICKEYBYTES ->
  length (JS.secretKey (JS.boxKeyPair i)) = crypto_box_SECRETKEYBYTES ->
  forEach (JS.sendEncrypted p (Some k)) es s =
  (Return tt,
   JS.with_sent
     (JS.sent s ++
      imap (fun j e => js_sealed p pk (JS.secretKey (JS.boxKeyPair i))
                         (JS.rng s + nonceLength * j) e) es)
     (JS.with_rng (JS.rng s + nonceLength * length es) s)).
Proof.
  intros Hi Hk Hpk Hsk. revert s Hi.
  induction es as [|e es IH]; intros s Hi.
  - cbn [forEach imap length]. unfold ret. rewrite Nat.mul_0_r.
    by rewrite js_with_sent_rng_id.
  - cbn [forEach]. unfold bind at 1.
    rewrite (js_sendEncrypted_ok p k pk e s i) by done.
    rewrite IH by done. f_equal.
    unfold JS.with_sent, JS.with_rng. cbn [JS.sent JS.rng JS.roomSalt JS.identity
      JS.trustedKeys JS.entries JS.connections JS.roomId JS.identity_json
      JS.entries_json length].
    rewrite imap_cons, <- app_assoc. cbn [app].
    f_equal; [|unfold nonceLength; lia].
    f_equal. f_equal.
    + by rewrite Nat.mul_0_r, Nat.add_0_r.
    + apply imap_ext. intros j x _. simpl. f_equal. unfold nonceLength. lia.
Qed.

Lemma js_dump_eq (s : JS.Service) (p k b : string) (conn : JS.Conn)
    (ti : JS.TrustedInfo) (pk : list byte) (i : JS.Identity) :
  JS.connections s !! p = Some conn ->
  JS.state conn = JS.authenticated ->
  JS.conn_publicKey conn = Some k ->
  JS.trustedKeys s !! k = Some ti ->
  JS.boxPublicKey ti = Some b ->
  decodeBase64 b = Some pk ->
  length pk = crypto_box_PUBLICKEYBYTES ->
  JS.identity s = Some i ->
  length (JS.secretKey (JS.boxKeyPair i)) = crypto_box_SECRETKEYBYTES ->
  JS.sendEntriesToPeer p s =
  (Return tt,
   JS.with_sent
     (JS.sent s ++
      imap (fun j e => js_sealed p pk (JS.secretKey (JS.boxKeyPair i))
                         (JS.rng s + nonceLength * j) e) (JS.entries s))
     (JS.with_rng (JS.rng s + nonceLength * length (JS.entries s)) s)).
Proof.
  intros Hc Hst Hk Ht Hb Hd Hpk Hi Hsk.
  unfold JS.sendEntriesToPeer, bind, gets. rewrite Hc, Hst, Hk. simpl.
  rewrite Ht, Hb. by apply js_seal_all.
Qed.

End Sealing.

(** *** What reaches the peers of the room *)

Section Delivery.
Context `{Primitives}.

Lemma js_calls_eq (s : JS.Service) (ev : JS.Event) :
  JS.sent (JS.step s ev) = JS.sent s ++ js_calls s ev.
Proof.
  destruct (js_step_fresh s ev) as (l & Hl & _).
  unfold js_calls. by rewrite Hl, drop_app_length.
Qed.

Lemma js_run_grows (s : JS.Service) (evs : list JS.Event) :
  exists l, JS.sent (JS.run s evs) = JS.sent s ++ l.
Proof.
  revert s. induction evs as [|ev evs IH]; intros s.
  - exists []. by rewrite app_nil_r.
  - destruct (IH (JS.step s ev)) as [l Hl]. exists (js_calls s ev ++ l).
    change (JS.run s (ev :: evs)) with (JS.run (JS.step s ev) evs).
    by rewrite Hl, js_calls_eq, app_assoc.
Qed.

(** A peer stays in the room until it leaves. *)
Lemma js_step_in_room (s : JS.Service) (ev : JS.Event) (peer : string) :
  is_Some (JS.connections s !! peer) ->
  js_in_session peer ev ->
  is_Some (JS.connections (JS.step s ev) !! peer).
Proof.
  intros Hin Hev. destruct ev as [p now|p|data p|data p|c now|c now|req now|key].
  - unfold JS.step, JS.handle.
    destruct (js_handlePeerJoin_exec p now s) as (Hc & _).
    rewrite Hc. by apply lookup_insert_is_Some'; right.
  - unfold JS.step, JS.handle, JS.handlePeerLeave, exec, modify. simpl.
    rewrite lookup_delete_ne; [done|]. intros ->. by apply Hev.
  - done.
  - unfold JS.step, JS.handle, exec.
    destruct (js_response_cases s data p)
      as [-> | [(conn & Hc & Hcs & Hv & Ht & ->) | (conn & ti & Hc & Hcs & Hv & Ht & ->)]];
      cbn [snd]; [done| |].
    + simpl. by apply lookup_insert_is_Some'; right.
    + match goal with |- context [exec _ ?s1] => set (s1' := s1) end.
      destruct (js_sendEntriesToPeer_frame p s1') as (-> & _).
      subst s1'. simpl. by apply lookup_insert_is_Some'; right.
  - rewrite (proj1 (js_step_addEntry c now s)), js_addEntry_exec.
    match goal with |- context [exec (JS.broadcastEntry ?e) ?s1] =>
      destruct (js_broadcastEntry_frame e s1
        ltac:(simpl; apply elem_of_app; right; by left)) as (-> & _) end.
    done.
  - rewrite (proj2 (js_step_addEntry c now s)), js_addEntry_exec.
    match goal with |- context [exec (JS.broadcastEntry ?e) ?s1] =>
      destruct (js_broadcastEntry_frame e s1
        ltac:(simpl; apply elem_of_app; right; by left)) as (-> & _) end.
    done.
  - done.
  - done.
Qed.

(** Every call on the room reaches every peer that is in the room. *)
Lemma js_delivered_all (peer : string) (s : JS.Service) (evs : list JS.Event) :
  is_Some (JS.connections s !! peer) ->
  Forall (js_in_session peer) evs ->
  js_delivered peer s evs = drop (length (JS.sent s)) (JS.sent (JS.run s evs)).
Proof.
  revert s. induction evs as [|ev evs IH]; intros s Hin Hevs.
  - cbn [js_delivered]. change (JS.run s []) with s. by rewrite drop_all.
  - apply Forall_cons in Hevs as [Hev Hevs].
    pose proof (js_step_in_room s ev peer Hin Hev) as Hin'.
    cbn [js_delivered].
    change (JS.run s (ev :: evs)) with (JS.run (JS.step s ev) evs).
    rewrite (bool_decide_eq_true_2 _ Hin'), (IH _ Hin' Hevs).
    destruct (js_run_grows (JS.step s ev) evs) as [l Hl].
    rewrite Hl, drop_app_length.
    by rewrite js_calls_eq, <- app_assoc, drop_app_length.
Qed.

(** The calls of a step are challenges and entry messages sealed for the
    box key bound to a peer that is authenticated when the step ends. *)
Lemma js_fresh_seq_sealed B (lo hi : nat) (l : list JS.Sent) :
  js_fresh_seq B lo l hi ->
  Forall (fun m => (exists a b c, m = JS.sendChallenge a b c)
                   \/ (exists q pk sk cursor e,
                          m = js_sealed q pk sk cursor e /\ B q pk sk e)) l.
Proof.
  induction 1 as [| |lo hi cursor p pk sk e l Hlo Hb _ IH]; constructor; try done.
  - left. by eexists _, _, _.
  - right. by exists p, pk, sk, cursor, e.
Qed.

Lemma js_calls_sealed (s : JS.Service) (ev : JS.Event) :
  Forall (fun m => (exists a b c, m = JS.sendChallenge a b c)
                   \/ (exists q pk sk cursor e,
                          m = js_sealed q pk sk cursor e
                          /\ js_bound (JS.step s ev) q pk sk e))
    (js_calls s ev).
Proof.
  destruct (js_step_fresh s ev) as (l & Hl & Hf).
  unfold js_calls. rewrite Hl, drop_app_length.
  by apply (js_fresh_seq_sealed _ _ _ _ Hf).
Qed.

End Delivery.

(* ===================================================================== *)
(** ** The authentication handshake *)
(* ===================================================================== *)

(** C10. In the Node service, a response that reaches a connection whose
    state is not ['challenging'] (already ['authenticated'] or
    ['untrusted']) changes nothing: the handler returns at once, and the
    connection keeps its state, public key, name and permissions. *)
Theorem C10_response_outside_challenging `{Primitives} (s : JS.Service)
    (peerId : string) (conn : JS.Conn) (data : JS.AuthData) :
  JS.connections s !! peerId = Some conn ->
  JS.state conn <> JS.challenging ->
  JS.handleAuthResponse data peerId s = (Return tt, s)
  /\ JS.connections (JS.step s (JS.getResponse data peerId)) !! peerId = Some conn.
Proof.
  intros Hc Hst.
  assert (Hi : JS.handleAuthResponse data peerId s = (Return tt, s)).
  { apply js_response_ignored. unfold js_state. rewrite Hc. simpl. congruence. }
  split; [exact Hi|]. unfold JS.step, JS.handle, exec. by rewrite Hi.
Qed.

Lemma C10_witness :
  JS.connections Demo.js_served !! "peer-1"%string = Some Demo.served_conn
  /\ JS.state Demo.served_conn <> JS.challenging
  /\ JS.connections
       (JS.step (H := Demo.primitives) Demo.js_served
          (JS.getResponse Demo.untrusted_response "peer-1"))
       !! "peer-1"%string = Some Demo.served_conn.
Proof.
  assert (H1 : JS.connections Demo.js_served !! "peer-1"%string
               = Some Demo.served_conn) by (vm_compute; reflexivity).
  assert (H2 : JS.state Demo.served_conn <> JS.challenging) by discriminate.
  split; [exact H1|]. split; [exact H2|].
  exact (proj2 (C10_response_outside_challenging (H := Demo.primitives)
                  Demo.js_served "peer-1" Demo.served_conn
                  Demo.untrusted_response H1 H2)).
Defined.

(** C9. When authentication fails, nothing is sent. In the Node service a
    response whose signature does not verify over the challenge, or whose
    verified key is not in [trustedKeys], leaves the calls made on the
    room as they were. In the Go service a [response] message whose
    signature does not verify, or whose key is not in [trustedUsers],
    writes nothing on any data channel. *)
Theorem C9_no_message_on_auth_failure `{Primitives} :
  (forall (s : JS.Service) (peerId : string) (conn : JS.Conn) (data : JS.AuthData),
      JS.connections s !! peerId = Some conn ->
      js_signature_valid (JS.challenge conn) data = false
      \/ JS.trustedKeys s !! JS.data_publicKey data = None ->
      JS.sent (JS.step s (JS.getResponse data peerId)) = JS.sent s)
  /\ (forall (s : Go.Service) (peerID : string) (conn : Go.Connection)
        (challenge : list byte) (msg : Go.Message),
      Go.connections s !! peerID = Some conn ->
      Go.Challenge conn = Some challenge ->
      Go.msg_type msg = "response"%string ->
      go_signature_valid challenge msg = false
      \/ Go.trustedUsers s !! Go.msg_publicKey msg = None ->
      Go.sent (Go.step s (Go.OnMessage peerID (Some msg))) = Go.sent s).
Proof.
  split.
  - intros s peerId conn data Hc Hfail. unfold JS.step, JS.handle, exec.
    destruct (js_response_cases s data peerId)
      as [-> | [(c & Hc' & Hst & Hv & Ht & ->) | (c & ti & Hc' & Hst & Hv & Ht & ->)]];
      simpl; try done.
    simplify_eq. destruct Hfail; congruence.
  - intros s peerID conn challenge msg Hc Hch Hty Hfail.
    unfold Go.step, Go.handle, Go.handleDataChannelMessage, exec.
    rewrite Hty. simpl.
    destruct (go_response_cases s peerID msg)
      as [-> | [[-> _] | [(c & ch & Hc' & Hch' & Hv & Ht & ->)
                         | (c & ch & tr & Hc' & Hch' & Hv & Ht & ->)]]];
      simpl; try done.
    simplify_eq. destruct Hfail; congruence.
Qed.

Lemma C9_witness :
  (JS.connections Demo.js_joined !! "peer-1"%string = Some Demo.joined_conn
   /\ (js_signature_valid (H := Demo.primitives)
         (JS.challenge Demo.joined_conn) Demo.stale_response = false
       \/ JS.trustedKeys Demo.js_joined
            !! JS.data_publicKey Demo.stale_response = None)
   /\ JS.sent (JS.step (H := Demo.primitives) Demo.js_joined
                 (JS.getResponse Demo.stale_response "peer-1"))
      = JS.sent Demo.js_joined)
  /\ (Go.connections Demo.go_joined !! Demo.go_peer = Some Demo.go_joined_conn
      /\ Go.Challenge Demo.go_joined_conn = Some Demo.go_challenge
      /\ Go.msg_type Demo.go_stale_response = "response"%string
      /\ (go_signature_valid (H := Demo.primitives) Demo.go_challenge
            Demo.go_stale_response = false
          \/ Go.trustedUsers Demo.go_joined
               !! Go.msg_publicKey Demo.go_stale_response = None)
      /\ Go.sent (Go.step (H := Demo.primitives) Demo.go_joined
                    (Go.OnMessage Demo.go_peer (Some Demo.go_stale_response)))
         = Go.sent Demo.go_joined).
Proof.
  split.
  - assert (H1 : JS.connections Demo.js_joined !! "peer-1"%string
                 = Some Demo.joined_conn) by (vm_compute; reflexivity).
    assert (H2 : js_signature_valid (H := Demo.primitives)
                   (JS.challenge Demo.joined_conn) Demo.stale_response = false
                 \/ JS.trustedKeys Demo.js_joined
                      !! JS.data_publicKey Demo.stale_response = None)
      by (left; vm_compute; reflexivity).
    split; [exact H1|]. split; [exact H2|].
    exact (proj1 (C9_no_message_on_auth_failure (H := Demo.primitives))
             Demo.js_joined "peer-1" Demo.joined_conn Demo.stale_response H1 H2).
  - assert (G1 : Go.connections Demo.go_joined !! Demo.go_peer
                 = Some Demo.go_joined_conn) by (vm_compute; reflexivity).
    assert (G2 : Go.Challenge Demo.go_joined_conn = Some Demo.go_challenge)
      by reflexivity.
    assert (G3 : Go.msg_type Demo.go_stale_response = "response"%string)
      by reflexivity.
    assert (G4 : go_signature_valid (H := Demo.primitives) Demo.go_challenge
                   Demo.go_stale_response = false
                 \/ Go.trustedUsers Demo.go_joined
                      !! Go.msg_publicKey Demo.go_stale_response = None)
      by (left; vm_compute; reflexivity).
    split; [exact G1|]. split; [exact G2|]. split; [exact G3|]. split; [exact G4|].
    exact (proj2 (C9_no_message_on_auth_failure (H := Demo.primitives))
             Demo.go_joined Demo.go_peer Demo.go_joined_conn Demo.go_challenge
             Demo.go_stale_response G1 G2 G3 G4).
Defined.

(** C1, as the code has it. A response with an invalid signature leaves a
    challenging session exactly as it was, in both services: the state and
    the outstanding challenge stay, nothing is sent. A later response that
    carries a valid signature over that same challenge under a trusted key
    is accepted: the session becomes authenticated. *)
Theorem C1_invalid_response_keeps_challenge `{Primitives} :
  (forall (s : JS.Service) (peerId : string) (conn : JS.Conn)
        (bad good : JS.AuthData) (ti : JS.TrustedInfo),
      JS.connections s !! peerId = Some conn ->
      JS.state conn = JS.challenging ->
      js_signature_valid (JS.challenge conn) bad = false ->
      js_signature_valid (JS.challenge conn) good = true ->
      JS.trustedKeys s !! JS.data_publicKey good = Some ti ->
      JS.step s (JS.getResponse bad peerId) = s
      /\ js_state
           (JS.run s [JS.getResponse bad peerId; JS.getResponse good peerId])
           peerId = Some JS.authenticated)
  /\ (forall (s : Go.Service) (peerID : string) (conn : Go.Connection)
        (challenge : list byte) (bad good : Go.Message) (trusted : Go.TrustedUser),
      Go.connections s !! peerID = Some conn ->
      Go.Challenge conn = Some challenge ->
      Go.msg_type bad = "response"%string ->
      Go.msg_type good = "response"%string ->
      go_key_sized bad = true ->
      go_signature_valid challenge bad = false ->
      go_signature_valid challenge good = true ->
      Go.trustedUsers s !! Go.msg_publicKey good = Some trusted ->
      Go.step s (Go.OnMessage peerID (Some bad)) = s
      /\ exists conn',
           Go.connections
             (Go.run s [Go.OnMessage peerID (Some bad);
                        Go.OnMessage peerID (Some good)]) !! peerID = Some conn'
           /\ Go.State conn' = "authenticated"%string
           /\ Go.Authenticated conn' = true
           /\ Go.Challenge conn' = Some challenge).
Proof.
  split.
  - intros s peerId conn bad good ti Hc Hst Hbad Hgood Ht.
    assert (Hs : JS.step s (JS.getResponse bad peerId) = s).
    { unfold JS.step, JS.handle, exec.
      by rewrite (js_response_invalid s bad peerId conn Hc Hst Hbad). }
    split; [exact Hs|]. simpl. rewrite Hs.
    unfold JS.step, JS.handle, exec.
    rewrite (js_response_trusted s good peerId conn ti Hc Hst Hgood Ht). simpl.
    match goal with |- context [exec _ ?s1] => set (s1' := s1) end.
    rewrite (js_frame_state _ peerId _ _ (js_sendEntriesToPeer_frame peerId s1')).
    unfold js_state. subst s1'. simpl. by rewrite lookup_insert_eq.
  - intros s peerID conn challenge bad good trusted Hc Hch Hb Hg Hsz Hbad Hgood Ht.
    assert (Hs : Go.step s (Go.OnMessage peerID (Some bad)) = s).
    { rewrite go_step_response by done. unfold exec.
      by rewrite (go_response_invalid s peerID bad conn challenge). }
    split; [exact Hs|]. simpl. rewrite Hs.
    rewrite go_step_response by done. unfold exec.
    rewrite (go_response_trusted s peerID good conn challenge trusted) by done.
    simpl.
    match goal with |- context [exec _ ?s1] => set (s1' := s1) end.
    destruct (go_sendEntriesToPeer_frame peerID s1') as (Hcs & _).
    rewrite Hcs. subst s1'. simpl. rewrite lookup_insert_eq.
    eexists. split; [done|]. by simpl.
Qed.

Lemma C1_witness :
  (JS.connections Demo.js_joined !! "peer-1"%string = Some Demo.joined_conn
   /\ JS.state Demo.joined_conn = JS.challenging
   /\ js_signature_valid (H := Demo.primitives) (JS.challenge Demo.joined_conn)
        Demo.stale_response = false
   /\ js_signature_valid (H := Demo.primitives) (JS.challenge Demo.joined_conn)
        Demo.good_response = true
   /\ JS.trustedKeys Demo.js_joined !! JS.data_publicKey Demo.good_response
      = Some Demo.alice_info
   /\ JS.step (H := Demo.primitives) Demo.js_joined
        (JS.getResponse Demo.stale_response "peer-1") = Demo.js_joined
   /\ js_state
        (JS.run (H := Demo.primitives) Demo.js_joined
           [JS.getResponse Demo.stale_response "peer-1";
            JS.getResponse Demo.good_response "peer-1"])
        "peer-1" = Some JS.authenticated)
  /\ (Go.connections Demo.go_joined !! Demo.go_peer = Some Demo.go_joined_conn
      /\ Go.Challenge Demo.go_joined_conn = Some Demo.go_challenge
      /\ Go.msg_type Demo.go_stale_response = "response"%string
      /\ Go.msg_type Demo.go_good_response = "response"%string
      /\ go_key_sized (H := Demo.primitives) Demo.go_stale_response = true
      /\ go_signature_valid (H := Demo.primitives) Demo.go_challenge
           Demo.go_stale_response = false
      /\ go_signature_valid (H := Demo.primitives) Demo.go_challenge
           Demo.go_good_response = true
      /\ Go.trustedUsers Demo.go_joined !! Go.msg_publicKey Demo.go_good_response
         = Some Demo.go_alice_record
      /\ Go.step (H := Demo.primitives) Demo.go_joined
           (Go.OnMessage Demo.go_peer (Some Demo.go_stale_response)) = Demo.go_joined).
Proof.
  split.
  - assert (H1 : JS.connections Demo.js_joined !! "peer-1"%string
                 = Some Demo.joined_conn) by (vm_compute; reflexivity).
    assert (H2 : JS.state Demo.joined_conn = JS.challenging) by reflexivity.
    assert (H3 : js_signature_valid (H := Demo.primitives)
                   (JS.challenge Demo.joined_conn) Demo.stale_response = false)
      by (vm_compute; reflexivity).
    assert (H4 : js_signature_valid (H := Demo.primitives)
                   (JS.challenge Demo.joined_conn) Demo.good_response = true)
      by (vm_compute; reflexivity).
    assert (H5 : JS.trustedKeys Demo.js_joined !! JS.data_publicKey Demo.good_response
                 = Some Demo.alice_info) by (vm_compute; reflexivity).
    split; [exact H1|]. split; [exact H2|]. split; [exact H3|].
    split; [exact H4|]. split; [exact H5|].
    exact (proj1 (C1_invalid_response_keeps_challenge (H := Demo.primitives))
             Demo.js_joined "peer-1" Demo.joined_conn Demo.stale_response
             Demo.good_response Demo.alice_info H1 H2 H3 H4 H5).
  - assert (G1 : Go.connections Demo.go_joined !! Demo.go_peer
                 = Some Demo.go_joined_conn) by (vm_compute; reflexivity).
    assert (G2 : Go.Challenge Demo.go_joined_conn = Some Demo.go_challenge)
      by reflexivity.
    assert (G3 : Go.msg_type Demo.go_stale_response = "response"%string)
      by reflexivity.
    assert (G4 : Go.msg_type Demo.go_good_response = "response"%string)
      by reflexivity.
    assert (G5 : go_key_sized (H := Demo.primitives) Demo.go_stale_response = true)
      by (vm_compute; reflexivity).
    assert (G6 : go_signature_valid (H := Demo.primitives) Demo.go_challenge
                   Demo.go_stale_response = false) by (vm_compute; reflexivity).
    assert (G7 : go_signature_valid (H := Demo.primitives) Demo.go_challenge
                   Demo.go_good_response = true) by (vm_compute; reflexivity).
    assert (G8 : Go.trustedUsers Demo.go_joined
                   !! Go.msg_publicKey Demo.go_good_response
                 = Some Demo.go_alice_record) by (vm_compute; reflexivity).
    split; [exact G1|]. split; [exact G2|]. split; [exact G3|]. split; [exact G4|].
    split; [exact G5|]. split; [exact G6|]. split; [exact G7|]. split; [exact G8|].
    exact (proj1 (proj2 (C1_invalid_response_keeps_challenge (H := Demo.primitives))
             Demo.go_joined Demo.go_peer Demo.go_joined_conn Demo.go_challenge
             Demo.go_stale_response Demo.go_good_response Demo.go_alice_record
             G1 G2 G3 G4 G5 G6 G7 G8)).
Defined.

(** C1 as stated fails on the Node service: Alice is trusted and a peer
    has been challenged; a response signed over another challenge leaves
    the connection as it was, challenging and with the same challenge (it is
    not rejected, the challenge is not discarded), and a second response,
    signed over that same challenge, authenticates the session. *)
Lemma C1_counterexample :
  JS.connections Demo.js_joined !! "peer-1"%string = Some Demo.joined_conn
  /\ js_signature_valid (H := Demo.primitives) (JS.challenge Demo.joined_conn)
       Demo.stale_response = false
  /\ JS.connections
       (JS.step (H := Demo.primitives) Demo.js_joined
          (JS.getResponse Demo.stale_response "peer-1")) !! "peer-1"%string
     = Some Demo.joined_conn
  /\ JS.state Demo.joined_conn = JS.challenging
  /\ js_state
       (JS.step (H := Demo.primitives)
          (JS.step (H := Demo.primitives) Demo.js_joined
             (JS.getResponse Demo.stale_response "peer-1"))
          (JS.getResponse Demo.good_response "peer-1"))
       "peer-1" = Some JS.authenticated.
Proof. split_and!; vm_compute; reflexivity. Qed.

(** C2 as stated fails on the Node service: the peer that answered its
    challenge under Mallory's key, which nobody trusted, is in state
    ['untrusted'] and stays so; a second peer then joins and answers under
    Alice's key, and an entry is added. The calls made on the room
    meanwhile go to every peer in it, the untrusted one included: it is
    delivered the challenge, the entry of the log sealed for Alice in the
    dump and the new entry sealed for Alice in the broadcast. *)
Lemma C2_counterexample :
  js_state Demo.js_refused "peer-1" = Some JS.untrusted
  /\ js_state (JS.run (H := Demo.primitives) Demo.js_refused Sample.room_events)
       "peer-1" = Some JS.untrusted
  /\ js_delivered (H := Demo.primitives) "peer-1" Demo.js_refused Sample.room_events
     = [JS.sendChallenge Sample.second_challenge
          (encodeBase64 (JS.publicKey (JS.keyPair Demo.js_identity)))
          (encodeBase64 (JS.publicKey (JS.boxKeyPair Demo.js_identity)));
        js_sealed (H := Demo.primitives) "peer-2" Demo.alice
          (JS.secretKey (JS.boxKeyPair Demo.js_identity))
          (JS.rng Sample.js_second_joined) Demo.first_entry;
        js_sealed (H := Demo.primitives) "peer-2" Demo.alice
          (JS.secretKey (JS.boxKeyPair Demo.js_identity))
          (JS.rng Sample.js_second_joined + nonceLength)
          (mkEntry 2 "Dear diary" 1400 "Admin")].
Proof. split_and!; vm_compute; reflexivity. Qed.

(** C2, as the code has it. Trust gating, in both services. Take a peer
    that is not authenticated, and any sequence of events in which every
    response of that peer names a signing key that is absent from the
    trust store when the response is processed (whether its signature is
    valid or not). Then the peer is not authenticated at the end, and no
    entry message was made for it on the way: in the Node service no
    [sendEntry] call seals an entry for its connection, in the Go service
    nothing is written on its data channel, neither in the dump that
    follows an authentication nor in the broadcast of a new entry. A
    response with a valid signature and an absent key moves the session to
    ['untrusted']. In the Node service that state lasts as long as the
    session: until the peer leaves or joins anew, no event changes it (not
    a further response, not the key being trusted in the meantime) and no
    entry message is made for the peer.

    In the Node service this does not keep entry messages away from the
    peer. The senders of the room are called without target peers, so a
    peer that is in the room, whatever the state of its session, is
    delivered every call made on the room for as long as it stays. What it
    is delivered are challenges and entry messages sealed for the box key
    bound to a peer that is authenticated when the handler ends. *)
Theorem C2_trust_gating `{Primitives} :
  (forall (s : JS.Service) (peer : string) (evs : list JS.Event),
      ~ js_authenticated s peer ->
      js_responses_untrusted peer s evs ->
      ~ js_authenticated (JS.run s evs) peer
      /\ js_entries_for peer (JS.sent (JS.run s evs))
         = js_entries_for peer (JS.sent s))
  /\ (forall (s : Go.Service) (peer : string) (evs : list Go.Event),
      ~ go_authenticated s peer ->
      go_responses_untrusted peer s evs ->
      ~ go_authenticated (Go.run s evs) peer
      /\ go_entries_for peer (Go.sent (Go.run s evs))
         = go_entries_for peer (Go.sent s))
  /\ (forall (s : JS.Service) (peer : string) (conn : JS.Conn) (data : JS.AuthData),
      JS.connections s !! peer = Some conn ->
      JS.state conn = JS.challenging ->
      js_signature_valid (JS.challenge conn) data = true ->
      JS.trustedKeys s !! JS.data_publicKey data = None ->
      js_state (JS.step s (JS.getResponse data peer)) peer = Some JS.untrusted)
  /\ (forall (s : Go.Service) (peer : string) (conn : Go.Connection)
         (challenge : list byte) (msg : Go.Message),
      Go.connections s !! peer = Some conn ->
      Go.Challenge conn = Some challenge ->
      Go.msg_type msg = "response"%string ->
      go_signature_valid challenge msg = true ->
      Go.trustedUsers s !! Go.msg_publicKey msg = None ->
      Go.State <$> Go.connections (Go.step s (Go.OnMessage peer (Some msg))) !! peer
      = Some "untrusted"%string)
  /\ (forall (s : JS.Service) (peer : string) (evs : list JS.Event),
      js_state s peer = Some JS.untrusted ->
      Forall (js_in_session peer) evs ->
      js_state (JS.run s evs) peer = Some JS.untrusted
      /\ js_entries_for peer (JS.sent (JS.run s evs))
         = js_entries_for peer (JS.sent s))
  /\ (forall (s : JS.Service) (peer : string) (evs : list JS.Event),
      is_Some (JS.connections s !! peer) ->
      Forall (js_in_session peer) evs ->
      js_delivered peer s evs
      = drop (length (JS.sent s)) (JS.sent (JS.run s evs)))
  /\ (forall (s : JS.Service) (ev : JS.Event),
      Forall (fun m => (exists a b c, m = JS.sendChallenge a b c)
                       \/ (exists q pk sk cursor e,
                              m = js_sealed q pk sk cursor e
                              /\ js_bound (JS.step s ev) q pk sk e))
        (js_calls s ev)).
Proof.
  split_and!.
  - intros s peer evs. apply js_run_gate.
  - intros s peer evs. apply go_run_gate.
  - intros s peer conn data Hc Hst Hv Ht. unfold JS.step, JS.handle, exec.
    rewrite (js_response_untrusted s data peer conn Hc Hst Hv Ht).
    unfold js_state. simpl. by rewrite lookup_insert_eq.
  - intros s peer conn challenge msg Hc Hch Hty Hv Ht.
    rewrite go_step_response by done. unfold exec.
    rewrite (go_response_untrusted s peer msg conn challenge Hc Hch Hv Ht).
    simpl. by rewrite lookup_insert_eq.
  - intros s peer evs. by apply js_run_untrusted.
  - intros s peer evs. apply js_delivered_all.
  - apply js_calls_sealed.
Qed.

Lemma C2_witness :
  (let evs := [JS.getResponse Demo.untrusted_response "peer-1";
               JS.post_api_entries "Dear diary" 1300;
               JS.getResponse Demo.untrusted_response "peer-1"] in
   ~ js_authenticated Demo.js_joined "peer-1"
   /\ js_responses_untrusted (H := Demo.primitives) "peer-1" Demo.js_joined evs
   /\ ~ js_authenticated (JS.run (H := Demo.primitives) Demo.js_joined evs) "peer-1"
   /\ js_entries_for "peer-1" (JS.sent (JS.run (H := Demo.primitives) Demo.js_joined evs))
      = js_entries_for "peer-1" (JS.sent Demo.js_joined))
  /\ (let evs := [Go.OnMessage Demo.go_peer (Some Demo.go_untrusted_response);
                  Go.POST_api_entries "Dear diary" 1300;
                  Go.OnMessage Demo.go_peer (Some Demo.go_request)] in
      ~ go_authenticated Demo.go_joined Demo.go_peer
      /\ go_responses_untrusted (H := Demo.primitives) Demo.go_peer Demo.go_joined evs
      /\ ~ go_authenticated (Go.run (H := Demo.primitives) Demo.go_joined evs) Demo.go_peer
      /\ go_entries_for Demo.go_peer
           (Go.sent (Go.run (H := Demo.primitives) Demo.go_joined evs))
         = go_entries_for Demo.go_peer (Go.sent Demo.go_joined))
  /\ (let evs := [JS.post_api_trusted Demo.trust_mallory 1300;
                  JS.getResponse Demo.untrusted_response "peer-1";
                  JS.post_api_entries "Dear diary" 1400] in
      js_state Demo.js_refused "peer-1" = Some JS.untrusted
      /\ Forall (js_in_session "peer-1") evs
      /\ js_state (JS.run (H := Demo.primitives) Demo.js_refused evs) "peer-1"
         = Some JS.untrusted
      /\ js_entries_for "peer-1"
           (JS.sent (JS.run (H := Demo.primitives) Demo.js_refused evs))
         = js_entries_for "peer-1" (JS.sent Demo.js_refused))
  /\ (is_Some (JS.connections Demo.js_refused !! "peer-1"%string)
      /\ Forall (js_in_session "peer-1") Sample.room_events
      /\ js_delivered (H := Demo.primitives) "peer-1" Demo.js_refused
           Sample.room_events
         = drop (length (JS.sent Demo.js_refused))
             (JS.sent (JS.run (H := Demo.primitives) Demo.js_refused
                         Sample.room_events))).
Proof.
  split; [|split; [|split]].
  - intros evs.
    assert (H1 : ~ js_authenticated Demo.js_joined "peer-1")
      by (vm_compute; discriminate).
    assert (H2 : js_responses_untrusted (H := Demo.primitives) "peer-1"
                   Demo.js_joined evs).
    { subst evs. simpl. split_and!; try done; intros _; vm_compute; reflexivity. }
    split; [exact H1|]. split; [exact H2|].
    exact (proj1 (C2_trust_gating (H := Demo.primitives))
             Demo.js_joined "peer-1" evs H1 H2).
  - intros evs.
    assert (G1 : ~ go_authenticated Demo.go_joined Demo.go_peer).
    { intros (conn & Hc & Hor).
      assert (Hc' : Go.connections Demo.go_joined !! Demo.go_peer
                    = Some Demo.go_joined_conn) by (vm_compute; reflexivity).
      rewrite Hc' in Hc. injection Hc as <-. destruct Hor; discriminate. }
    assert (G2 : go_responses_untrusted (H := Demo.primitives) Demo.go_peer
                   Demo.go_joined evs).
    { subst evs. cbn [go_responses_untrusted].
      split; [intros _ _; vm_compute; reflexivity|].
      split; [exact I|]. split; [|exact I].
      intros _ Hty. vm_compute in Hty. discriminate Hty. }
    split; [exact G1|]. split; [exact G2|].
    exact (proj1 (proj2 (C2_trust_gating (H := Demo.primitives)))
             Demo.go_joined Demo.go_peer evs G1 G2).
  - intros evs.
    assert (U1 : js_state Demo.js_refused "peer-1" = Some JS.untrusted)
      by (vm_compute; reflexivity).
    assert (U2 : Forall (js_in_session "peer-1") evs)
      by (subst evs; repeat constructor).
    split; [exact U1|]. split; [exact U2|].
    exact (proj1 (proj2 (proj2 (proj2 (proj2
                    (C2_trust_gating (H := Demo.primitives))))))
             Demo.js_refused "peer-1" evs U1 U2).
  - assert (D1 : is_Some (JS.connections Demo.js_refused !! "peer-1"%string))
      by (vm_compute; by eexists).
    assert (D2 : Forall (js_in_session "peer-1") Sample.room_events).
    { unfold Sample.room_events.
      repeat apply Forall_cons_2; try apply Forall_nil_2; try exact I.
      vm_compute. discriminate. }
    split; [exact D1|]. split; [exact D2|].
    exact (proj1 (proj2 (proj2 (proj2 (proj2 (proj2
                    (C2_trust_gating (H := Demo.primitives)))))))
             Demo.js_refused "peer-1" Sample.room_events D1 D2).
Defined.

(* ===================================================================== *)
(** ** The states a session ends in *)
(* ===================================================================== *)

(** In the Go service ["untrusted"] is not final: the challenge stays, and
    once the key is trusted the same response authenticates the session. *)
Lemma go_untrusted_not_final :
  let mallory_response := Demo.go_response Demo.go_challenge Demo.mallory in
  let go_mallory :=
    Go.mkTrustedUser (encodeBase64 Demo.mallory) (encodeBase64 Demo.mallory)
      "Mallory" None 0 in
  let s1 := Go.step (H := Demo.primitives) Demo.go_joined
              (Go.OnMessage Demo.go_peer (Some mallory_response)) in
  let s2 := Go.run (H := Demo.primitives) s1
              [Go.POST_api_trusted go_mallory 1300;
               Go.OnMessage Demo.go_peer (Some mallory_response)] in
  Go.State <$> Go.connections s1 !! Demo.go_peer = Some "untrusted"%string
  /\ Go.State <$> Go.connections s2 !! Demo.go_peer = Some "authenticated"%string
  /\ Go.Authenticated <$> Go.connections s2 !! Demo.go_peer = Some true.
Proof. split_and!; vm_compute; reflexivity. Qed.

(* ===================================================================== *)
(** ** Entry messages *)
(* ===================================================================== *)

(** C3 as stated fails on the Go service: once Alice is authenticated,
    the entry of the log is written on her data channel as it is, the
    entry itself under the type [entry], with no nonce and no ciphertext. *)
Lemma C3_counterexample :
  Go.connections Demo.go_served !! Demo.go_peer = Some Demo.go_served_conn
  /\ Go.Authenticated Demo.go_served_conn = true
  /\ Go.sent Demo.go_served
     = Go.sent Demo.go_joined ++ [(Demo.go_peer, Go.entryMsg Demo.first_entry)]
  /\ Go.sent (Go.step (H := Demo.primitives) Demo.go_served
                (Go.OnMessage Demo.go_peer (Some Demo.go_request)))
     = Go.sent Demo.go_served ++ [(Demo.go_peer, Go.entryMsg Demo.first_entry)].
Proof. split_and!; vm_compute; reflexivity. Qed.

(** C3, as the code has it. In the Node service, whatever event the
    service handles, the calls it adds on the room are challenges and
    entry messages, and every entry message is an entry of the log sealed
    by [nacl.box] for a peer that is authenticated under a trusted key,
    with the box key bound to that key and the box secret key of the
    service, under a nonce of [nacl.box.nonceLength] = 24 bytes read from a
    window of the random source that no other message of the step uses
    (the windows follow one another from the cursor on); the nonce is sent
    next to the ciphertext and does not depend on the entry. [encryptForPeer]
    moves the cursor past the window it read. In the Go service the entries
    are written on the data channel unencrypted. *)
Theorem C3_entries_sealed_with_fresh_nonce `{Primitives} :
  (forall (s : JS.Service) (ev : JS.Event),
      exists l, JS.sent (JS.step s ev) = JS.sent s ++ l
                /\ js_fresh_seq (js_bound (JS.step s ev)) (JS.rng s) l
                     (JS.rng (JS.step s ev)))
  /\ (forall (s : JS.Service) (i : JS.Identity) (e : DiaryEntry) (k : string)
        (pk : list byte),
      JS.identity s = Some i ->
      decodeBase64 k = Some pk ->
      length pk = crypto_box_PUBLICKEYBYTES ->
      length (JS.secretKey (JS.boxKeyPair i)) = crypto_box_SECRETKEYBYTES ->
      JS.encryptForPeer e (Some k) s =
      (Return (encodeBase64 (js_nonce (JS.rng s)),
               encodeBase64
                 (crypto_box (decodeUTF8 (JSON_stringify e)) (js_nonce (JS.rng s))
                    pk (JS.secretKey (JS.boxKeyPair i)))),
       JS.with_rng (JS.rng s + nonceLength) s))
  /\ (forall cursor : nat, length (js_nonce cursor) = 24%nat)
  /\ (forall (s : Go.Service) (peerID : string) (conn : Go.Connection),
      Go.connections s !! peerID = Some conn ->
      Go.Authenticated conn = true ->
      peerID ∈ Go.dataChannels s ->
      Go.sent (exec (Go.sendEntriesToPeer peerID) s)
      = Go.sent s ++ map (fun e => (peerID, Go.entryMsg e)) (Go.entries s)).
Proof.
  split_and!.
  - apply js_step_fresh.
  - intros s i e k pk Hi Hk Hpk Hsk. rewrite js_encryptForPeer_eq. simpl.
    by rewrite Hk, Hi, Hpk, Hsk.
  - apply js_nonce_length.
  - intros s peerID conn Hc Ha Hdc. unfold exec.
    rewrite go_sendEntriesToPeer_eq, Hc, Ha. simpl.
    by rewrite bool_decide_true.
Qed.

Lemma C3_witness :
  JS.identity Demo.js_served = Some Demo.js_identity
  /\ decodeBase64 (encodeBase64 Demo.alice) = Some Demo.alice
  /\ length Demo.alice = crypto_box_PUBLICKEYBYTES
  /\ length (JS.secretKey (JS.boxKeyPair Demo.js_identity))
     = crypto_box_SECRETKEYBYTES
  /\ JS.encryptForPeer (H := Demo.primitives) Demo.first_entry
       (Some (encodeBase64 Demo.alice)) Demo.js_served
     = (Return (encodeBase64 (js_nonce (H := Demo.primitives) (JS.rng Demo.js_served)),
                encodeBase64
                  (crypto_box (Primitives := Demo.primitives)
                     (decodeUTF8 (JSON_stringify (Primitives := Demo.primitives)
                                    Demo.first_entry))
                     (js_nonce (H := Demo.primitives) (JS.rng Demo.js_served))
                     Demo.alice (JS.secretKey (JS.boxKeyPair Demo.js_identity)))),
        JS.with_rng (JS.rng Demo.js_served + nonceLength) Demo.js_served).
Proof.
  assert (H1 : JS.identity Demo.js_served = Some Demo.js_identity)
    by (vm_compute; reflexivity).
  assert (H2 : decodeBase64 (encodeBase64 Demo.alice) = Some Demo.alice)
    by (vm_compute; reflexivity).
  assert (H3 : length Demo.alice = crypto_box_PUBLICKEYBYTES) by reflexivity.
  assert (H4 : length (JS.secretKey (JS.boxKeyPair Demo.js_identity))
               = crypto_box_SECRETKEYBYTES) by (vm_compute; reflexivity).
  split; [exact H1|]. split; [exact H2|]. split; [exact H3|]. split; [exact H4|].
  exact (proj1 (proj2 (C3_entries_sealed_with_fresh_nonce (H := Demo.primitives)))
           Demo.js_served Demo.js_identity Demo.first_entry
           (encodeBase64 Demo.alice) Demo.alice H1 H2 H3 H4).
Defined.

(** C6. In the Go service, a [request] message of an authenticated peer
    whose data channel is open makes the service write every entry of the
    log on that channel, in the order of the log, and nothing else. The
    Node service has no [request] action: it sends the log when the peer
    authenticates, through [sendEntriesToPeer], which seals every entry of
    the log in the order of the log, provided the box key bound to the
    peer's key decodes to 32 bytes. The order of the log is the order of
    creation (C7). *)
Theorem C6_request_sends_log_in_order `{Primitives} :
  (forall (s : Go.Service) (peerID : string) (conn : Go.Connection)
        (msg : Go.Message),
      Go.connections s !! peerID = Some conn ->
      Go.Authenticated conn = true ->
      peerID ∈ Go.dataChannels s ->
      Go.msg_type msg = "request"%string ->
      Go.sent (Go.step s (Go.OnMessage peerID (Some msg)))
      = Go.sent s ++ map (fun e => (peerID, Go.entryMsg e)) (Go.entries s))
  /\ (forall (s : JS.Service) (p k b : string) (conn : JS.Conn)
        (ti : JS.TrustedInfo) (pk : list byte) (i : JS.Identity),
      JS.connections s !! p = Some conn ->
      JS.state conn = JS.authenticated ->
      JS.conn_publicKey conn = Some k ->
      JS.trustedKeys s !! k = Some ti ->
      JS.boxPublicKey ti = Some b ->
      decodeBase64 b = Some pk ->
      length pk = crypto_box_PUBLICKEYBYTES ->
      JS.identity s = Some i ->
      length (JS.secretKey (JS.boxKeyPair i)) = crypto_box_SECRETKEYBYTES ->
      JS.sent (exec (JS.sendEntriesToPeer p) s)
      = JS.sent s ++
        imap (fun j e => js_sealed p pk (JS.secretKey (JS.boxKeyPair i))
                           (JS.rng s + nonceLength * j) e) (JS.entries s)).
Proof.
  split.
  - intros s peerID conn msg Hc Ha Hdc Hty.
    unfold Go.step, Go.handle, Go.handleDataChannelMessage. rewrite Hty. simpl.
    unfold Go.handleEntryRequest, exec, bind, gets. simpl. rewrite Hc, Ha. simpl.
    rewrite go_sendEntriesToPeer_eq, Hc, Ha. simpl. by rewrite bool_decide_true.
  - intros s p k b conn ti pk i Hc Hst Hk Ht Hb Hd Hpk Hi Hsk. unfold exec.
    by rewrite (js_dump_eq s p k b conn ti pk i).
Qed.

Lemma C6_witness :
  (Go.connections Demo.go_served !! Demo.go_peer = Some Demo.go_served_conn
   /\ Go.Authenticated Demo.go_served_conn = true
   /\ Demo.go_peer ∈ Go.dataChannels Demo.go_served
   /\ Go.msg_type Demo.go_request = "request"%string
   /\ Go.sent (Go.step (H := Demo.primitives) Demo.go_served
                 (Go.OnMessage Demo.go_peer (Some Demo.go_request)))
      = Go.sent Demo.go_served
        ++ map (fun e => (Demo.go_peer, Go.entryMsg e)) (Go.entries Demo.go_served))
  /\ (let s := Demo.js_served in
      let sk := JS.secretKey (JS.boxKeyPair Demo.js_identity) in
      JS.connections s !! "peer-1"%string = Some Demo.served_conn
      /\ JS.state Demo.served_conn = JS.authenticated
      /\ JS.conn_publicKey Demo.served_conn = Some (encodeBase64 Demo.alice)
      /\ JS.trustedKeys s !! encodeBase64 Demo.alice = Some Demo.alice_info
      /\ JS.boxPublicKey Demo.alice_info = Some (encodeBase64 Demo.alice)
      /\ decodeBase64 (encodeBase64 Demo.alice) = Some Demo.alice
      /\ length Demo.alice = crypto_box_PUBLICKEYBYTES
      /\ JS.identity s = Some Demo.js_identity
      /\ length sk = crypto_box_SECRETKEYBYTES
      /\ JS.sent (exec (JS.sendEntriesToPeer (H := Demo.primitives) "peer-1") s)
         = JS.sent s ++
           imap (fun j e => js_sealed (H := Demo.primitives) "peer-1" Demo.alice sk
                              (JS.rng s + nonceLength * j) e) (JS.entries s)).
Proof.
  split.
  - assert (H1 : Go.connections Demo.go_served !! Demo.go_peer
                 = Some Demo.go_served_conn) by (vm_compute; reflexivity).
    assert (H2 : Go.Authenticated Demo.go_served_conn = true) by reflexivity.
    assert (H3 : Demo.go_peer ∈ Go.dataChannels Demo.go_served).
    { apply (bool_decide_unpack _). vm_compute. exact I. }
    assert (H4 : Go.msg_type Demo.go_request = "request"%string) by reflexivity.
    split; [exact H1|]. split; [exact H2|]. split; [exact H3|]. split; [exact H4|].
    exact (proj1 (C6_request_sends_log_in_order (H := Demo.primitives))
             Demo.go_served Demo.go_peer Demo.go_served_conn Demo.go_request
             H1 H2 H3 H4).
  - intros s sk.
    assert (J1 : JS.connections s !! "peer-1"%string = Some Demo.served_conn)
      by (vm_compute; reflexivity).
    assert (J2 : JS.state Demo.served_conn = JS.authenticated) by reflexivity.
    assert (J3 : JS.conn_publicKey Demo.served_conn = Some (encodeBase64 Demo.alice))
      by reflexivity.
    assert (J4 : JS.trustedKeys s !! encodeBase64 Demo.alice = Some Demo.alice_info)
      by (vm_compute; reflexivity).
    assert (J5 : JS.boxPublicKey Demo.alice_info = Some (encodeBase64 Demo.alice))
      by reflexivity.
    assert (J6 : decodeBase64 (encodeBase64 Demo.alice) = Some Demo.alice)
      by (vm_compute; reflexivity).
    assert (J7 : length Demo.alice = crypto_box_PUBLICKEYBYTES)
      by (vm_compute; reflexivity).
    assert (J8 : JS.identity s = Some Demo.js_identity)
      by (vm_compute; reflexivity).
    assert (J9 : length sk = crypto_box_SECRETKEYBYTES)
      by (vm_compute; reflexivity).
    split; [exact J1|]. split; [exact J2|]. split; [exact J3|]. split; [exact J4|].
    split; [exact J5|]. split; [exact J6|]. split; [exact J7|]. split; [exact J8|].
    split; [exact J9|].
    exact (proj2 (C6_request_sends_log_in_order (H := Demo.primitives))
             s "peer-1"%string (encodeBase64 Demo.alice) (encodeBase64 Demo.alice)
             Demo.served_conn Demo.alice_info Demo.alice Demo.js_identity
             J1 J2 J3 J4 J5 J6 J7 J8 J9).
Defined.

(* ===================================================================== *)
(** ** The room identifier *)
(* ===================================================================== *)

Section RoomId.
Context `{Primitives}.

Lemma room_id_of_length (hash : list byte -> list byte) (salt : string)
    (pk : list byte) (n : nat) :
  (forall m, length (hash m) = n) -> (15 <= n)%nat ->
  String.length (room_id_of hash salt pk) = 20%nat.
Proof.
  intros Hn Hle. unfold room_id_of.
  rewrite substring_prefix_length, encodeBase64_length, Hn.
  assert (5 <= (n + 2) / 3)%nat by (apply Nat.div_le_lower_bound; lia). lia.
Qed.

Lemma js_generateRoomId_eq (s : JS.Service) (i : JS.Identity) :
  JS.identity s = Some i ->
  JS.generateRoomId s =
  (Return (room_id_of crypto_hash (JS.roomSalt s) (JS.publicKey (JS.keyPair i))), s).
Proof.
  intros Hi. unfold JS.generateRoomId, JS.getPublicKeyString, JS.getIdentity.
  unfold bind, gets, orThrow, ret. by rewrite Hi.
Qed.

Lemma go_generateRoomID_eq (s : Go.Service) (i : Go.Identity) :
  (forall m, length (sha256_Sum256 m) = 32%nat) ->
  Go.identity s = Some i ->
  Go.generateRoomID s =
  (Return (room_id_of sha256_Sum256 (Go.roomSalt s) (Go.PublicKey i)), s).
Proof.
  intros Hlen Hi. unfold Go.generateRoomID, Go.getIdentity.
  unfold bind, gets, orThrow, ret. rewrite Hi. cbn beta iota zeta.
  rewrite encodeBase64_length, Hlen. done.
Qed.

End RoomId.

(** C5. The room identifier of the service model is a function of the
    salt and the signing public key of the service alone: the first 20
    characters of the base64 text of the hash (SHA-512 in the Node service,
    SHA-256 in the Go service) of the salt, a colon and the base64 text of
    the public key. Once the identity is loaded the computation returns,
    without changing the service, an identifier of exactly 20 characters;
    two services with the same salt and the same signing public key
    compute the same identifier, whatever their secret keys and the rest
    of their state. *)
Theorem C5_room_id_deterministic `{Primitives} :
  (forall m, length (crypto_hash m) = 64%nat) ->
  (forall m, length (sha256_Sum256 m) = 32%nat) ->
  (forall (s : JS.Service) (i : JS.Identity),
      JS.identity s = Some i ->
      JS.generateRoomId s =
      (Return (room_id_of crypto_hash (JS.roomSalt s) (JS.publicKey (JS.keyPair i))), s)
      /\ String.length
           (room_id_of crypto_hash (JS.roomSalt s) (JS.publicKey (JS.keyPair i)))
         = 20%nat)
  /\ (forall (s1 s2 : JS.Service) (i1 i2 : JS.Identity),
      JS.identity s1 = Some i1 -> JS.identity s2 = Some i2 ->
      JS.roomSalt s1 = JS.roomSalt s2 ->
      JS.publicKey (JS.keyPair i1) = JS.publicKey (JS.keyPair i2) ->
      (JS.generateRoomId s1).1 = (JS.generateRoomId s2).1)
  /\ (forall (s : Go.Service) (i : Go.Identity),
      Go.identity s = Some i ->
      Go.generateRoomID s =
      (Return (room_id_of sha256_Sum256 (Go.roomSalt s) (Go.PublicKey i)), s)
      /\ String.length (room_id_of sha256_Sum256 (Go.roomSalt s) (Go.PublicKey i))
         = 20%nat)
  /\ (forall (s1 s2 : Go.Service) (i1 i2 : Go.Identity),
      Go.identity s1 = Some i1 -> Go.identity s2 = Some i2 ->
      Go.roomSalt s1 = Go.roomSalt s2 ->
      Go.PublicKey i1 = Go.PublicKey i2 ->
      (Go.generateRoomID s1).1 = (Go.generateRoomID s2).1).
Proof.
  intros H512 H256. split_and!.
  - intros s i Hi. split; [by apply js_generateRoomId_eq|].
    by apply (room_id_of_length _ _ _ 64%nat); [|lia].
  - intros s1 s2 i1 i2 H1 H2 Hs Hp.
    rewrite (js_generateRoomId_eq s1 i1 H1), (js_generateRoomId_eq s2 i2 H2).
    simpl. by rewrite Hs, Hp.
  - intros s i Hi. split; [by apply go_generateRoomID_eq|].
    by apply (room_id_of_length _ _ _ 32%nat); [|lia].
  - intros s1 s2 i1 i2 H1 H2 Hs Hp.
    rewrite (go_generateRoomID_eq s1 i1 H256 H1), (go_generateRoomID_eq s2 i2 H256 H2).
    simpl. by rewrite Hs, Hp.
Qed.

Lemma C5_witness :
  (forall m, length (crypto_hash (Primitives := Demo.primitives) m) = 64%nat)
  /\ (forall m, length (sha256_Sum256 (Primitives := Demo.primitives) m) = 32%nat)
  /\ JS.identity Demo.js_started = Some (js_generated (H := Demo.primitives) 0)
  /\ JS.generateRoomId (H := Demo.primitives) Demo.js_started
     = (Return "dHJ1c3QtZGlhcnktdjE6"%string, Demo.js_started).
Proof.
  assert (H1 : forall m,
             length (crypto_hash (Primitives := Demo.primitives) m) = 64%nat).
  { intros m. unfold crypto_hash, Demo.primitives.
    rewrite length_take, length_app, length_replicate. lia. }
  assert (H2 : forall m,
             length (sha256_Sum256 (Primitives := Demo.primitives) m) = 32%nat).
  { intros m. unfold sha256_Sum256, Demo.primitives.
    rewrite length_take, length_app, length_replicate. lia. }
  assert (H3 : JS.identity Demo.js_started
               = Some (js_generated (H := Demo.primitives) 0))
    by (vm_compute; reflexivity).
  split; [exact H1|]. split; [exact H2|]. split; [exact H3|].
  exact (proj1 (proj1 (C5_room_id_deterministic (H := Demo.primitives) H1 H2)
                  Demo.js_started (js_generated (H := Demo.primitives) 0) H3)).
Defined.

(* ===================================================================== *)
(** ** The identity file *)
(* ===================================================================== *)

(** C4, on the code. The identity file holds text that is not a JSON
    document (a truncated or garbled write). [loadIdentity] of the Node
    service returns without an error, with a newly generated identity, and
    has written that identity over the file. On the same file the Go
    loaders return an error and leave the file and the service alone. *)
Theorem C4_corrupt_identity_file `{Primitives} (salt raw iso : string)
    (logfile : option (list DiaryEntry)) (gofile : option Go.EntriesFile) :
  let s := JS.construct salt (Some (NotJson raw)) logfile in
  (JS.loadIdentity iso s).1 = Return tt
  /\ JS.identity (exec (JS.loadIdentity iso) s) = Some (js_generated 0)
  /\ JS.identity_json (exec (JS.loadIdentity iso) s)
     = Some (JS.toStore (js_generated 0) iso)
  /\ JS.identity_json (exec (JS.loadIdentity iso) s) <> JS.identity_json s
  /\ Go.loadOrGenerateIdentity iso
       (Go.NewTrustDiaryService (Some (NotJson raw)) gofile)
     = (Return (Some "failed to parse identity"%string),
        Go.NewTrustDiaryService (Some (NotJson raw)) gofile)
  /\ (forall g : GoNostr.Service,
        GoNostr.identity_json g = Some (NotJson raw) ->
        GoNostr.loadOrCreateIdentity g = (Return (Some "invalid character"%string), g)).
Proof.
  intros s. split_and!; try done.
  intros g Hg. unfold GoNostr.loadOrCreateIdentity, bind, gets. by rewrite Hg.
Qed.

Section IdentityFile.
Context `{Primitives}.

(** The Node service regenerates as well over a well-formed file in which
    one of the four keys is missing or is not base64 (a partial write of
    the members). *)
Lemma js_partial_identity_file (salt iso : string)
    (members : gmap string string) (logfile : option (list DiaryEntry)) :
  members !! "publicKey"%string ≫= decodeBase64 = None
  \/ members !! "secretKey"%string ≫= decodeBase64 = None
  \/ members !! "boxPublicKey"%string ≫= decodeBase64 = None
  \/ members !! "boxSecretKey"%string ≫= decodeBase64 = None ->
  let s := JS.construct salt (Some (JsonObject members)) logfile in
  (JS.loadIdentity iso s).1 = Return tt
  /\ JS.identity (exec (JS.loadIdentity iso) s) = Some (js_generated 0)
  /\ JS.identity_json (exec (JS.loadIdentity iso) s)
     = Some (JS.toStore (js_generated 0) iso).
Proof.
  intros Hm s. unfold JS.loadIdentity, JS.readIdentity, exec, try_catch.
  unfold bind, gets, orThrow, ret, throw. simpl.
  destruct (members !! "publicKey"%string ≫= decodeBase64); simpl; [|done].
  destruct (members !! "secretKey"%string ≫= decodeBase64); simpl; [|done].
  destruct (members !! "boxPublicKey"%string ≫= decodeBase64); simpl; [|done].
  destruct (members !! "boxSecretKey"%string ≫= decodeBase64); simpl; [|done].
  destruct Hm as [|[|[|]]]; done.
Qed.

(** A file with the four keys in base64 is read and left alone, and no
    randomness is drawn. *)
Lemma js_complete_identity_file (salt iso : string)
    (members : gmap string string) (logfile : option (list DiaryEntry))
    (pk sk bpk bsk : list byte) :
  members !! "publicKey"%string ≫= decodeBase64 = Some pk ->
  members !! "secretKey"%string ≫= decodeBase64 = Some sk ->
  members !! "boxPublicKey"%string ≫= decodeBase64 = Some bpk ->
  members !! "boxSecretKey"%string ≫= decodeBase64 = Some bsk ->
  let s := JS.construct salt (Some (JsonObject members)) logfile in
  JS.loadIdentity iso s =
  (Return tt,
   JS.with_identity
     (Some (JS.mkIdentity (JS.mkKeyPair pk sk) (JS.mkKeyPair bpk bsk))) s).
Proof.
  intros H1 H2 H3 H4 s. unfold JS.loadIdentity, JS.readIdentity, try_catch.
  unfold bind, gets, orThrow, ret, throw, modify. simpl.
  by rewrite H1, H2, H3, H4.
Qed.

(** The Go service takes any JSON object for an identity: members that
    are missing or not base64 give empty or cut keys, without an error and
    without touching the file. *)
Lemma go_object_identity_file (iso : string) (members : gmap string string)
    (logfile : option Go.EntriesFile) :
  let s := Go.NewTrustDiaryService (Some (JsonObject members)) logfile in
  (Go.loadOrGenerateIdentity iso s).1 = Return None
  /\ Go.identity_json (exec (Go.loadOrGenerateIdentity iso) s) = Go.identity_json s
  /\ Go.rng (exec (Go.loadOrGenerateIdentity iso) s) = Go.rng s
  /\ Go.identity (exec (Go.loadOrGenerateIdentity iso) s) =
     Some (Go.mkIdentity
             (Go.DecodeString_ (Go.stored_string "publicKey" members))
             (Go.DecodeString_ (Go.stored_string "privateKey" members))
             (Go.copy32 (Go.DecodeString_ (Go.stored_string "boxPublicKey" members)))
             (Go.copy32 (Go.DecodeString_ (Go.stored_string "boxPrivateKey" members)))).
Proof. done. Qed.

(** Without a file both services generate an identity and write it. *)
Lemma js_no_identity_file (salt iso : string) (logfile : option (list DiaryEntry)) :
  let s := JS.construct salt None logfile in
  (JS.loadIdentity iso s).1 = Return tt
  /\ JS.identity (exec (JS.loadIdentity iso) s) = Some (js_generated 0)
  /\ JS.identity_json (exec (JS.loadIdentity iso) s)
     = Some (JS.toStore (js_generated 0) iso).
Proof. done. Qed.

End IdentityFile.

(* ===================================================================== *)
(** ** The entry log *)
(* ===================================================================== *)

Section Log.
Context `{Primitives}.

Lemma log_wf_snoc (l : list DiaryEntry) (e : DiaryEntry) :
  log_wf l -> id e = Z.of_nat (length l) + 1 -> log_wf (l ++ [e]).
Proof.
  intros Hl He i e' Hi.
  destruct (decide (i < length l)%nat) as [Hlt|Hge].
  - rewrite lookup_app_l in Hi by done. by apply Hl.
  - rewrite lookup_app_r in Hi by lia.
    destruct (i - length l)%nat as [|n] eqn:Hn; simpl in Hi; [|done].
    simplify_eq. rewrite He. f_equal. lia.
Qed.

Lemma log_wf_id_bound (l : list DiaryEntry) (e : DiaryEntry) :
  log_wf l -> e ∈ l -> 1 <= id e <= Z.of_nat (length l).
Proof.
  intros Hl He. apply list_elem_of_lookup in He as [i Hi].
  rewrite (Hl i e Hi). apply lookup_lt_Some in Hi. lia.
Qed.

Lemma js_entries_step (s : JS.Service) (ev : JS.Event) :
  JS.entries (JS.step s ev) =
  match ev with
  | JS.post_api_entries content now | JS.ws_add_entry content now =>
      JS.entries s ++ [js_new_entry s content now]
  | _ => JS.entries s
  end.
Proof.
  destruct ev as [p now|p|data p|data p|c now|c now|req now|key]; try done.
  - unfold JS.step, JS.handle.
    by destruct (js_handlePeerJoin_exec p now s) as (_ & _ & -> & _).
  - unfold JS.step, JS.handle, exec.
    destruct (js_response_cases s data p)
      as [-> | [(conn & Hc & Hst & Hv & Ht & ->) | (conn & ti & Hc & Hst & Hv & Ht & ->)]];
      try done.
    cbn [snd].
    match goal with |- context [exec _ ?s1] => set (s1' := s1) end.
    by destruct (js_sendEntriesToPeer_frame p s1') as (_ & _ & -> & _).
  - rewrite (proj1 (js_step_addEntry c now s)), js_addEntry_exec.
    match goal with |- context [exec (JS.broadcastEntry ?e) ?s1] =>
      destruct (js_broadcastEntry_frame e s1) as (_ & _ & -> & _) end; [|done].
    simpl. apply elem_of_app. right. by left.
  - rewrite (proj2 (js_step_addEntry c now s)), js_addEntry_exec.
    match goal with |- context [exec (JS.broadcastEntry ?e) ?s1] =>
      destruct (js_broadcastEntry_frame e s1) as (_ & _ & -> & _) end; [|done].
    simpl. apply elem_of_app. right. by left.
Qed.

Lemma go_step_addEntry (content : string) (now : Z) (s : Go.Service) :
  Go.step s (Go.POST_api_entries content now) =
  exec (Go.broadcastEntry (go_new_entry s content now))
    (Go.with_entries_json
       (Some (Go.Entries (Go.entries s ++ [go_new_entry s content now])))
       (Go.with_entries (Go.entries s ++ [go_new_entry s content now]) s)).
Proof.
  unfold Go.step, Go.handle, Go.handleAddEntry, Go.saveEntries, go_new_entry.
  unfold exec, bind, gets, modify, ret. simpl.
  by destruct (Go.broadcastEntry _ _) as [[[]|] s'].
Qed.

Lemma go_entries_step (s : Go.Service) (ev : Go.Event) :
  Go.entries (Go.step s ev) =
  match ev with
  | Go.POST_api_entries content now => Go.entries s ++ [go_new_entry s content now]
  | _ => Go.entries s
  end.
Proof.
  destruct ev as [p|p|p|p data|p|p|c now|user now|key]; try done.
  - unfold Go.step, Go.handle, Go.onDataChannel, Go.getConnection, Go.setConnection.
    unfold exec, bind, gets, modify, orThrow, ret, throw. simpl.
    by destruct (Go.connections s !! p).
  - unfold Go.step, Go.handle, Go.sendAuthChallenge, Go.rand_Read,
      Go.getConnection, Go.setConnection, Go.getIdentity, Go.SendText.
    unfold exec, bind, gets, modify, orThrow, ret, throw. simpl.
    destruct (Go.connections s !! p); simpl; [|done].
    by destruct (Go.identity s).
  - unfold Go.step, Go.handle, Go.handleDataChannelMessage.
    destruct data as [msg|]; [|done].
    destruct (String.eqb (Go.msg_type msg) "response").
    + unfold exec.
      destruct (go_response_cases s p msg)
        as [-> | [[-> _] | [(conn & ch & Hc & Hch & Hv & Ht & ->)
                           | (conn & ch & tr & Hc & Hch & Hv & Ht & ->)]]];
        try done.
      cbn [snd].
      match goal with |- context [exec _ ?s1] => set (s1' := s1) end.
      by destruct (go_sendEntriesToPeer_frame p s1') as (_ & _ & -> & _).
    + destruct (String.eqb (Go.msg_type msg) "request"); [|done].
      unfold Go.handleEntryRequest, exec, bind, gets. simpl.
      destruct (Go.connections s !! p) as [conn|]; [|done].
      destruct (Go.Authenticated conn); simpl; [|done].
      pose proof (go_sendEntriesToPeer_frame p s) as (_ & _ & He & _).
      exact He.
  - unfold Go.step, Go.handle, Go.onClose, Go.getConnection, Go.setConnection.
    unfold exec, bind, gets, modify, orThrow, ret, throw. simpl.
    by destruct (Go.connections s !! p).
  - rewrite go_step_addEntry.
    match goal with |- context [exec (Go.broadcastEntry ?e) ?s1] =>
      by destruct (go_broadcastEntry_frame e s1) as (_ & _ & -> & _) end.
Qed.

Lemma js_loadIdentity_returns (iso : string) (s : JS.Service) :
  exists s1 i,
    JS.loadIdentity iso s = (Return tt, s1)
    /\ JS.identity s1 = Some i
    /\ JS.entries s1 = JS.entries s
    /\ JS.entries_json s1 = JS.entries_json s.
Proof.
  unfold JS.loadIdentity, JS.readIdentity, JS.generateIdentity, JS.sign_keyPair,
    JS.box_keyPair, JS.randomBytes.
  unfold try_catch, bind, gets, orThrow, ret, throw, modify. simpl.
  destruct (JS.identity_json s) as [[raw|ms]|]; simpl; eauto 10.
  destruct (ms !! "publicKey"%string ≫= decodeBase64); simpl; eauto 10.
  destruct (ms !! "secretKey"%string ≫= decodeBase64); simpl; eauto 10.
  destruct (ms !! "boxPublicKey"%string ≫= decodeBase64); simpl; eauto 10.
  destruct (ms !! "boxSecretKey"%string ≫= decodeBase64); simpl; eauto 10.
Qed.

Lemma js_initialize_entries (salt iso : string) (f : option FileData)
    (stored : option (list DiaryEntry)) (now : Z) :
  JS.entries (exec (JS.initialize iso now) (JS.construct salt f stored))
  = default [mkEntry 1 "Trust Diary Service started" now "Service"] stored.
Proof.
  destruct (js_loadIdentity_returns iso (JS.construct salt f stored))
    as (s1 & i & Hl & Hi & He & Hj).
  unfold JS.initialize. rewrite exec_bind, Hl, exec_bind.
  assert (Hle : JS.loadEntries now s1 =
                (Return tt,
                 match stored with
                 | Some es => JS.with_entries es s1
                 | None =>
                     JS.with_entries_json
                       (Some [mkEntry 1 "Trust Diary Service started" now "Service"])
                       (JS.with_entries
                          [mkEntry 1 "Trust Diary Service started" now "Service"] s1)
                 end)).
  { unfold JS.loadEntries, JS.saveEntries, bind, gets, modify. rewrite Hj. simpl.
    by destruct stored. }
  rewrite Hle, exec_bind.
  destruct stored as [es|]; rewrite (js_generateRoomId_eq _ i) by done; done.
Qed.

(** Every log the Node service holds, started on an empty data directory,
    counts its ids from one, and is the log of its entries file. *)
Lemma js_reachable_log (s : JS.Service) :
  js_reachable s -> log_wf (JS.entries s).
Proof.
  induction 1 as [salt f iso now | s ev Hr IH].
  - rewrite js_initialize_entries. simpl.
    intros [|i] e Hi; simpl in Hi; by simplify_eq.
  - rewrite js_entries_step. destruct ev; try done; by apply log_wf_snoc.
Qed.

Lemma go_initialize_entries (iso : string) (f : option FileData) (now : Z) :
  Go.entries (exec (Go.Initialize iso now) (Go.NewTrustDiaryService f None))
  = [] \/
  Go.entries (exec (Go.Initialize iso now) (Go.NewTrustDiaryService f None))
  = [mkEntry 1 "Trust Diary Service started" now "Service"].
Proof.
  unfold Go.Initialize, Go.loadOrGenerateIdentity, Go.generateIdentity,
    Go.rand_Read, Go.loadEntries, Go.saveEntries, Go.generateRoomID, Go.getIdentity.
  unfold exec, bind, gets, modify, orThrow, ret, throw. simpl.
  destruct f as [[raw|ms]|]; simpl; [by left| |];
    (match goal with |- context [if ?b then _ else _] => destruct b end);
    simpl; by right.
Qed.

Lemma go_reachable_log (s : Go.Service) :
  go_reachable s -> log_wf (Go.entries s).
Proof.
  induction 1 as [f iso now | s ev Hr IH].
  - destruct (go_initialize_entries iso f now) as [-> | ->].
    + intros i e Hi. done.
    + intros [|i] e Hi; simpl in Hi; by simplify_eq.
  - rewrite go_entries_step. destruct ev; try done; by apply log_wf_snoc.
Qed.

End Log.

(** C7. In both services an append gives the new entry the id
    [length of the log + 1], stamps it with the time of the call, and puts
    it at the end of the log. On a log whose ids count from one in log
    order (the log a service starts with on an empty data directory, and
    every log an append makes of such a log) that id is above the id of
    every entry already there. No event of either service removes or
    changes an entry: the log before an event is a prefix of the log
    after it. *)
Theorem C7_append_only_log `{Primitives} :
  (forall (s : JS.Service) (content : string) (now : Z),
      log_wf (JS.entries s) ->
      let e := js_new_entry s content now in
      JS.entries (JS.step s (JS.post_api_entries content now)) = JS.entries s ++ [e]
      /\ JS.entries (JS.step s (JS.ws_add_entry content now)) = JS.entries s ++ [e]
      /\ (forall e0, e0 ∈ JS.entries s -> id e0 < id e)
      /\ timestamp e = now
      /\ log_wf (JS.entries s ++ [e]))
  /\ (forall (s : Go.Service) (content : string) (now : Z),
      log_wf (Go.entries s) ->
      let e := go_new_entry s content now in
      Go.entries (Go.step s (Go.POST_api_entries content now)) = Go.entries s ++ [e]
      /\ (forall e0, e0 ∈ Go.entries s -> id e0 < id e)
      /\ timestamp e = now
      /\ log_wf (Go.entries s ++ [e]))
  /\ (forall (s : JS.Service) (ev : JS.Event),
      JS.entries s `prefix_of` JS.entries (JS.step s ev))
  /\ (forall (s : Go.Service) (ev : Go.Event),
      Go.entries s `prefix_of` Go.entries (Go.step s ev))
  /\ (forall s : JS.Service, js_reachable s -> log_wf (JS.entries s))
  /\ (forall s : Go.Service, go_reachable s -> log_wf (Go.entries s)).
Proof.
  split_and!.
  - intros s content now Hwf e. split_and!.
    + by rewrite js_entries_step.
    + by rewrite js_entries_step.
    + intros e0 He0. pose proof (log_wf_id_bound _ _ Hwf He0). simpl. lia.
    + done.
    + by apply log_wf_snoc.
  - intros s content now Hwf e. split_and!.
    + by rewrite go_entries_step.
    + intros e0 He0. pose proof (log_wf_id_bound _ _ Hwf He0). simpl. lia.
    + done.
    + by apply log_wf_snoc.
  - intros s ev. rewrite js_entries_step.
    destruct ev; try done; by apply prefix_app_r.
  - intros s ev. rewrite go_entries_step.
    destruct ev; try done; by apply prefix_app_r.
  - apply js_reachable_log.
  - apply go_reachable_log.
Qed.

Lemma C7_witness :
  log_wf (JS.entries Demo.js_joined)
  /\ JS.entries (JS.step (H := Demo.primitives) Demo.js_joined
                   (JS.post_api_entries "Dear diary" 1300))
     = JS.entries Demo.js_joined ++ [js_new_entry Demo.js_joined "Dear diary" 1300].
Proof.
  assert (H1 : log_wf (JS.entries Demo.js_joined)).
  { intros [|i] e Hi; vm_compute in Hi; by simplify_eq. }
  split; [exact H1|].
  exact (proj1 (proj1 (C7_append_only_log (H := Demo.primitives))
                  Demo.js_joined "Dear diary"%string 1300 H1)).
Defined.

(* ===================================================================== *)
(** ** The trust store *)
(* ===================================================================== *)

Section TrustStore.
Context `{Primitives}.

Lemma js_step_addTrusted (s : JS.Service) (req : JS.TrustRequest) (now : Z) :
  JS.step s (JS.post_api_trusted req now) =
  JS.with_trustedKeys
    (<[JS.req_publicKey req := js_trust_record req now]> (JS.trustedKeys s)) s.
Proof. reflexivity. Qed.

Lemma go_step_addTrusted (s : Go.Service) (user : Go.TrustedUser) (now : Z) :
  Go.step s (Go.POST_api_trusted user now) =
  Go.with_trustedUsers
    (<[Go.user_PublicKey user := go_trust_record user now]> (Go.trustedUsers s)) s.
Proof.
  unfold Go.step, Go.handle, Go.handleAddTrusted, exec, modify, go_trust_record.
  simpl. by destruct (Go.Permissions user).
Qed.

End TrustStore.

(** C8 as stated fails on the Node service: the same add, performed at
    time 1100 and again at time 1200, leaves a store whose record for the
    key is stamped 1200, which is not the store one add at 1100 leaves. *)
Lemma C8_counterexample :
  JS.trustedKeys
    (JS.run (H := Demo.primitives) Demo.js_started
       [JS.post_api_trusted Demo.trust_alice 1100;
        JS.post_api_trusted Demo.trust_alice 1200])
  <> JS.trustedKeys
       (JS.run (H := Demo.primitives) Demo.js_started
          [JS.post_api_trusted Demo.trust_alice 1100]).
Proof.
  intros Heq.
  apply (f_equal (fun m => JS.trustedAt <$> m !! JS.req_publicKey Demo.trust_alice))
    in Heq.
  vm_compute in Heq. discriminate.
Qed.

(** C8, as the code has it. In both services the add is an upsert keyed
    by the signing public key: it stores under that key a record with the
    box key, name and permissions of the request, stamped with the time of
    the add; it leaves the other keys alone; under a key that is already
    present it replaces the record without growing the store. Adding twice
    leaves the store that the second add alone leaves: the same as one add
    except that [trustedAt] is the time of the later add (and exactly the
    same when both adds read the same time). *)
Theorem C8_trust_add_is_upsert `{Primitives} :
  (forall (s : JS.Service) (req : JS.TrustRequest) (t1 t2 : Z),
      let s1 := JS.step s (JS.post_api_trusted req t1) in
      JS.trustedKeys s1 !! JS.req_publicKey req = Some (js_trust_record req t1)
      /\ JS.boxPublicKey (js_trust_record req t1) = JS.req_boxPublicKey req
      /\ (forall k, k <> JS.req_publicKey req ->
                    JS.trustedKeys s1 !! k = JS.trustedKeys s !! k)
      /\ (is_Some (JS.trustedKeys s !! JS.req_publicKey req) ->
          size (JS.trustedKeys s1) = size (JS.trustedKeys s))
      /\ JS.step s1 (JS.post_api_trusted req t2)
         = JS.step s (JS.post_api_trusted req t2)
      /\ (forall req', JS.req_publicKey req' = JS.req_publicKey req ->
            JS.step (JS.step s (JS.post_api_trusted req' t1))
              (JS.post_api_trusted req t2)
            = JS.step s (JS.post_api_trusted req t2)))
  /\ (forall (s : Go.Service) (user : Go.TrustedUser) (t1 t2 : Z),
      let s1 := Go.step s (Go.POST_api_trusted user t1) in
      Go.trustedUsers s1 !! Go.user_PublicKey user = Some (go_trust_record user t1)
      /\ Go.user_BoxPublicKey (go_trust_record user t1) = Go.user_BoxPublicKey user
      /\ (forall k, k <> Go.user_PublicKey user ->
                    Go.trustedUsers s1 !! k = Go.trustedUsers s !! k)
      /\ (is_Some (Go.trustedUsers s !! Go.user_PublicKey user) ->
          size (Go.trustedUsers s1) = size (Go.trustedUsers s))
      /\ Go.step s1 (Go.POST_api_trusted user t2)
         = Go.step s (Go.POST_api_trusted user t2)
      /\ (forall user', Go.user_PublicKey user' = Go.user_PublicKey user ->
            Go.step (Go.step s (Go.POST_api_trusted user' t1))
              (Go.POST_api_trusted user t2)
            = Go.step s (Go.POST_api_trusted user t2))).
Proof.
  split.
  - intros s req t1 t2 s1. subst s1. rewrite !js_step_addTrusted. split_and!.
    + simpl. apply lookup_insert_eq.
    + done.
    + intros k Hk. simpl. by rewrite lookup_insert_ne.
    + intros [v Hv]. simpl.
      rewrite <- (insert_delete_id _ _ _ Hv) at 2.
      rewrite <- (insert_delete_eq (JS.trustedKeys s)).
      rewrite !map_size_insert_None by apply lookup_delete_eq. done.
    + unfold JS.with_trustedKeys. simpl. by rewrite insert_insert_eq.
    + intros req' Hk. rewrite !js_step_addTrusted.
      unfold JS.with_trustedKeys. simpl. by rewrite Hk, insert_insert_eq.
  - intros s user t1 t2 s1. subst s1. rewrite !go_step_addTrusted. split_and!.
    + simpl. apply lookup_insert_eq.
    + done.
    + intros k Hk. simpl. by rewrite lookup_insert_ne.
    + intros [v Hv]. simpl.
      rewrite <- (insert_delete_id _ _ _ Hv) at 2.
      rewrite <- (insert_delete_eq (Go.trustedUsers s)).
      rewrite !map_size_insert_None by apply lookup_delete_eq. done.
    + unfold Go.with_trustedUsers. simpl. by rewrite insert_insert_eq.
    + intros user' Hk. rewrite !go_step_addTrusted.
      unfold Go.with_trustedUsers. simpl. by rewrite Hk, insert_insert_eq.
Qed.

Lemma C8_witness :
  is_Some (JS.trustedKeys Demo.js_joined !! JS.req_publicKey Demo.trust_alice)
  /\ size (JS.trustedKeys
             (JS.step (H := Demo.primitives) Demo.js_joined
                (JS.post_api_trusted Demo.trust_alice 1500)))
     = size (JS.trustedKeys Demo.js_joined).
Proof.
  assert (H1 : is_Some (JS.trustedKeys Demo.js_joined
                          !! JS.req_publicKey Demo.trust_alice)).
  { exists Demo.alice_info. vm_compute. reflexivity. }
  split; [exact H1|].
  exact (proj1 (proj2 (proj2 (proj2
           (proj1 (C8_trust_add_is_upsert (H := Demo.primitives))
              Demo.js_joined Demo.trust_alice 1500 1600)))) H1).
Defined.

(* ===================================================================== *)
(** ** The identity across restarts *)
(* ===================================================================== *)
Section IdentityRestart.
Context `{Primitives}.

(** The identity file [loadIdentity] writes is read back as the identity it
    was written from. *)
Lemma js_toStore_read (salt iso iso' : string) (i : JS.Identity)
    (logfile : option (list DiaryEntry)) :
  let s := JS.construct salt (Some (JS.toStore i iso)) logfile in
  JS.loadIdentity iso' s = (Return tt, JS.with_identity (Some i) s).
Proof.
  intros s. destruct i as [[pk sk] [bpk bsk]].
  apply (js_complete_identity_file salt iso' _ logfile pk sk bpk bsk);
    unfold JS.toStore; cbn [list_to_map foldr fst snd JS.publicKey JS.secretKey
      JS.keyPair JS.boxKeyPair curry].
  all: repeat (rewrite lookup_insert_ne by done).
  all: rewrite lookup_insert_eq; cbn [mbind option_bind];
    apply decodeBase64_encodeBase64.
Qed.

(** [loadIdentity] either finds four keys in the file or generates. *)
Lemma js_loadIdentity_cases (salt iso : string) (f : option FileData)
    (logfile : option (list DiaryEntry)) :
  let s := JS.construct salt f logfile in
  (exists ms pk sk bpk bsk,
      f = Some (JsonObject ms)
      /\ ms !! "publicKey"%string ≫= decodeBase64 = Some pk
      /\ ms !! "secretKey"%string ≫= decodeBase64 = Some sk
      /\ ms !! "boxPublicKey"%string ≫= decodeBase64 = Some bpk
      /\ ms !! "boxSecretKey"%string ≫= decodeBase64 = Some bsk)
  \/ (JS.identity (exec (JS.loadIdentity iso) s) = Some (js_generated 0)
      /\ JS.identity_json (exec (JS.loadIdentity iso) s)
         = Some (JS.toStore (js_generated 0) iso)).
Proof.
  intros s. destruct f as [[raw|ms]|]; [right; done| |right; done].
  destruct (ms !! "publicKey"%string ≫= decodeBase64) as [pk|] eqn:H1;
    [|right; apply (js_partial_identity_file salt iso ms logfile); auto].
  destruct (ms !! "secretKey"%string ≫= decodeBase64) as [sk|] eqn:H2;
    [|right; apply (js_partial_identity_file salt iso ms logfile); auto].
  destruct (ms !! "boxPublicKey"%string ≫= decodeBase64) as [bpk|] eqn:H3;
    [|right; apply (js_partial_identity_file salt iso ms logfile); auto].
  destruct (ms !! "boxSecretKey"%string ≫= decodeBase64) as [bsk|] eqn:H4;
    [|right; apply (js_partial_identity_file salt iso ms logfile); auto].
  left. by exists ms, pk, sk, bpk, bsk.
Qed.

End IdentityRestart.

(** X1. The identity of the Node service survives a restart. Whatever
    [identity.json] held when the service first ran [loadIdentity] (nothing,
    a text that is not JSON, an object with keys missing, a complete
    object), the service has an identity afterwards, and a service started
    anew on the file the first one left behind, under any salt and at any
    time, loads that same identity and returns normally, without drawing
    randomness and without writing the file. *)
Theorem js_identity_survives_restart `{Primitives} (salt salt' iso iso' : string)
    (f : option FileData) (logfile logfile' : option (list DiaryEntry)) :
  let s0 := exec (JS.loadIdentity iso) (JS.construct salt f logfile) in
  let s1 := JS.construct salt' (JS.identity_json s0) logfile' in
  is_Some (JS.identity s0)
  /\ JS.loadIdentity iso' s1 = (Return tt, JS.with_identity (JS.identity s0) s1).
Proof.
  intros s0 s1. subst s0 s1.
  destruct (js_loadIdentity_cases salt iso f logfile)
    as [(ms & pk & sk & bpk & bsk & -> & H1 & H2 & H3 & H4)|[Hi Hf]].
  - unfold exec.
    rewrite (js_complete_identity_file salt iso ms logfile pk sk bpk bsk) by done.
    cbn [snd JS.with_identity JS.identity JS.identity_json JS.construct].
    split; [by eexists|].
    by apply (js_complete_identity_file salt' iso' ms logfile' pk sk bpk bsk).
  - rewrite Hi, Hf. split; [by eexists|]. apply js_toStore_read.
Qed.

Section GoIdentityRestart.
Context `{Primitives}.

Lemma go_DecodeString_encodeBase64 (bs : list byte) :
  Go.DecodeString_ (encodeBase64 bs) = bs.
Proof. unfold Go.DecodeString_. by rewrite decodeBase64_encodeBase64. Qed.

Lemma go_copy32_full (bs : list byte) : length bs = 32%nat -> Go.copy32 bs = bs.
Proof.
  intros Hl. unfold Go.copy32. rewrite take_app_le by lia.
  apply take_ge. lia.
Qed.

Lemma go_copy32_length (bs : list byte) : length (Go.copy32 bs) = 32%nat.
Proof.
  unfold Go.copy32. rewrite length_take, length_app, length_replicate. lia.
Qed.

Lemma go_stored_lookup (k v : string) (ms : gmap string string) :
  ms !! k = Some v -> Go.stored_string k ms = v.
Proof. unfold Go.stored_string. by intros ->. Qed.

End GoIdentityRestart.

(** X2. The identity of the Go services survives a restart, given that
    the box public key derived from a 32-byte secret is 32 bytes long. In
    [go-service], running [loadOrGenerateIdentity] on a fresh service over
    the [identity.json] a first run left behind yields the identity of the
    first run, leaves the file as it was and reads no randomness; the same
    holds of the four keys of [loadOrCreateIdentity] in the Nostr
    service. *)
Theorem go_identity_survives_restart `{Primitives} :
  (forall sk, length sk = 32%nat -> length (scalarMult_base sk) = 32%nat) ->
  (forall (f : option FileData) (iso iso' : string)
          (logfile logfile' : option Go.EntriesFile),
      let s0 := exec (Go.loadOrGenerateIdentity iso) (Go.NewTrustDiaryService f logfile) in
      let s1 := exec (Go.loadOrGenerateIdentity iso')
                  (Go.NewTrustDiaryService (Go.identity_json s0) logfile') in
      Go.identity s1 = Go.identity s0
      /\ Go.identity_json s1 = Go.identity_json s0
      /\ Go.rng s1 = 0%nat)
  /\ (forall f : option FileData,
      let g0 := exec GoNostr.loadOrCreateIdentity (nostr_new f) in
      let g1 := exec GoNostr.loadOrCreateIdentity (nostr_new (GoNostr.identity_json g0)) in
      GoNostr.signPublicKey g1 = GoNostr.signPublicKey g0
      /\ GoNostr.signPrivateKey g1 = GoNostr.signPrivateKey g0
      /\ GoNostr.boxPublicKey g1 = GoNostr.boxPublicKey g0
      /\ GoNostr.boxPrivateKey g1 = GoNostr.boxPrivateKey g0
      /\ GoNostr.identity_json g1 = GoNostr.identity_json g0
      /\ GoNostr.rng g1 = 0%nat).
Proof.
  intros Hbox. split.
  - intros f iso iso' logfile logfile' s0 s1. subst s0 s1.
    destruct f as [[raw|ms]|]; [done|done|].
    unfold Go.loadOrGenerateIdentity, Go.NewTrustDiaryService,
      Go.generateIdentity, Go.rand_Read, exec, bind, gets, modify, ret.
    cbn [fst snd Go.identity_json Go.with_identity Go.with_identity_json Go.with_rng
         Go.rng Go.identity Go.trustedUsers Go.entries Go.connections
         Go.dataChannels Go.roomSalt Go.roomID Go.entries_json Go.sent].
    split; [|done]. f_equal. unfold Go.stored_string.
    cbn [list_to_map foldr fst snd curry].
    repeat first [rewrite lookup_insert_eq | rewrite lookup_insert_ne by done].
    cbn [default from_option id Datatypes.id]. rewrite !go_DecodeString_encodeBase64.
    rewrite !go_copy32_full; [done| |].
    + apply tape_read_length.
    + apply Hbox, tape_read_length.
  - intros f g0 g1. subst g0 g1.
    destruct f as [[raw|ms]|]; [done|done|].
    unfold GoNostr.loadOrCreateIdentity, nostr_new, GoNostr.rand_Read,
      GoNostr.setKeys, GoNostr.writeIdentity, exec, bind, gets, modify, ret.
    cbn [fst snd GoNostr.identity_json GoNostr.rng GoNostr.signPublicKey
         GoNostr.signPrivateKey GoNostr.boxPublicKey GoNostr.boxPrivateKey].
    unfold Go.stored_string. cbn [list_to_map foldr fst snd curry].
    repeat first [rewrite lookup_insert_eq | rewrite lookup_insert_ne by done].
    cbn [default from_option id Datatypes.id].
    by rewrite !go_DecodeString_encodeBase64.
Qed.

Lemma go_identity_survives_restart_witness :
  (forall sk, length sk = 32%nat ->
              length (scalarMult_base (Primitives := Demo.primitives) sk) = 32%nat)
  /\ (let s0 := exec (Go.loadOrGenerateIdentity (H := Demo.primitives) "2025-01-01T00:00:00Z")
                  (Go.NewTrustDiaryService None None) in
      let s1 := exec (Go.loadOrGenerateIdentity (H := Demo.primitives) "2025-02-02T00:00:00Z")
                  (Go.NewTrustDiaryService (Go.identity_json s0) None) in
      Go.identity s1 = Go.identity s0
      /\ Go.identity_json s1 = Go.identity_json s0
      /\ Go.rng s1 = 0%nat).
Proof.
  assert (H1 : forall sk, length sk = 32%nat ->
                 length (scalarMult_base (Primitives := Demo.primitives) sk) = 32%nat).
  { intros sk Hsk. cbn. by rewrite length_reverse. }
  split; [exact H1|].
  exact (proj1 (go_identity_survives_restart (H := Demo.primitives) H1)
           None "2025-01-01T00:00:00Z"%string "2025-02-02T00:00:00Z"%string None None).
Defined.

(* ===================================================================== *)
(** ** Who receives an entry in the Go service *)
(* ===================================================================== *)
Section GoBroadcast.
Context `{Primitives}.

Lemma go_broadcastTo_eq (e : DiaryEntry) (p : string) (conn : Go.Connection)
    (s : Go.Service) :
  Go.broadcastTo e (p, conn) s =
  (Return tt,
   if Go.Authenticated conn && bool_decide (p ∈ Go.dataChannels s)
   then Go.with_sent (Go.sent s ++ [(p, Go.entryMsg e)]) s else s).
Proof.
  unfold Go.broadcastTo, Go.SendText, bind, gets, modify, ret.
  destruct (Go.Authenticated conn); [|done]. simpl.
  by destruct (bool_decide (p ∈ Go.dataChannels s)).
Qed.

Lemma go_broadcast_loop (e : DiaryEntry) (l : list (string * Go.Connection))
    (s : Go.Service) :
  forEach (Go.broadcastTo e) l s =
  (Return tt,
   Go.with_sent
     (Go.sent s ++
      map (fun kv => (kv.1, Go.entryMsg e))
        (List.filter (fun kv : string * Go.Connection =>
                        Go.Authenticated kv.2
                        && bool_decide (kv.1 ∈ Go.dataChannels s)) l)) s).
Proof.
  revert s. induction l as [|[p conn] l IH]; intros s.
  - cbn [forEach List.filter map]. unfold ret. by rewrite go_with_sent_id.
  - cbn [forEach]. unfold bind at 1. rewrite go_broadcastTo_eq.
    rewrite IH. cbn [List.filter fst snd].
    destruct (Go.Authenticated conn && bool_decide (p ∈ Go.dataChannels s)); [|done].
    cbn [map fst]. unfold Go.with_sent. cbn. by rewrite <- app_assoc.
Qed.

Lemma go_broadcastEntry_eq (e : DiaryEntry) (s : Go.Service) :
  Go.broadcastEntry e s =
  (Return tt,
   Go.with_sent
     (Go.sent s ++
      map (fun kv => (kv.1, Go.entryMsg e))
        (List.filter (fun kv : string * Go.Connection =>
                        Go.Authenticated kv.2
                        && bool_decide (kv.1 ∈ Go.dataChannels s))
           (map_to_list (Go.connections s)))) s).
Proof. unfold Go.broadcastEntry, bind, gets. apply go_broadcast_loop. Qed.

(** Among pairs with distinct first components, the messages for [p]. *)
Lemma go_entries_for_absent (e : DiaryEntry) (p : string)
    (f : string * Go.Connection -> bool) (l : list (string * Go.Connection)) :
  p ∉ l.*1 ->
  go_entries_for p (map (fun kv => (kv.1, Go.entryMsg e)) (List.filter f l)) = [].
Proof.
  unfold go_entries_for. induction l as [|[r d] l IH]; intros Hp; [done|].
  cbn in Hp. apply not_elem_of_cons in Hp as [Hne Hp].
  cbn [List.filter]. destruct (f (r, d)); cbn [map List.filter go_is_entry_for fst].
  - rewrite bool_decide_false by done. by apply IH.
  - by apply IH.
Qed.

Lemma go_entries_for_present (e : DiaryEntry) (p : string) (c : Go.Connection)
    (f : string * Go.Connection -> bool) (l : list (string * Go.Connection)) :
  NoDup l.*1 -> (p, c) ∈ l ->
  go_entries_for p (map (fun kv => (kv.1, Go.entryMsg e)) (List.filter f l)) =
  if f (p, c) then [(p, Go.entryMsg e)] else [].
Proof.
  induction l as [|[q d] l IH]; intros Hnd Hin; [by apply elem_of_nil in Hin|].
  cbn in Hnd. apply NoDup_cons in Hnd as [Hq Hnd].
  apply elem_of_cons in Hin as [[= <- <-]|Hin].
  - pose proof (go_entries_for_absent e p f l Hq) as Hrest.
    unfold go_entries_for in *. cbn [List.filter].
    destruct (f (p, c)); cbn [map List.filter go_is_entry_for fst]; [|done].
    rewrite bool_decide_true by done. by rewrite Hrest.
  - assert (q <> p) as Hne.
    { intros ->. apply Hq. apply list_elem_of_fmap. by exists (p, c). }
    specialize (IH Hnd Hin). unfold go_entries_for in *. cbn [List.filter].
    destruct (f (q, d)); cbn [map List.filter go_is_entry_for fst]; [|done].
    by rewrite bool_decide_false by done.
Qed.

End GoBroadcast.

Section GoSessions.
Context `{Primitives}.

(** The messages of one broadcast that go to [p]. *)
Lemma go_broadcast_for (e : DiaryEntry) (s : Go.Service) (p : string) :
  go_entries_for p
    (map (fun kv => (kv.1, Go.entryMsg e))
       (List.filter (fun kv : string * Go.Connection =>
                       Go.Authenticated kv.2
                       && bool_decide (kv.1 ∈ Go.dataChannels s))
          (map_to_list (Go.connections s))))
  = if go_recipient s p then [(p, Go.entryMsg e)] else [].
Proof.
  unfold go_recipient.
  pose proof (NoDup_fst_map_to_list (Go.connections s)) as Hnd.
  destruct (Go.connections s !! p) as [conn|] eqn:Hc.
  - apply elem_of_map_to_list in Hc.
    by rewrite (go_entries_for_present e p conn _ _ Hnd Hc).
  - apply go_entries_for_absent. intros Hin.
    apply list_elem_of_fmap in Hin as ([q c] & -> & Hin).
    apply elem_of_map_to_list in Hin. simpl in Hc. congruence.
Qed.

Lemma go_entries_for_app (p : string) (l1 l2 : list (string * Go.Wire)) :
  go_entries_for p (l1 ++ l2) = go_entries_for p l1 ++ go_entries_for p l2.
Proof. apply List.filter_app. Qed.

(** What an append writes on the channel of [p]. *)
Lemma go_addEntry_for (s : Go.Service) (p content : string) (now : Z) :
  go_entries_for p (Go.sent (Go.step s (Go.POST_api_entries content now)))
  = go_entries_for p (Go.sent s)
    ++ (if go_recipient s p then [(p, Go.entryMsg (go_new_entry s content now))]
        else []).
Proof.
  rewrite go_step_addEntry. unfold exec. rewrite go_broadcastEntry_eq.
  cbn [snd Go.with_sent Go.sent].
  rewrite go_entries_for_app, go_broadcast_for. done.
Qed.

(** What a [request] writes. *)
Lemma go_request_sent (s : Go.Service) (p : string) (msg : Go.Message) :
  Go.msg_type msg = "request"%string ->
  Go.sent (Go.step s (Go.OnMessage p (Some msg)))
  = Go.sent s ++ (if go_recipient s p
                  then map (fun e => (p, Go.entryMsg e)) (Go.entries s) else []).
Proof.
  intros Hty. unfold Go.step, Go.handle, Go.handleDataChannelMessage.
  rewrite Hty. cbn [String.eqb Ascii.eqb Bool.eqb].
  unfold Go.handleEntryRequest, exec, bind, gets, go_recipient. cbn [fst snd].
  destruct (Go.connections s !! p) as [conn|] eqn:Hc;
    [|cbn; by rewrite app_nil_r].
  destruct (Go.Authenticated conn) eqn:Ha; cbn [negb andb];
    [|cbn; by rewrite app_nil_r].
  rewrite go_sendEntriesToPeer_eq, Hc, Ha. cbn [snd].
  destruct (bool_decide (p ∈ Go.dataChannels s)); cbn [andb]; [done|].
  by rewrite app_nil_r.
Qed.

End GoSessions.

(** X3. [broadcastEntry] of the Go service never panics and writes the
    entry, in clear, exactly once on the data channel of every peer whose
    connection has the [Authenticated] flag and that has a data channel,
    and writes nothing else: nothing for any other peer, and nothing but
    this entry. The rest of the state is unchanged. *)
Theorem go_broadcast_exactly_once `{Primitives} (e : DiaryEntry) (s : Go.Service) :
  exists l,
    Go.broadcastEntry e s = (Return tt, Go.with_sent (Go.sent s ++ l) s)
    /\ Forall (fun m => m.2 = Go.entryMsg e) l
    /\ forall p, go_entries_for p l
                 = if go_recipient s p then [(p, Go.entryMsg e)] else [].
Proof.
  eexists. split; [apply go_broadcastEntry_eq|]. split.
  - apply Forall_forall. intros m Hm. apply list_elem_of_In, in_map_iff in Hm.
    by destruct Hm as (kv & <- & _).
  - intros p. apply go_broadcast_for.
Qed.

(** X4. Removing a key from the trust store of the Go service does not end
    the sessions authenticated under it. For a peer that is authenticated
    and has a data channel, after [DELETE /api/trusted/{key}] for any key
    (its own included) the key is gone from [trustedUsers], the connection
    is as before, an entry added afterwards is still written to the peer,
    and a [request] of the peer is still answered with the whole log. *)
Theorem go_revocation_keeps_session `{Primitives} (s : Go.Service)
    (p key content : string) (conn : Go.Connection) (now : Z) (msg : Go.Message) :
  Go.connections s !! p = Some conn ->
  Go.Authenticated conn = true ->
  p ∈ Go.dataChannels s ->
  Go.msg_type msg = "request"%string ->
  let s1 := Go.step s (Go.DELETE_api_trusted key) in
  Go.trustedUsers s1 !! key = None
  /\ Go.connections s1 !! p = Some conn
  /\ go_entries_for p (Go.sent (Go.step s1 (Go.POST_api_entries content now)))
     = go_entries_for p (Go.sent s)
       ++ [(p, Go.entryMsg (go_new_entry s content now))]
  /\ Go.sent (Go.step s1 (Go.OnMessage p (Some msg)))
     = Go.sent s ++ map (fun e => (p, Go.entryMsg e)) (Go.entries s).
Proof.
  intros Hc Ha Hdc Hty s1.
  assert (Hs1 : s1 = Go.with_trustedUsers (delete key (Go.trustedUsers s)) s) by done.
  assert (Hr : go_recipient s1 p = true).
  { unfold go_recipient. rewrite Hs1. cbn. rewrite Hc, Ha. by apply bool_decide_eq_true. }
  split; [rewrite Hs1; apply lookup_delete_eq|].
  split; [by rewrite Hs1|]. split.
  - rewrite go_addEntry_for, Hr. by rewrite Hs1.
  - rewrite go_request_sent, Hr by done. by rewrite Hs1.
Qed.

Lemma go_revocation_keeps_session_witness :
  Go.connections Demo.go_served !! Demo.go_peer = Some Demo.go_served_conn
  /\ Go.Authenticated Demo.go_served_conn = true
  /\ Demo.go_peer ∈ Go.dataChannels Demo.go_served
  /\ Go.msg_type Demo.go_request = "request"%string
  /\ Go.trustedUsers (Go.step (H := Demo.primitives) Demo.go_served
                        (Go.DELETE_api_trusted (encodeBase64 Demo.alice)))
       !! encodeBase64 Demo.alice = None
  /\ Go.connections (Go.step (H := Demo.primitives) Demo.go_served
                       (Go.DELETE_api_trusted (encodeBase64 Demo.alice)))
       !! Demo.go_peer = Some Demo.go_served_conn
  /\ go_entries_for Demo.go_peer
       (Go.sent (Go.step (H := Demo.primitives)
                   (Go.step (H := Demo.primitives) Demo.go_served
                      (Go.DELETE_api_trusted (encodeBase64 Demo.alice)))
                   (Go.POST_api_entries "Dear diary" 1300)))
     = go_entries_for Demo.go_peer (Go.sent Demo.go_served)
       ++ [(Demo.go_peer, Go.entryMsg (go_new_entry Demo.go_served "Dear diary" 1300))]
  /\ Go.sent (Go.step (H := Demo.primitives)
                (Go.step (H := Demo.primitives) Demo.go_served
                   (Go.DELETE_api_trusted (encodeBase64 Demo.alice)))
                (Go.OnMessage Demo.go_peer (Some Demo.go_request)))
     = Go.sent Demo.go_served
       ++ map (fun e => (Demo.go_peer, Go.entryMsg e)) (Go.entries Demo.go_served).
Proof.
  assert (H1 : Go.connections Demo.go_served !! Demo.go_peer
               = Some Demo.go_served_conn) by (vm_compute; reflexivity).
  assert (H2 : Go.Authenticated Demo.go_served_conn = true) by reflexivity.
  assert (H3 : Demo.go_peer ∈ Go.dataChannels Demo.go_served).
  { apply (bool_decide_unpack _). vm_compute. exact I. }
  assert (H4 : Go.msg_type Demo.go_request = "request"%string) by reflexivity.
  split; [exact H1|]. split; [exact H2|]. split; [exact H3|]. split; [exact H4|].
  exact (go_revocation_keeps_session (H := Demo.primitives) Demo.go_served Demo.go_peer
           (encodeBase64 Demo.alice) "Dear diary" Demo.go_served_conn 1300
           Demo.go_request H1 H2 H3 H4).
Defined.

(** *** Data channels that close, reopen, or outlive their connection *)
Section GoChannels.
Context `{Primitives}.

Lemma go_onClose_eq (s : Go.Service) (p : string) (conn : Go.Connection) :
  Go.connections s !! p = Some conn ->
  Go.onClose p s =
  (Return tt,
   Go.with_connections
     (<[p := Go.mkConnection (Go.ID conn) "disconnected" (Go.conn_PublicKey conn)
               (Go.Name conn) (Go.Challenge conn) (Go.Authenticated conn)]>
        (Go.connections s))
     (Go.with_dataChannels (Go.dataChannels s ∖ {[p]}) s)).
Proof.
  intros Hc. unfold Go.onClose, Go.getConnection, Go.setConnection.
  unfold bind, gets, modify, orThrow, ret. cbn. by rewrite Hc.
Qed.

Lemma go_onDataChannel_eq (s : Go.Service) (p : string) (conn : Go.Connection) :
  Go.connections s !! p = Some conn ->
  Go.onDataChannel p s =
  (Return tt,
   Go.with_connections
     (<[p := Go.mkConnection (Go.ID conn) "connected" (Go.conn_PublicKey conn)
               (Go.Name conn) (Go.Challenge conn) (Go.Authenticated conn)]>
        (Go.connections s))
     (Go.with_dataChannels ({[p]} ∪ Go.dataChannels s) s)).
Proof.
  intros Hc. unfold Go.onDataChannel, Go.getConnection, Go.setConnection.
  unfold bind, gets, modify, orThrow, ret. cbn. by rewrite Hc.
Qed.

(** [sendAuthChallenge] changes the challenge of the connection and
    nothing else of it. *)
Lemma go_sendAuthChallenge_conn (s : Go.Service) (p : string) (conn : Go.Connection) :
  Go.connections s !! p = Some conn ->
  let s' := exec (Go.sendAuthChallenge p) s in
  Go.connections s' =
    <[p := Go.mkConnection (Go.ID conn) (Go.State conn) (Go.conn_PublicKey conn)
             (Go.Name conn) (Some (tape_read (Go.rng s) 32)) (Go.Authenticated conn)]>
      (Go.connections s)
  /\ Go.dataChannels s' = Go.dataChannels s
  /\ Go.entries s' = Go.entries s
  /\ Go.trustedUsers s' = Go.trustedUsers s.
Proof.
  intros Hc. unfold Go.sendAuthChallenge, Go.rand_Read, Go.getConnection,
    Go.setConnection, Go.getIdentity, Go.SendText.
  unfold exec, bind, gets, modify, orThrow, ret, throw. cbn. rewrite Hc. cbn.
  by destruct (Go.identity s).
Qed.

End GoChannels.

(** X5. In the Go service the [Authenticated] flag outlives the data
    channel. Once the channel of an authenticated peer has closed, an
    added entry is not written to that peer. When a data channel of the
    same connection opens again, a new challenge is stored, read from the
    entropy tape at the cursor, but the flag is still set: without any
    response to that challenge a [request] is answered with the whole log
    and an added entry is written to the peer. *)
Theorem go_reopened_channel_skips_handshake `{Primitives} (s : Go.Service)
    (p content : string) (conn : Go.Connection) (now : Z) (msg : Go.Message) :
  Go.connections s !! p = Some conn ->
  Go.Authenticated conn = true ->
  Go.msg_type msg = "request"%string ->
  let closed := Go.step s (Go.OnClose p) in
  let reopened := Go.run s [Go.OnClose p; Go.OnDataChannel p; Go.OnOpen p] in
  go_entries_for p (Go.sent (Go.step closed (Go.POST_api_entries content now)))
  = go_entries_for p (Go.sent s)
  /\ (exists conn', Go.connections reopened !! p = Some conn'
                    /\ Go.Challenge conn' = Some (tape_read (Go.rng s) 32)
                    /\ Go.Authenticated conn' = true)
  /\ Go.sent (Go.step reopened (Go.OnMessage p (Some msg)))
     = Go.sent reopened ++ map (fun e => (p, Go.entryMsg e)) (Go.entries s)
  /\ go_entries_for p (Go.sent (Go.step reopened (Go.POST_api_entries content now)))
     = go_entries_for p (Go.sent reopened)
       ++ [(p, Go.entryMsg (go_new_entry s content now))].
Proof.
  intros Hc Ha Hty closed reopened.
  assert (Hclosed : closed = (Go.onClose p s).2) by done.
  rewrite (go_onClose_eq s p conn Hc) in Hclosed. cbn [snd] in Hclosed.
  assert (Hc1 : Go.connections closed !! p
                = Some (Go.mkConnection (Go.ID conn) "disconnected"
                          (Go.conn_PublicKey conn) (Go.Name conn) (Go.Challenge conn)
                          (Go.Authenticated conn))).
  { rewrite Hclosed. cbn. apply lookup_insert_eq. }
  set (s2 := Go.step closed (Go.OnDataChannel p)).
  assert (Hs2 : s2 = (Go.onDataChannel p closed).2) by done.
  rewrite (go_onDataChannel_eq closed p _ Hc1) in Hs2. cbn [snd] in Hs2.
  assert (Hc2 : Go.connections s2 !! p
                = Some (Go.mkConnection (Go.ID conn) "connected"
                          (Go.conn_PublicKey conn) (Go.Name conn) (Go.Challenge conn)
                          (Go.Authenticated conn))).
  { rewrite Hs2. cbn. apply lookup_insert_eq. }
  assert (Hre : reopened = exec (Go.sendAuthChallenge p) s2) by done.
  destruct (go_sendAuthChallenge_conn s2 p _ Hc2) as (Hc3 & Hd3 & He3 & _).
  rewrite <- Hre in Hc3, Hd3, He3.
  assert (Hrng : Go.rng s2 = Go.rng s) by (by rewrite Hs2, Hclosed).
  assert (Hent : Go.entries reopened = Go.entries s).
  { rewrite He3. by rewrite Hs2, Hclosed. }
  assert (Hr : go_recipient reopened p = true).
  { unfold go_recipient. rewrite Hc3, lookup_insert_eq, Hd3. cbn [Go.Authenticated].
    rewrite Ha. apply bool_decide_eq_true. rewrite Hs2. cbn.
    apply elem_of_union_l. by apply elem_of_singleton. }
  split; [|split; [|split]].
  - rewrite go_addEntry_for.
    assert (go_recipient closed p = false) as ->; [|by rewrite app_nil_r, Hclosed].
    unfold go_recipient. rewrite Hc1. cbn [Go.Authenticated]. rewrite Ha.
    apply bool_decide_eq_false. rewrite Hclosed. cbn.
    intros [_ Hn]%elem_of_difference. apply Hn. by apply elem_of_singleton.
  - eexists. rewrite Hc3, lookup_insert_eq. split; [done|].
    cbn [Go.Challenge Go.Authenticated]. by rewrite Hrng.
  - by rewrite go_request_sent, Hr, Hent.
  - rewrite go_addEntry_for, Hr. unfold go_new_entry. by rewrite Hent.
Qed.

Lemma go_reopened_channel_skips_handshake_witness :
  Go.connections Demo.go_served !! Demo.go_peer = Some Demo.go_served_conn
  /\ Go.Authenticated Demo.go_served_conn = true
  /\ Go.msg_type Demo.go_request = "request"%string
  /\ go_entries_for Demo.go_peer
       (Go.sent (Go.step (H := Demo.primitives)
                   (Go.step (H := Demo.primitives) Demo.go_served (Go.OnClose Demo.go_peer))
                   (Go.POST_api_entries "Dear diary" 1300)))
     = go_entries_for Demo.go_peer (Go.sent Demo.go_served)
  /\ (exists conn',
        Go.connections
          (Go.run (H := Demo.primitives) Demo.go_served
             [Go.OnClose Demo.go_peer; Go.OnDataChannel Demo.go_peer;
              Go.OnOpen Demo.go_peer]) !! Demo.go_peer = Some conn'
        /\ Go.Challenge conn'
           = Some (tape_read (H := Demo.primitives) (Go.rng Demo.go_served) 32)
        /\ Go.Authenticated conn' = true)
  /\ Go.sent (Go.step (H := Demo.primitives)
                (Go.run (H := Demo.primitives) Demo.go_served
                   [Go.OnClose Demo.go_peer; Go.OnDataChannel Demo.go_peer;
                    Go.OnOpen Demo.go_peer])
                (Go.OnMessage Demo.go_peer (Some Demo.go_request)))
     = Go.sent (Go.run (H := Demo.primitives) Demo.go_served
                  [Go.OnClose Demo.go_peer; Go.OnDataChannel Demo.go_peer;
                   Go.OnOpen Demo.go_peer])
       ++ map (fun e => (Demo.go_peer, Go.entryMsg e)) (Go.entries Demo.go_served)
  /\ go_entries_for Demo.go_peer
       (Go.sent (Go.step (H := Demo.primitives)
                   (Go.run (H := Demo.primitives) Demo.go_served
                      [Go.OnClose Demo.go_peer; Go.OnDataChannel Demo.go_peer;
                       Go.OnOpen Demo.go_peer])
                   (Go.POST_api_entries "Dear diary" 1300)))
     = go_entries_for Demo.go_peer
         (Go.sent (Go.run (H := Demo.primitives) Demo.go_served
                     [Go.OnClose Demo.go_peer; Go.OnDataChannel Demo.go_peer;
                      Go.OnOpen Demo.go_peer]))
       ++ [(Demo.go_peer, Go.entryMsg (go_new_entry Demo.go_served "Dear diary" 1300))].
Proof.
  assert (H1 : Go.connections Demo.go_served !! Demo.go_peer
               = Some Demo.go_served_conn) by (vm_compute; reflexivity).
  assert (H2 : Go.Authenticated Demo.go_served_conn = true) by reflexivity.
  assert (H3 : Go.msg_type Demo.go_request = "request"%string) by reflexivity.
  split; [exact H1|]. split; [exact H2|]. split; [exact H3|].
  exact (go_reopened_channel_skips_handshake (H := Demo.primitives) Demo.go_served
           Demo.go_peer "Dear diary" Demo.go_served_conn 1300 Demo.go_request H1 H2 H3).
Defined.

(** X6. After the cleanup at the end of [handleWebSocketSignaling] the
    connection of the peer is gone from [connections], and the callbacks
    registered for it no longer find it: [OnClose], [OnDataChannel] and
    the [OnOpen] that sends the challenge dereference the missing
    connection and panic, while a message on the data channel is dropped
    and leaves the state unchanged. *)
Theorem go_callback_after_cleanup_panics `{Primitives} (s : Go.Service) (p : string) :
  let cleaned := Go.step s (Go.WebSocketClosed p) in
  Go.connections cleaned !! p = None
  /\ (Go.handle (Go.OnClose p) cleaned).1 = Throw
  /\ (Go.handle (Go.OnDataChannel p) cleaned).1 = Throw
  /\ (Go.handle (Go.OnOpen p) cleaned).1 = Throw
  /\ (forall data, Go.handle (Go.OnMessage p data) cleaned = (Return tt, cleaned)).
Proof.
  intros cleaned.
  assert (Hc : Go.connections cleaned !! p = None) by apply lookup_delete_eq.
  split; [exact Hc|].
  unfold Go.handle, Go.onClose, Go.onDataChannel, Go.sendAuthChallenge,
    Go.rand_Read, Go.getConnection, Go.setConnection.
  unfold bind, gets, modify, orThrow, ret, throw. cbn [fst snd].
  cbn [Go.connections Go.with_dataChannels Go.with_rng]. rewrite !Hc.
  split; [done|]. split; [done|]. split; [done|].
  intros [msg|]; [|done]. unfold Go.handleDataChannelMessage.
  destruct (String.eqb (Go.msg_type msg) "response").
  - unfold Go.handleAuthResponse, bind, gets. cbn [fst snd]. by rewrite Hc.
  - destruct (String.eqb (Go.msg_type msg) "request"); [|done].
    unfold Go.handleEntryRequest, bind, gets. cbn [fst snd]. by rewrite Hc.
Qed.

(* ===================================================================== *)
(** ** Who receives an entry in the Node service *)
(* ===================================================================== *)
Section JsBroadcast.
Context `{Primitives}.

Lemma js_entries_for_app (p : string) (l1 l2 : list JS.Sent) :
  js_entries_for p (l1 ++ l2) = js_entries_for p l1 ++ js_entries_for p l2.
Proof. apply List.filter_app. Qed.

Lemma js_broadcastTo_eq (e : DiaryEntry) (p : string) (conn : JS.Conn)
    (s : JS.Service) :
  JS.broadcastTo e (p, conn) s =
  match js_audience (JS.trustedKeys s) conn with
  | Some ti => JS.sendEncrypted p (JS.boxPublicKey ti) e s
  | None => (Return tt, s)
  end.
Proof.
  unfold JS.broadcastTo, js_audience, bind, gets.
  destruct (bool_decide (JS.state conn = JS.authenticated)); [|done].
  by destruct (JS.conn_publicKey conn ≫= _).
Qed.

(** With a box key that [nacl.box] refuses, or none, [sendEncrypted] throws
    once the nonce is drawn, before anything is sent. *)
Lemma js_sendEncrypted_unusable (p : string) (ti : JS.TrustedInfo)
    (e : DiaryEntry) (s : JS.Service) :
  js_box_key ti = None ->
  JS.sendEncrypted p (JS.boxPublicKey ti) e s
  = (Throw, JS.with_rng (JS.rng s + nonceLength) s).
Proof.
  unfold js_box_key. intros Hk. unfold JS.sendEncrypted, bind.
  rewrite js_encryptForPeer_eq. cbn zeta.
  destruct (JS.boxPublicKey ti ≫= decodeBase64) as [pk|]; [|done].
  cbn [mbind option_bind] in Hk.
  destruct (length pk =? crypto_box_PUBLICKEYBYTES)%nat; [done|].
  by destruct (JS.identity s).
Qed.

Lemma js_sendEncrypted_usable (p : string) (ti : JS.TrustedInfo)
    (pk : list byte) (e : DiaryEntry) (s : JS.Service) (i : JS.Identity) :
  JS.identity s = Some i ->
  length (JS.secretKey (JS.boxKeyPair i)) = crypto_box_SECRETKEYBYTES ->
  js_box_key ti = Some pk ->
  JS.sendEncrypted p (JS.boxPublicKey ti) e s =
  (Return tt,
   JS.with_sent
     (JS.sent s ++ [js_sealed p pk (JS.secretKey (JS.boxKeyPair i)) (JS.rng s) e])
     (JS.with_rng (JS.rng s + nonceLength) s)).
Proof.
  unfold js_box_key. intros Hi Hsk Hk.
  destruct (JS.boxPublicKey ti) as [b|] eqn:Hb; [|done]. cbn in Hk.
  destruct (decodeBase64 b) as [pk'|] eqn:Hd; [|done]. cbn in Hk.
  destruct (length pk' =? crypto_box_PUBLICKEYBYTES)%nat eqn:Hl; [|done].
  simplify_eq. apply Nat.eqb_eq in Hl.
  by apply js_sendEncrypted_ok.
Qed.

(** A broadcast over connections whose trusted records all have a usable
    box key: one sealed message for each connection that has a record. *)
Lemma js_broadcast_loop (e : DiaryEntry) (i : JS.Identity)
    (l : list (string * JS.Conn)) (s : JS.Service) :
  JS.identity s = Some i ->
  length (JS.secretKey (JS.boxKeyPair i)) = crypto_box_SECRETKEYBYTES ->
  (forall p conn ti, (p, conn) ∈ l ->
     js_audience (JS.trustedKeys s) conn = Some ti -> is_Some (js_box_key ti)) ->
  exists msgs,
    forEach (JS.broadcastTo e) l s =
    (Return tt,
     JS.with_sent (JS.sent s ++ msgs)
       (JS.with_rng (JS.rng s + nonceLength * length msgs) s))
    /\ Forall (fun m => exists p pk c,
                  m = js_sealed p pk (JS.secretKey (JS.boxKeyPair i)) c e) msgs
    /\ (forall p, p ∉ l.*1 -> js_entries_for p msgs = [])
    /\ (NoDup l.*1 -> forall p conn, (p, conn) ∈ l ->
        match ti ← js_audience (JS.trustedKeys s) conn; js_box_key ti with
        | None => js_entries_for p msgs = []
        | Some pk =>
            exists c, (JS.rng s <= c)%nat
                      /\ (c + nonceLength <= JS.rng s + nonceLength * length msgs)%nat
                      /\ js_entries_for p msgs
                         = [js_sealed p pk (JS.secretKey (JS.boxKeyPair i)) c e]
        end).
Proof.
  intros Hi Hsk. revert s Hi.
  induction l as [|[q c0] l IH]; intros s Hi Hok.
  - exists []. split; [|split; [|split]].
    + cbn [forEach length]. unfold ret. rewrite Nat.mul_0_r.
      by rewrite js_with_sent_rng_id.
    + constructor.
    + done.
    + intros _ p conn Hin. by apply elem_of_nil in Hin.
  - cbn [forEach]. unfold bind at 1. rewrite js_broadcastTo_eq.
    destruct (js_audience (JS.trustedKeys s) c0) as [ti|] eqn:Haud.
    + destruct (Hok q c0 ti) as [pk Hpk]; [by left|done|].
      rewrite (js_sendEncrypted_usable q ti pk e s i) by done.
      set (m0 := js_sealed q pk (JS.secretKey (JS.boxKeyPair i)) (JS.rng s) e).
      set (s1 := JS.with_sent (JS.sent s ++ [m0])
                   (JS.with_rng (JS.rng s + nonceLength) s)).
      destruct (IH s1) as (msgs & Hrun & Hall & Habs & Hpres).
      { done. }
      { intros p conn ti' Hin Ha. apply (Hok p conn ti'); [by right|done]. }
      exists (m0 :: msgs). split; [|split; [|split]].
      * rewrite Hrun. f_equal. subst s1. unfold JS.with_sent, JS.with_rng.
        destruct s. cbn. rewrite <- app_assoc. cbn [app].
        f_equal. unfold nonceLength. lia.
      * constructor; [by exists q, pk, (JS.rng s)|done].
      * intros p Hp. cbn in Hp. apply not_elem_of_cons in Hp as [Hne Hp].
        unfold js_entries_for. cbn [List.filter js_is_entry_for]. subst m0.
        unfold js_sealed at 1. cbn [js_is_entry_for].
        rewrite bool_decide_false by done. by apply Habs.
      * intros Hnd p conn Hin. cbn in Hnd. apply NoDup_cons in Hnd as [Hq Hnd].
        apply elem_of_cons in Hin as [[= -> ->]|Hin].
        -- rewrite Haud. cbn [mbind option_bind]. rewrite Hpk.
           exists (JS.rng s). split; [done|]. split.
           { cbn [length]. unfold nonceLength. lia. }
           unfold js_entries_for. cbn [List.filter]. subst m0.
           unfold js_sealed at 1. cbn [js_is_entry_for].
           rewrite bool_decide_true by done. f_equal. by apply Habs.
        -- assert (q <> p) as Hne.
           { intros ->. apply Hq. apply list_elem_of_fmap. by exists (p, conn). }
           specialize (Hpres Hnd p conn Hin).
           assert (Hdrop : js_entries_for p (m0 :: msgs) = js_entries_for p msgs).
           { unfold js_entries_for. cbn [List.filter]. subst m0.
             unfold js_sealed at 1. cbn [js_is_entry_for].
             by rewrite bool_decide_false by done. }
           rewrite Hdrop.
           change (JS.trustedKeys s1) with (JS.trustedKeys s) in Hpres.
           destruct (ti ← js_audience (JS.trustedKeys s) conn; js_box_key ti) as [pk'|];
             [|done].
           destruct Hpres as (c & Hlo & Hhi & Heq). exists c.
           subst s1. cbn [JS.rng JS.with_sent JS.with_rng] in Hlo, Hhi.
           split; [lia|]. split; [|done]. cbn [length]. unfold nonceLength in *. lia.
    + destruct (IH s Hi) as (msgs & Hrun & Hall & Habs & Hpres).
      { intros p conn ti' Hin Ha. apply (Hok p conn ti'); [by right|done]. }
      exists msgs. split; [done|]. split; [done|]. split.
      * intros p Hp. cbn in Hp. apply not_elem_of_cons in Hp as [_ Hp]. by apply Habs.
      * intros Hnd p conn Hin. cbn in Hnd. apply NoDup_cons in Hnd as [Hq Hnd].
        apply elem_of_cons in Hin as [[= -> ->]|Hin].
        -- rewrite Haud. cbn [mbind option_bind]. by apply Habs.
        -- by apply Hpres.
Qed.

(** A broadcast that meets a connection whose trusted record has no usable
    box key throws. *)
Lemma js_broadcast_loop_throws (e : DiaryEntry) (p : string) (conn : JS.Conn)
    (ti : JS.TrustedInfo) (l : list (string * JS.Conn)) (s : JS.Service) :
  (p, conn) ∈ l ->
  js_audience (JS.trustedKeys s) conn = Some ti ->
  js_box_key ti = None ->
  (forEach (JS.broadcastTo e) l s).1 = Throw.
Proof.
  intros Hin Haud Hk. revert s Haud.
  induction l as [|[q c0] l IH]; intros s Haud; [by apply elem_of_nil in Hin|].
  cbn [forEach]. unfold bind at 1.
  apply elem_of_cons in Hin as [[= <- <-]|Hin].
  - rewrite js_broadcastTo_eq, Haud.
    by rewrite (js_sendEncrypted_unusable p ti e s Hk).
  - destruct (JS.broadcastTo e (q, c0) s) as [[[]|] s'] eqn:Hq; [|done].
    apply IH; [done|].
    assert (JS.trustedKeys s' = JS.trustedKeys s) as ->; [|done].
    rewrite js_broadcastTo_eq in Hq.
    destruct (js_audience (JS.trustedKeys s) c0) as [ti0|]; [|by simplify_eq].
    pose proof (js_sendEncrypted_frame q (JS.boxPublicKey ti0) e s) as (_ & Ht & _).
    unfold exec in Ht. by rewrite Hq in Ht.
Qed.

End JsBroadcast.

Section JsUnusable.
Context `{Primitives}.

(** The dump for a record without a usable box key stops at the first
    entry, with nothing sent. *)
Lemma js_dump_unusable (p : string) (ti : JS.TrustedInfo)
    (es : list DiaryEntry) (s : JS.Service) :
  js_box_key ti = None ->
  forEach (JS.sendEncrypted p (JS.boxPublicKey ti)) es s =
  match es with
  | [] => (Return tt, s)
  | _ :: _ => (Throw, JS.with_rng (JS.rng s + nonceLength) s)
  end.
Proof.
  intros Hk. destruct es as [|e es]; [done|].
  cbn [forEach]. unfold bind. by rewrite js_sendEncrypted_unusable.
Qed.

End JsUnusable.

(** X7. [broadcastEntry] of the Node service, when the service has an
    identity with a 32-byte box secret key and every trusted record it is
    about to seal for has a usable box key (base64 of 32 bytes), returns
    normally and makes one [sendEntry] call for each peer whose connection
    is [authenticated] under a key that is in [trustedKeys] at that
    moment, and none for any other peer. Every call carries this entry
    sealed for the box key of the peer's trusted record, with a nonce read
    from a 24-byte window of the entropy tape inside the range the
    broadcast consumed; the cursor moves on by 24 for each call. *)
Theorem js_broadcast_exactly_once `{Primitives} (e : DiaryEntry)
    (s : JS.Service) (i : JS.Identity) :
  JS.identity s = Some i ->
  length (JS.secretKey (JS.boxKeyPair i)) = crypto_box_SECRETKEYBYTES ->
  (forall p conn ti, JS.connections s !! p = Some conn ->
     js_audience (JS.trustedKeys s) conn = Some ti -> is_Some (js_box_key ti)) ->
  exists msgs,
    JS.broadcastEntry e s =
    (Return tt,
     JS.with_sent (JS.sent s ++ msgs)
       (JS.with_rng (JS.rng s + nonceLength * length msgs) s))
    /\ Forall (fun m => exists p pk c,
                  m = js_sealed p pk (JS.secretKey (JS.boxKeyPair i)) c e) msgs
    /\ forall p,
        match js_recipient_key s p with
        | None => js_entries_for p msgs = []
        | Some pk =>
            exists c, (JS.rng s <= c)%nat
                      /\ (c + nonceLength <= JS.rng s + nonceLength * length msgs)%nat
                      /\ js_entries_for p msgs
                         = [js_sealed p pk (JS.secretKey (JS.boxKeyPair i)) c e]
        end.
Proof.
  intros Hi Hsk Hok. unfold JS.broadcastEntry, bind, gets.
  destruct (js_broadcast_loop e i (map_to_list (JS.connections s)) s Hi Hsk)
    as (msgs & Hrun & Hall & Habs & Hpres).
  { intros p conn ti Hin Ha. apply elem_of_map_to_list in Hin. by apply (Hok p conn ti). }
  exists msgs. split; [done|]. split; [done|]. intros p. unfold js_recipient_key.
  destruct (JS.connections s !! p) as [conn|] eqn:Hc; cbn [mbind option_bind].
  - apply elem_of_map_to_list in Hc.
    apply (Hpres (NoDup_fst_map_to_list _) p conn Hc).
  - apply Habs. intros Hin. apply list_elem_of_fmap in Hin as ([q c] & -> & Hin).
    apply elem_of_map_to_list in Hin. simpl in Hc. congruence.
Qed.

Lemma js_broadcast_exactly_once_witness :
  JS.identity Demo.js_served = Some Demo.js_identity
  /\ length (JS.secretKey (JS.boxKeyPair Demo.js_identity)) = crypto_box_SECRETKEYBYTES
  /\ js_recipient_key Demo.js_served "peer-1" = Some Demo.alice
  /\ exists msgs,
      JS.broadcastEntry (H := Demo.primitives) Sample.second_entry Demo.js_served
      = (Return tt,
         JS.with_sent (JS.sent Demo.js_served ++ msgs)
           (JS.with_rng (JS.rng Demo.js_served + nonceLength * length msgs)
              Demo.js_served))
      /\ Forall (fun m => exists p pk c,
                    m = js_sealed (H := Demo.primitives) p pk
                          (JS.secretKey (JS.boxKeyPair Demo.js_identity)) c
                          Sample.second_entry) msgs
      /\ forall p,
          match js_recipient_key Demo.js_served p with
          | None => js_entries_for p msgs = []
          | Some pk =>
              exists c, (JS.rng Demo.js_served <= c)%nat
                        /\ (c + nonceLength
                            <= JS.rng Demo.js_served + nonceLength * length msgs)%nat
                        /\ js_entries_for p msgs
                           = [js_sealed (H := Demo.primitives) p pk
                                (JS.secretKey (JS.boxKeyPair Demo.js_identity)) c
                                Sample.second_entry]
          end.
Proof.
  assert (H1 : JS.identity Demo.js_served = Some Demo.js_identity)
    by (vm_compute; reflexivity).
  assert (H2 : length (JS.secretKey (JS.boxKeyPair Demo.js_identity))
               = crypto_box_SECRETKEYBYTES) by (vm_compute; reflexivity).
  assert (H3 : forall p conn ti, JS.connections Demo.js_served !! p = Some conn ->
                 js_audience (JS.trustedKeys Demo.js_served) conn = Some ti ->
                 is_Some (js_box_key ti)).
  { intros p conn ti Hp Ha.
    assert (Hc : JS.connections Demo.js_served = {["peer-1"%string := Demo.served_conn]})
      by (vm_compute; reflexivity).
    rewrite Hc in Hp. apply lookup_singleton_Some in Hp as [<- <-].
    vm_compute in Ha. injection Ha as <-. vm_compute. by eexists. }
  split; [exact H1|]. split; [exact H2|].
  split; [vm_compute; reflexivity|].
  exact (js_broadcast_exactly_once (H := Demo.primitives) Sample.second_entry
           Demo.js_served Demo.js_identity H1 H2 H3).
Defined.

(** X8. In the Node service an entry is appended and saved before it is
    broadcast, and a failing broadcast does not undo that. When some peer
    is authenticated under a trusted record without a usable box key,
    adding an entry throws (out of [encryptForPeer]), yet the log and
    [entries.json] both hold the new entry at the end, and nothing is sent
    for that peer. *)
Theorem js_append_survives_failed_broadcast `{Primitives} (s : JS.Service)
    (p content : string) (conn : JS.Conn) (ti : JS.TrustedInfo) (now : Z) :
  JS.connections s !! p = Some conn ->
  js_audience (JS.trustedKeys s) conn = Some ti ->
  js_box_key ti = None ->
  let s' := JS.step s (JS.post_api_entries content now) in
  (JS.addEntry content now s).1 = Throw
  /\ JS.entries s' = JS.entries s ++ [js_new_entry s content now]
  /\ JS.entries_json s' = Some (JS.entries s ++ [js_new_entry s content now])
  /\ js_entries_for p (JS.sent s') = js_entries_for p (JS.sent s).
Proof.
  intros Hc Haud Hk s'.
  set (e := js_new_entry s content now).
  set (s1 := JS.with_entries_json (Some (JS.entries s ++ [e]))
               (JS.with_entries (JS.entries s ++ [e]) s)).
  assert (Hs' : s' = exec (JS.broadcastEntry e) s1).
  { subst s'. by rewrite (proj1 (js_step_addEntry content now s)), js_addEntry_exec. }
  assert (He : e ∈ JS.entries s1).
  { subst s1. cbn. apply elem_of_app. right. by left. }
  pose proof (js_broadcastEntry_frame e s1 He) as Hf.
  rewrite <- Hs' in Hf.
  split; [|split; [|split]].
  - assert (Hth : (JS.broadcastEntry e s1).1 = Throw).
    { unfold JS.broadcastEntry, bind, gets.
      apply (js_broadcast_loop_throws e p conn ti); [|done|done].
      by apply elem_of_map_to_list. }
    change ((bind (JS.broadcastEntry e) (fun _ => ret e) s1).1 = Throw).
    unfold bind. revert Hth.
    destruct (JS.broadcastEntry e s1) as [[[]|] s2]; done.
  - by destruct Hf as (_ & _ & -> & _).
  - by destruct Hf as (_ & _ & _ & _ & _ & _ & -> & _).
  - rewrite (js_frame_entries_for _ p s1 s' Hf); [done|].
    intros pk sk e' (conn' & k & ti' & b & i & Hc' & Hst & Hk' & Ht & Hb & Hd & Hl & _).
    change (JS.connections s1) with (JS.connections s) in Hc'.
    change (JS.trustedKeys s1) with (JS.trustedKeys s) in Ht.
    rewrite Hc in Hc'. simplify_eq.
    unfold js_audience in Haud. rewrite bool_decide_true in Haud by done.
    rewrite Hk' in Haud. cbn in Haud. rewrite Ht in Haud. simplify_eq.
    unfold js_box_key in Hk. rewrite Hb in Hk. cbn in Hk. rewrite Hd in Hk.
    cbn in Hk. rewrite Hl in Hk. done.
Qed.

Lemma js_append_survives_failed_broadcast_witness :
  JS.connections Sample.js_bob_served !! "peer-2"%string = Some Sample.bob_served_conn
  /\ js_audience (JS.trustedKeys Sample.js_bob_served) Sample.bob_served_conn
     = Some Sample.bob_info
  /\ js_box_key Sample.bob_info = None
  /\ (JS.addEntry (H := Demo.primitives) "Dear diary" 1300 Sample.js_bob_served).1 = Throw
  /\ JS.entries (JS.step (H := Demo.primitives) Sample.js_bob_served
                   (JS.post_api_entries "Dear diary" 1300))
     = JS.entries Sample.js_bob_served
       ++ [js_new_entry Sample.js_bob_served "Dear diary" 1300]
  /\ JS.entries_json (JS.step (H := Demo.primitives) Sample.js_bob_served
                        (JS.post_api_entries "Dear diary" 1300))
     = Some (JS.entries Sample.js_bob_served
             ++ [js_new_entry Sample.js_bob_served "Dear diary" 1300])
  /\ js_entries_for "peer-2"
       (JS.sent (JS.step (H := Demo.primitives) Sample.js_bob_served
                   (JS.post_api_entries "Dear diary" 1300)))
     = js_entries_for "peer-2" (JS.sent Sample.js_bob_served).
Proof.
  assert (H1 : JS.connections Sample.js_bob_served !! "peer-2"%string
               = Some Sample.bob_served_conn) by (vm_compute; reflexivity).
  assert (H2 : js_audience (JS.trustedKeys Sample.js_bob_served) Sample.bob_served_conn
               = Some Sample.bob_info) by (vm_compute; reflexivity).
  assert (H3 : js_box_key Sample.bob_info = None) by reflexivity.
  split; [exact H1|]. split; [exact H2|]. split; [exact H3|].
  exact (js_append_survives_failed_broadcast (H := Demo.primitives)
           Sample.js_bob_served "peer-2" "Dear diary" Sample.bob_served_conn
           Sample.bob_info 1300 H1 H2 H3).
Defined.

(** X9. A key trusted without a usable box key still authenticates in the
    Node service. A response with a valid signature over the challenge
    under such a key puts the connection in state [authenticated];
    sending the log then fails inside the handler's [try], so the handler
    returns normally and no call is made on the room. *)
Theorem js_authenticated_without_box_key `{Primitives} (s : JS.Service)
    (p : string) (conn : JS.Conn) (data : JS.AuthData) (ti : JS.TrustedInfo) :
  JS.connections s !! p = Some conn ->
  JS.state conn = JS.challenging ->
  js_signature_valid (JS.challenge conn) data = true ->
  JS.trustedKeys s !! JS.data_publicKey data = Some ti ->
  js_box_key ti = None ->
  let s' := JS.step s (JS.getResponse data p) in
  (JS.handleAuthResponse data p s).1 = Return tt
  /\ js_state s' p = Some JS.authenticated
  /\ JS.sent s' = JS.sent s.
Proof.
  intros Hc Hst Hv Ht Hk s'. subst s'. unfold JS.step, JS.handle, exec.
  rewrite (js_response_trusted s data p conn ti Hc Hst Hv Ht). cbn [fst snd].
  split; [done|].
  set (s1 := JS.with_connections _ s).
  assert (Hc1 : JS.connections s1 !! p
                = Some (js_classified JS.authenticated conn
                          (Some (JS.data_publicKey data))
                          (Some (JS.permissions ti)) (Some (JS.name ti)))).
  { subst s1. cbn. apply lookup_insert_eq. }
  unfold exec, JS.sendEntriesToPeer, bind, gets. cbn [fst snd]. rewrite Hc1.
  cbn [js_classified JS.state JS.conn_publicKey negb mbind option_bind].
  rewrite bool_decide_true by done. cbn [negb].
  change (JS.trustedKeys s1) with (JS.trustedKeys s). rewrite Ht.
  rewrite (js_dump_unusable p ti _ s1 Hk).
  destruct (JS.entries s1); cbn [snd]; unfold js_state;
    cbn [JS.connections JS.with_rng JS.sent]; rewrite Hc1; done.
Qed.

Lemma js_authenticated_without_box_key_witness :
  JS.connections Sample.js_bob_joined !! "peer-2"%string = Some Sample.bob_joined_conn
  /\ JS.state Sample.bob_joined_conn = JS.challenging
  /\ js_signature_valid (H := Demo.primitives) (JS.challenge Sample.bob_joined_conn)
       Sample.bob_response = true
  /\ JS.trustedKeys Sample.js_bob_joined !! JS.data_publicKey Sample.bob_response
     = Some Sample.bob_info
  /\ js_box_key Sample.bob_info = None
  /\ (JS.handleAuthResponse (H := Demo.primitives) Sample.bob_response "peer-2"
        Sample.js_bob_joined).1 = Return tt
  /\ js_state (JS.step (H := Demo.primitives) Sample.js_bob_joined
                 (JS.getResponse Sample.bob_response "peer-2")) "peer-2"
     = Some JS.authenticated
  /\ JS.sent (JS.step (H := Demo.primitives) Sample.js_bob_joined
                (JS.getResponse Sample.bob_response "peer-2"))
     = JS.sent Sample.js_bob_joined.
Proof.
  assert (H1 : JS.connections Sample.js_bob_joined !! "peer-2"%string
               = Some Sample.bob_joined_conn) by (vm_compute; reflexivity).
  assert (H2 : JS.state Sample.bob_joined_conn = JS.challenging) by reflexivity.
  assert (H3 : js_signature_valid (H := Demo.primitives)
                 (JS.challenge Sample.bob_joined_conn) Sample.bob_response = true)
    by (vm_compute; reflexivity).
  assert (H4 : JS.trustedKeys Sample.js_bob_joined
                 !! JS.data_publicKey Sample.bob_response = Some Sample.bob_info)
    by (vm_compute; reflexivity).
  assert (H5 : js_box_key Sample.bob_info = None) by reflexivity.
  split; [exact H1|]. split; [exact H2|]. split; [exact H3|]. split; [exact H4|].
  split; [exact H5|].
  exact (js_authenticated_without_box_key (H := Demo.primitives)
           Sample.js_bob_joined "peer-2" Sample.bob_joined_conn Sample.bob_response
           Sample.bob_info H1 H2 H3 H4 H5).
Defined.

(** *** Revocation and leaving *)
Section JsRevocation.
Context `{Primitives}.

(** The connection of a peer whose session stays open is touched by its
    own responses to a challenge only. *)
Lemma js_step_connection (s : JS.Service) (ev : JS.Event) (p : string) :
  (forall conn, JS.connections s !! p = Some conn ->
                JS.state conn <> JS.challenging) ->
  js_in_session p ev ->
  JS.connections (JS.step s ev) !! p = JS.connections s !! p.
Proof.
  intros Hst Hev.
  destruct ev as [q now|q|data q|data q|c now|c now|req now|key].
  - unfold JS.step, JS.handle.
    destruct (js_handlePeerJoin_exec q now s) as (-> & _).
    by rewrite lookup_insert_ne.
  - unfold JS.step, JS.handle, JS.handlePeerLeave, exec, modify. cbn.
    by rewrite lookup_delete_ne.
  - done.
  - unfold JS.step, JS.handle, exec.
    destruct (js_response_cases s data q)
      as [-> | [(conn' & Hc' & Hst' & Hv & Ht & ->)
               | (conn' & ti & Hc' & Hst' & Hv & Ht & ->)]]; cbn [snd]; [done| |].
    + cbn. destruct (decide (q = p)) as [->|Hne]; [by apply Hst in Hc'|].
      by rewrite lookup_insert_ne.
    + match goal with |- context [exec _ ?s1] => set (s1' := s1) end.
      destruct (js_sendEntriesToPeer_frame q s1') as (-> & _).
      subst s1'. cbn. destruct (decide (q = p)) as [->|Hne]; [by apply Hst in Hc'|].
      by rewrite lookup_insert_ne.
  - rewrite (proj1 (js_step_addEntry c now s)), js_addEntry_exec.
    match goal with |- context [exec (JS.broadcastEntry ?e) ?s1] =>
      destruct (js_broadcastEntry_frame e s1) as (-> & _) end; [|done].
    cbn. apply elem_of_app. right. by left.
  - rewrite (proj2 (js_step_addEntry c now s)), js_addEntry_exec.
    match goal with |- context [exec (JS.broadcastEntry ?e) ?s1] =>
      destruct (js_broadcastEntry_frame e s1) as (-> & _) end; [|done].
    cbn. apply elem_of_app. right. by left.
  - done.
  - done.
Qed.

(** A key stays out of the trust store unless it is added. *)
Lemma js_step_untrusted_key (s : JS.Service) (ev : JS.Event) (k : string) :
  JS.trustedKeys s !! k = None ->
  js_keeps_revoked k ev ->
  JS.trustedKeys (JS.step s ev) !! k = None.
Proof.
  intros Hk Hev.
  destruct ev as [q now|q|data q|data q|c now|c now|req now|key].
  - unfold JS.step, JS.handle.
    by destruct (js_handlePeerJoin_exec q now s) as (_ & -> & _).
  - done.
  - done.
  - unfold JS.step, JS.handle, exec.
    destruct (js_response_cases s data q)
      as [-> | [(conn' & Hc' & Hst' & Hv & Ht & ->)
               | (conn' & ti & Hc' & Hst' & Hv & Ht & ->)]]; cbn [snd]; [done..|].
    match goal with |- context [exec _ ?s1] => set (s1' := s1) end.
    by destruct (js_sendEntriesToPeer_frame q s1') as (_ & -> & _).
  - rewrite (proj1 (js_step_addEntry c now s)), js_addEntry_exec.
    match goal with |- context [exec (JS.broadcastEntry ?e) ?s1] =>
      destruct (js_broadcastEntry_frame e s1) as (_ & -> & _) end; [|done].
    cbn. apply elem_of_app. right. by left.
  - rewrite (proj2 (js_step_addEntry c now s)), js_addEntry_exec.
    match goal with |- context [exec (JS.broadcastEntry ?e) ?s1] =>
      destruct (js_broadcastEntry_frame e s1) as (_ & -> & _) end; [|done].
    cbn. apply elem_of_app. right. by left.
  - unfold JS.step, JS.handle, JS.addTrusted, exec, modify. cbn.
    by rewrite lookup_insert_ne.
  - unfold JS.step, JS.handle, JS.removeTrusted, exec, modify. cbn.
    destruct (decide (key = k)) as [->|Hne].
    + apply lookup_delete_eq.
    + by rewrite lookup_delete_ne.
Qed.

(** No entry is sealed for a connection authenticated under a key that is
    not trusted. *)
Lemma js_step_revoked (s : JS.Service) (ev : JS.Event) (p k : string)
    (conn : JS.Conn) :
  JS.connections s !! p = Some conn ->
  JS.state conn = JS.authenticated ->
  JS.conn_publicKey conn = Some k ->
  JS.trustedKeys s !! k = None ->
  js_in_session p ev -> js_keeps_revoked k ev ->
  js_entries_for p (JS.sent (JS.step s ev)) = js_entries_for p (JS.sent s).
Proof.
  intros Hc Hst Hk Ht Hin Hrev.
  destruct (js_step_fresh s ev) as (l & -> & Hfresh).
  rewrite js_entries_for_app.
  rewrite (js_fresh_seq_entries_for _ p _ _ _ Hfresh); [by rewrite app_nil_r|].
  intros pk sk e (conn' & k' & ti & b & i & Hc' & _ & Hk' & Ht' & _).
  rewrite (js_step_connection s ev p) in Hc'; [|intros c; rewrite Hc; congruence|done].
  simplify_eq.
  rewrite (js_step_untrusted_key s ev k) in Ht'; done.
Qed.

End JsRevocation.

(** X10. In the Node service, removing the key a peer authenticated under
    stops the entries for that peer. After
    [DELETE /api/trusted/:key], and for as long as the key is not trusted
    again and the peer neither leaves nor joins anew, the connection stays
    [authenticated] but no [sendEntry] call is made for the peer, whatever
    entries are added and whatever responses arrive. *)
Theorem js_revocation_stops_entries `{Primitives} (s : JS.Service) (p k : string)
    (conn : JS.Conn) (evs : list JS.Event) :
  JS.connections s !! p = Some conn ->
  JS.state conn = JS.authenticated ->
  JS.conn_publicKey conn = Some k ->
  Forall (fun ev => js_in_session p ev /\ js_keeps_revoked k ev) evs ->
  let revoked := JS.step s (JS.delete_api_trusted k) in
  JS.trustedKeys revoked !! k = None
  /\ js_state (JS.run revoked evs) p = Some JS.authenticated
  /\ js_entries_for p (JS.sent (JS.run revoked evs)) = js_entries_for p (JS.sent s).
Proof.
  intros Hc Hst Hk Hevs revoked.
  assert (Hrk : JS.trustedKeys revoked !! k = None) by apply lookup_delete_eq.
  split; [exact Hrk|].
  assert (Hrc : JS.connections revoked !! p = Some conn) by done.
  change (JS.sent s) with (JS.sent revoked).
  clearbody revoked. clear Hc. revert revoked Hrk Hrc.
  induction Hevs as [|ev evs [Hin Hrev] _ IH]; intros s0 Hrk Hrc.
  - unfold js_state. cbn. rewrite Hrc. cbn. by rewrite Hst.
  - cbn [JS.run fold_left].
    rewrite <- (js_step_revoked s0 ev p k conn) by done.
    apply IH.
    + by apply js_step_untrusted_key.
    + rewrite js_step_connection; [done| |done].
      intros c. rewrite Hrc. congruence.
Qed.

Lemma js_revocation_stops_entries_witness :
  JS.connections Demo.js_served !! "peer-1"%string = Some Demo.served_conn
  /\ JS.state Demo.served_conn = JS.authenticated
  /\ JS.conn_publicKey Demo.served_conn = Some (encodeBase64 Demo.alice)
  /\ Forall (fun ev => js_in_session "peer-1" ev
                       /\ js_keeps_revoked (encodeBase64 Demo.alice) ev)
       [JS.post_api_entries "Dear diary" 1300;
        JS.post_api_trusted Demo.trust_mallory 1400;
        JS.getResponse Demo.good_response "peer-1";
        JS.ws_add_entry "Second thoughts" 1500]
  /\ JS.trustedKeys (JS.step (H := Demo.primitives) Demo.js_served
                       (JS.delete_api_trusted (encodeBase64 Demo.alice)))
       !! encodeBase64 Demo.alice = None
  /\ js_state
       (JS.run (H := Demo.primitives)
          (JS.step (H := Demo.primitives) Demo.js_served
             (JS.delete_api_trusted (encodeBase64 Demo.alice)))
          [JS.post_api_entries "Dear diary" 1300;
           JS.post_api_trusted Demo.trust_mallory 1400;
           JS.getResponse Demo.good_response "peer-1";
           JS.ws_add_entry "Second thoughts" 1500]) "peer-1"
     = Some JS.authenticated
  /\ js_entries_for "peer-1"
       (JS.sent
          (JS.run (H := Demo.primitives)
             (JS.step (H := Demo.primitives) Demo.js_served
                (JS.delete_api_trusted (encodeBase64 Demo.alice)))
             [JS.post_api_entries "Dear diary" 1300;
              JS.post_api_trusted Demo.trust_mallory 1400;
              JS.getResponse Demo.good_response "peer-1";
              JS.ws_add_entry "Second thoughts" 1500]))
     = js_entries_for "peer-1" (JS.sent Demo.js_served).
Proof.
  assert (H1 : JS.connections Demo.js_served !! "peer-1"%string
               = Some Demo.served_conn) by (vm_compute; reflexivity).
  assert (H2 : JS.state Demo.served_conn = JS.authenticated) by reflexivity.
  assert (H3 : JS.conn_publicKey Demo.served_conn = Some (encodeBase64 Demo.alice))
    by reflexivity.
  assert (H4 : Forall (fun ev => js_in_session "peer-1" ev
                                 /\ js_keeps_revoked (encodeBase64 Demo.alice) ev)
                 [JS.post_api_entries "Dear diary" 1300;
                  JS.post_api_trusted Demo.trust_mallory 1400;
                  JS.getResponse Demo.good_response "peer-1";
                  JS.ws_add_entry "Second thoughts" 1500]).
  { repeat apply Forall_cons_2; try apply Forall_nil_2; split; try exact I.
    vm_compute. discriminate. }
  split; [exact H1|]. split; [exact H2|]. split; [exact H3|]. split; [exact H4|].
  exact (js_revocation_stops_entries (H := Demo.primitives) Demo.js_served "peer-1"
           (encodeBase64 Demo.alice) Demo.served_conn _ H1 H2 H3 H4).
Defined.

(** X11. In the Node service a peer that has left has no connection until
    it joins again: after [onPeerLeave], over any events other than a
    leave or join of that peer, [connections] has no record for it and no
    [sendEntry] call is made for it; its responses are ignored. *)
Theorem js_left_peer_has_no_session `{Primitives} (s : JS.Service) (p : string)
    (evs : list JS.Event) :
  Forall (js_in_session p) evs ->
  let gone := JS.step s (JS.onPeerLeave p) in
  JS.connections (JS.run gone evs) !! p = None
  /\ js_entries_for p (JS.sent (JS.run gone evs)) = js_entries_for p (JS.sent s).
Proof.
  intros Hevs gone.
  assert (Hg : JS.connections gone !! p = None) by apply lookup_delete_eq.
  change (JS.sent s) with (JS.sent gone).
  clearbody gone. revert gone Hg.
  induction Hevs as [|ev evs Hin _ IH]; intros s0 Hg; [done|].
  cbn [JS.run fold_left].
  assert (Hc : JS.connections (JS.step s0 ev) !! p = None).
  { rewrite js_step_connection; [done| |done]. intros c. by rewrite Hg. }
  destruct (IH _ Hc) as [IH1 IH2]. split; [exact IH1|].
  fold (JS.run (JS.step s0 ev) evs). rewrite IH2.
  destruct (js_step_fresh s0 ev) as (l & -> & Hfresh).
  rewrite js_entries_for_app.
  rewrite (js_fresh_seq_entries_for _ p _ _ _ Hfresh); [by rewrite app_nil_r|].
  intros pk sk e (conn' & k' & ti & b & i & Hc' & _).
  by rewrite Hc in Hc'.
Qed.

Lemma js_left_peer_has_no_session_witness :
  Forall (js_in_session "peer-1")
    [JS.post_api_entries "Dear diary" 1300; JS.getResponse Demo.good_response "peer-1"]
  /\ JS.connections
       (JS.run (H := Demo.primitives)
          (JS.step (H := Demo.primitives) Demo.js_served (JS.onPeerLeave "peer-1"))
          [JS.post_api_entries "Dear diary" 1300;
           JS.getResponse Demo.good_response "peer-1"]) !! "peer-1"%string = None
  /\ js_entries_for "peer-1"
       (JS.sent
          (JS.run (H := Demo.primitives)
             (JS.step (H := Demo.primitives) Demo.js_served (JS.onPeerLeave "peer-1"))
             [JS.post_api_entries "Dear diary" 1300;
              JS.getResponse Demo.good_response "peer-1"]))
     = js_entries_for "peer-1" (JS.sent Demo.js_served).
Proof.
  assert (H1 : Forall (js_in_session "peer-1")
                 [JS.post_api_entries "Dear diary" 1300;
                  JS.getResponse Demo.good_response "peer-1"]).
  { repeat apply Forall_cons_2; try apply Forall_nil_2; exact I. }
  split; [exact H1|].
  exact (js_left_peer_has_no_session (H := Demo.primitives) Demo.js_served "peer-1"
           _ H1).
Defined.

(* ===================================================================== *)
(** ** The randomness of a run of the Node service *)
(* ===================================================================== *)
Section JsWindows.
Context `{Primitives}.

Lemma js_windows_le (lo hi : nat) (l : list JS.Sent) :
  js_windows lo l hi -> (lo <= hi)%nat.
Proof. induction 1; unfold nonceLength in *; lia. Qed.

Lemma js_windows_lower (lo lo' hi : nat) (l : list JS.Sent) :
  (lo' <= lo)%nat -> js_windows lo l hi -> js_windows lo' l hi.
Proof.
  intros Hle Hw. destruct Hw.
  - constructor. lia.
  - constructor; [lia|done].
  - constructor; [lia|done].
Qed.

Lemma js_windows_app (lo mid hi : nat) (l1 l2 : list JS.Sent) :
  js_windows lo l1 mid -> js_windows mid l2 hi -> js_windows lo (l1 ++ l2) hi.
Proof.
  induction 1 as [lo mid Hle|lo mid c pk bpk l Hle Hw IH|lo mid c p enc l Hle Hw IH];
    intros H2.
  - by apply (js_windows_lower mid).
  - cbn [app]. constructor; [done|]. by apply IH.
  - cbn [app]. constructor; [done|]. by apply IH.
Qed.

Lemma js_draws_refl (s : JS.Service) : js_draws s s.
Proof. exists []. split; [by rewrite app_nil_r|by constructor]. Qed.

Lemma js_draws_same (s s' : JS.Service) :
  JS.sent s' = JS.sent s -> JS.rng s' = JS.rng s -> js_draws s s'.
Proof.
  intros Hs Hr. exists []. rewrite app_nil_r, Hr. split; [done|by constructor].
Qed.

Lemma js_draws_trans (s1 s2 s3 : JS.Service) :
  js_draws s1 s2 -> js_draws s2 s3 -> js_draws s1 s3.
Proof.
  intros (l1 & H1 & W1) (l2 & H2 & W2). exists (l1 ++ l2).
  split; [by rewrite H2, H1, app_assoc|]. by eapply js_windows_app.
Qed.

Lemma js_sendEncrypted_draws (p : string) (k : option string) (e : DiaryEntry)
    (s : JS.Service) :
  js_draws s (exec (JS.sendEncrypted p k e) s).
Proof.
  unfold JS.sendEncrypted, JS.send, exec, bind, modify. rewrite js_encryptForPeer_eq.
  cbn zeta.
  assert (Hthrow : js_draws s (JS.with_rng (JS.rng s + nonceLength) s)).
  { exists []. split; [by rewrite app_nil_r|]. constructor. cbn. lia. }
  destruct (k ≫= decodeBase64) as [pk|]; [|apply Hthrow].
  destruct (JS.identity s) as [i|]; [|apply Hthrow].
  destruct (_ && _); [|apply Hthrow].
  cbn [fst snd]. eexists [_]. split; [done|].
  apply windows_entry; [done|]. constructor. done.
Qed.

Lemma js_forEach_draws {A} (f : A -> JS.M unit) (l : list A) (s : JS.Service) :
  (forall a s, js_draws s (exec (f a) s)) ->
  js_draws s (exec (forEach f l) s).
Proof.
  intros Hf. revert s.
  apply (forEach_preserves js_draws f l js_draws_refl js_draws_trans).
  intros a s _. apply Hf.
Qed.

Lemma js_sendEntriesToPeer_draws (p : string) (s : JS.Service) :
  js_draws s (exec (JS.sendEntriesToPeer p) s).
Proof.
  unfold JS.sendEntriesToPeer. rewrite exec_bind. unfold gets at 1.
  destruct (JS.connections s !! p) as [conn|]; [|apply js_draws_refl].
  destruct (negb _); [apply js_draws_refl|].
  rewrite exec_bind. unfold gets at 1.
  destruct (JS.conn_publicKey conn ≫= _) as [ti|]; [|apply js_draws_refl].
  rewrite exec_bind. unfold gets at 1.
  apply js_forEach_draws. intros e s0. apply js_sendEncrypted_draws.
Qed.

Lemma js_broadcastEntry_draws (e : DiaryEntry) (s : JS.Service) :
  js_draws s (exec (JS.broadcastEntry e) s).
Proof.
  unfold JS.broadcastEntry. rewrite exec_bind. unfold gets at 1.
  apply js_forEach_draws. intros [q c] s0. unfold exec.
  rewrite js_broadcastTo_eq.
  destruct (js_audience _ c) as [ti|]; [|apply js_draws_refl].
  apply js_sendEncrypted_draws.
Qed.

Lemma js_step_draws (s : JS.Service) (ev : JS.Event) : js_draws s (JS.step s ev).
Proof.
  destruct ev as [p now|p|data p|data p|c now|c now|req now|key].
  - unfold JS.step, JS.handle, JS.handlePeerJoin, JS.randomBytes, JS.setConnection,
      JS.getPublicKeyString, JS.getBoxPublicKeyString, JS.getIdentity, JS.send.
    unfold exec, bind, gets, modify, ret, orThrow, throw. simpl.
    destruct (JS.identity s) as [i|] eqn:Hi; simpl; rewrite ?Hi; simpl.
    + eexists [_]. split; [done|]. apply windows_challenge; [done|].
      constructor. done.
    + exists []. rewrite app_nil_r. split; [done|]. constructor. cbn. lia.
  - by apply js_draws_same.
  - by apply js_draws_same.
  - unfold JS.step, JS.handle, exec.
    destruct (js_response_cases s data p)
      as [-> | [(conn & Hc & Hst & Hv & Ht & ->) | (conn & ti & Hc & Hst & Hv & Ht & ->)]];
      cbn [snd]; [apply js_draws_refl|by apply js_draws_same|].
    match goal with |- context [exec _ ?s1] => set (s1' := s1) end.
    destruct (js_sendEntriesToPeer_draws p s1') as (l & Hl & Hw).
    exists l. by split.
  - rewrite (proj1 (js_step_addEntry c now s)), js_addEntry_exec.
    match goal with |- context [exec (JS.broadcastEntry ?e) ?s1] =>
      destruct (js_broadcastEntry_draws e s1) as (l & Hl & Hw) end.
    exists l. by split.
  - rewrite (proj2 (js_step_addEntry c now s)), js_addEntry_exec.
    match goal with |- context [exec (JS.broadcastEntry ?e) ?s1] =>
      destruct (js_broadcastEntry_draws e s1) as (l & Hl & Hw) end.
    exists l. by split.
  - by apply js_draws_same.
  - by apply js_draws_same.
Qed.

End JsWindows.

(** X12. Along any run of the Node service, from any state, the calls made
    on the room are appended to the ones before, and each of them carries
    random bytes of its own: the challenge of a [sendChallenge] is 32
    bytes and the nonce of a [sendEntry] 24 bytes read from the entropy
    tape at windows that follow one another without overlap, in the order
    of the calls, between the cursor at the start and the cursor at the
    end. No part of the tape is used for two calls. *)
Theorem js_run_draws_fresh_windows `{Primitives} (s : JS.Service)
    (evs : list JS.Event) :
  exists l, JS.sent (JS.run s evs) = JS.sent s ++ l
            /\ js_windows (JS.rng s) l (JS.rng (JS.run s evs)).
Proof.
  revert s. induction evs as [|ev evs IH]; intros s.
  - apply js_draws_refl.
  - cbn [JS.run fold_left].
    apply (js_draws_trans s (JS.step s ev)); [apply js_step_draws|apply IH].
Qed.

(* ===================================================================== *)
(** ** The entries file *)
(* ===================================================================== *)
Section LogSaved.
Context `{Primitives}.








End LogSaved.



(* ===================================================================== *)
(** ** The trust file of the Node service *)
(* ===================================================================== *)
Section NodeTrustFile.
Context `{Primitives}.

Lemma node_storedInfo_toStored (kv : string * JS.TrustedInfo) :
  Node.storedInfo (Node.toStored kv) = kv.2.
Proof. by destruct kv as [k [b n p t]]. Qed.

(** The loop of [loadTrustedKeys] over the elements of the file. *)
Lemma node_load_loop (l : list (option Node.StoredKey)) (st : Node.State) :
  exists r, forEach Node.setTrusted l st =
  (r,
   Node.with_core
     (JS.with_trustedKeys
        (list_to_map
           (reverse (map (fun e => (Node.stored_publicKey e, Node.storedInfo e))
                       (node_readable l)))
         ∪ JS.trustedKeys (Node.core st))
        (Node.core st)) st).
Proof.
  assert (Hid : forall st : Node.State,
            Node.with_core (JS.with_trustedKeys
              (list_to_map (reverse (map (fun e => (Node.stored_publicKey e, Node.storedInfo e)) []))
               ∪ JS.trustedKeys (Node.core st)) (Node.core st)) st = st).
  { intros st'. cbn [map]. rewrite reverse_nil. cbn [list_to_map foldr].
    rewrite (left_id_L ∅ (∪)). by destruct st' as [[]]. }
  revert st. induction l as [|e l IH]; intros st.
  - exists (Return tt). cbn [forEach node_readable]. unfold ret. by rewrite Hid.
  - destruct e as [e|]; cycle 1.
    { exists Throw. cbn [forEach node_readable]. unfold bind at 1.
      unfold Node.setTrusted at 1, bind, orThrow, throw. by rewrite Hid. }
    cbn [forEach node_readable]. unfold bind at 1.
    unfold Node.setTrusted at 1, bind at 1, orThrow, ret, Node.lift, modify.
    cbn [Node.core].
    match goal with |- context [forEach _ l ?s] => destruct (IH s) as [r ->] end.
    exists r. f_equal.
    unfold Node.with_core, JS.with_trustedKeys.
    cbn [Node.core Node.trusted_json Node.announced Node.listeners Node.ws_sent
         JS.trustedKeys JS.roomSalt JS.identity JS.entries JS.connections JS.roomId
         JS.identity_json JS.entries_json JS.sent JS.rng map].
    f_equal. f_equal.
    rewrite reverse_cons, list_to_map_app. cbn [list_to_map foldr fst snd curry].
    rewrite insert_empty, <- (assoc_L (∪)). f_equal.
    by rewrite insert_union_singleton_l.
Qed.

Lemma node_loadTrustedKeys_eq (st : Node.State) :
  Node.loadTrustedKeys st =
  (Return tt,
   match Node.trusted_json st with
   | Some (Node.TrustedArray l) =>
       Node.with_core
         (JS.with_trustedKeys
            (list_to_map
               (reverse (map (fun e => (Node.stored_publicKey e, Node.storedInfo e))
                           (node_readable l)))
             ∪ JS.trustedKeys (Node.core st))
            (Node.core st)) st
   | _ => st
   end).
Proof.
  unfold Node.loadTrustedKeys, Node.readTrustedKeys, try_catch, bind, gets, orThrow,
    ret, throw.
  destruct (Node.trusted_json st) as [[raw|l]|]; [done| |done].
  destruct (node_load_loop l st) as [r ->]. by destruct r as [[]|].
Qed.

Lemma node_readable_Some (l : list Node.StoredKey) :
  node_readable (map Some l) = l.
Proof. induction l as [|e l IH]; [done|]. cbn [map node_readable]. by rewrite IH. Qed.

End NodeTrustFile.

Section NodeTrustRestart.
Context `{Primitives}.

Lemma node_pair_toStored (kv : string * JS.TrustedInfo) :
  (Node.stored_publicKey (Node.toStored kv), Node.storedInfo (Node.toStored kv)) = kv.
Proof. by destruct kv as [k [b n p t]]. Qed.

(** Reading back a file that lists a store, in any order, gives the store. *)
Lemma node_read_back (m : gmap string JS.TrustedInfo) (l : list Node.StoredKey) :
  l ≡ₚ map Node.toStored (map_to_list m) ->
  list_to_map (reverse (map (fun e => (Node.stored_publicKey e, Node.storedInfo e)) l))
  = m.
Proof.
  intros Hl.
  assert (Hback : forall x : list (string * JS.TrustedInfo),
            map (fun e => (Node.stored_publicKey e, Node.storedInfo e))
              (map Node.toStored x) = x).
  { induction x as [|kv x IH]; [done|]. cbn [map].
    by rewrite node_pair_toStored, IH. }
  transitivity (list_to_map (map_to_list m) : gmap string JS.TrustedInfo);
    [|apply fin_maps.list_to_map_to_list].
  symmetry. apply list_to_map_proper; [apply NoDup_fst_map_to_list|].
  rewrite reverse_Permutation. rewrite <- (Hback (map_to_list m)) at 1.
  symmetry. by apply Permutation_map.
Qed.

Lemma node_saved_after_save (st : Node.State) :
  node_trust_saved (exec Node.saveTrustedKeys st).
Proof.
  exists (map Node.toStored (map_to_list (JS.trustedKeys (Node.core st)))).
  split; [|done]. cbn. by rewrite map_map.
Qed.

End NodeTrustRestart.

(** X14. The trust store of the Node service survives a restart.
    [POST /api/trusted] sets the record of the key and
    [DELETE /api/trusted/:key] removes it, and each leaves [trusted.json]
    listing the whole store. Whenever [trusted.json] lists the store, a
    service started anew on it has, after [loadTrustedKeys], the same
    store, record for record, and the file is untouched. *)
Theorem node_trust_store_survives_restart :
  (forall (st : Node.State) (req : JS.TrustRequest) (now : Z),
      node_trust_saved (exec (Node.post_api_trusted req now) st)
      /\ JS.trustedKeys (Node.core (exec (Node.post_api_trusted req now) st))
         = <[JS.req_publicKey req := js_trust_record req now]>
             (JS.trustedKeys (Node.core st)))
  /\ (forall (st : Node.State) (key : string),
      node_trust_saved (exec (Node.delete_api_trusted key) st)
      /\ JS.trustedKeys (Node.core (exec (Node.delete_api_trusted key) st))
         = delete key (JS.trustedKeys (Node.core st)))
  /\ (forall (st : Node.State) (salt : string) (f : option FileData)
        (stored : option (list DiaryEntry)),
      node_trust_saved st ->
      let restarted := exec Node.loadTrustedKeys
                         (node_new salt f stored (Node.trusted_json st)) in
      JS.trustedKeys (Node.core restarted) = JS.trustedKeys (Node.core st)
      /\ Node.trusted_json restarted = Node.trusted_json st).
Proof.
  split_and!.
  - intros st req now. split; [apply node_saved_after_save|done].
  - intros st key. split; [apply node_saved_after_save|done].
  - intros st salt f stored (l & Hf & Hl) restarted. subst restarted.
    unfold exec. rewrite node_loadTrustedKeys_eq. cbn [snd node_new Node.trusted_json].
    rewrite Hf. cbn [Node.core Node.with_core JS.with_trustedKeys JS.trustedKeys
                     JS.construct Node.trusted_json].
    split; [|done].
    change (JS.trustedKeys (Node.core (node_new _ _ _ _)))
      with (∅ : gmap string JS.TrustedInfo).
    rewrite (right_id_L ∅ (∪)), node_readable_Some. by apply node_read_back.
Qed.

Section NodeTrustLoad.
Context `{Primitives}.

Lemma node_load_absent (l : list Node.StoredKey) (k : string) :
  Forall (fun e => Node.stored_publicKey e <> k) l ->
  (list_to_map
     (reverse (map (fun e => (Node.stored_publicKey e, Node.storedInfo e)) l))
   : gmap string JS.TrustedInfo) !! k = None.
Proof.
  intros Hl. apply not_elem_of_list_to_map_1.
  rewrite fmap_reverse, elem_of_reverse. intros Hin.
  apply list_elem_of_fmap in Hin as ([k' v] & -> & Hin).
  apply list_elem_of_In, in_map_iff in Hin as (e & [= <- <-] & Hin).
  apply list_elem_of_In in Hin.
  rewrite Forall_forall in Hl. by apply (Hl e).
Qed.

Lemma node_readable_null (l : list Node.StoredKey) (rest : list (option Node.StoredKey)) :
  node_readable (map Some l ++ None :: rest) = l.
Proof. induction l as [|e l IH]; [done|]. cbn [map app node_readable]. by rewrite IH. Qed.

End NodeTrustLoad.

(** X15. [loadTrustedKeys] of the Node service never throws. From an array
    it loads the elements before the first [null]: a key gets the last of
    these elements that names it, with [permissions] defaulting to
    [['read']] when the element has none, and a key that none of them
    names keeps what it had; in particular the elements after a [null]
    are not loaded, and nothing reports it. When the file is missing, is
    not JSON or is not an array, the state is unchanged. *)
Theorem node_loadTrustedKeys_last_wins (st : Node.State) :
  (Node.loadTrustedKeys st).1 = Return tt
  /\ (forall l l1 l2 r,
        Node.trusted_json st = Some (Node.TrustedArray l) ->
        node_readable l = l1 ++ r :: l2 ->
        Forall (fun e => Node.stored_publicKey e <> Node.stored_publicKey r) l2 ->
        JS.trustedKeys (Node.core (exec Node.loadTrustedKeys st))
          !! Node.stored_publicKey r
        = Some (JS.mkTrusted (Node.stored_boxPublicKey r) (Node.stored_name r)
                  (default ["read"%string] (Node.stored_permissions r))
                  (Node.stored_trustedAt r)))
  /\ (forall l k,
        Node.trusted_json st = Some (Node.TrustedArray l) ->
        Forall (fun e => Node.stored_publicKey e <> k) (node_readable l) ->
        JS.trustedKeys (Node.core (exec Node.loadTrustedKeys st)) !! k
        = JS.trustedKeys (Node.core st) !! k)
  /\ (forall l rest k,
        Node.trusted_json st = Some (Node.TrustedArray (map Some l ++ None :: rest)) ->
        Forall (fun e => Node.stored_publicKey e <> k) l ->
        JS.trustedKeys (Node.core (exec Node.loadTrustedKeys st)) !! k
        = JS.trustedKeys (Node.core st) !! k)
  /\ (match Node.trusted_json st with
      | Some (Node.TrustedArray _) => True
      | _ => exec Node.loadTrustedKeys st = st
      end).
Proof.
  unfold exec. rewrite node_loadTrustedKeys_eq. cbn [fst snd].
  split; [done|]. split_and!.
  - intros l l1 l2 r -> Hr Hl2.
    cbn [Node.core Node.with_core JS.trustedKeys JS.with_trustedKeys].
    rewrite Hr, map_app, reverse_app. cbn [map]. rewrite reverse_cons, <- app_assoc.
    rewrite lookup_union, list_to_map_app, lookup_union.
    rewrite (node_load_absent l2 _ Hl2), (left_id_L None (∪)).
    cbn [app list_to_map foldr fst snd curry].
    rewrite lookup_insert_eq. cbn [union option_union union_with option_union_with].
    unfold Node.storedInfo, JS.permissions_or_read.
    destruct (Node.stored_permissions r);
      by destruct (JS.trustedKeys (Node.core st) !! Node.stored_publicKey r).
  - intros l k -> Hl.
    cbn [Node.core Node.with_core JS.trustedKeys JS.with_trustedKeys].
    by rewrite lookup_union, (node_load_absent _ k Hl), (left_id_L None (∪)).
  - intros l rest k -> Hl.
    cbn [Node.core Node.with_core JS.trustedKeys JS.with_trustedKeys].
    rewrite node_readable_null.
    by rewrite lookup_union, (node_load_absent _ k Hl), (left_id_L None (∪)).
  - by destruct (Node.trusted_json st) as [[raw|l]|].
Qed.

(* ===================================================================== *)
(** ** Presence, the admin socket and the configuration *)
(* ===================================================================== *)
Section NodePresence.
Context `{Primitives}.
Context (stringify_announcement : Node.Announcement -> string).

Lemma node_encryptText_eq (text : string) (ti : JS.TrustedInfo) (s : JS.Service) :
  Node.encryptText text (JS.boxPublicKey ti) s =
  let s1 := JS.with_rng (JS.rng s + nonceLength) s in
  match js_box_key ti, JS.identity s with
  | Some pk, Some i =>
      if (length (JS.secretKey (JS.boxKeyPair i)) =? crypto_box_SECRETKEYBYTES)%nat
      then (Return (node_sealed_announcement text (JS.secretKey (JS.boxKeyPair i))
                      (JS.rng s) ti), s1)
      else (Throw, s1)
  | _, _ => (Throw, s1)
  end.
Proof.
  unfold Node.encryptText, JS.randomBytes, JS.getIdentity, JS.nacl_box,
    node_sealed_announcement, js_box_key, js_nonce.
  unfold bind, ret, throw, gets, orThrow.
  cbn beta iota. rewrite tape_read_length, Nat.eqb_refl.
  destruct (JS.boxPublicKey ti ≫= decodeBase64) as [pk|]; [|done].
  cbn -[Nat.eqb nonceLength tape_read].
  destruct (length pk =? _)%nat eqn:Hpk.
  - destruct (JS.identity s) as [i|]; [|done].
    cbn -[Nat.eqb nonceLength tape_read].
    by destruct (length (JS.secretKey (JS.boxKeyPair i)) =? _)%nat.
  - destruct (JS.identity s) as [i|]; done.
Qed.

(** The entry path and the presence path seal alike: [encryptForPeer] is
    [encryptText] on the JSON text of the entry. *)
Lemma node_encryptForPeer_text (e : DiaryEntry) (k : option string) (s : JS.Service) :
  JS.encryptForPeer e k s = Node.encryptText (JSON_stringify e) k s.
Proof. done. Qed.

Lemma node_announce_loop (a : Node.Announcement) (i : JS.Identity)
    (l : list (string * JS.TrustedInfo)) (st : Node.State) :
  JS.identity (Node.core st) = Some i ->
  length (JS.secretKey (JS.boxKeyPair i)) = crypto_box_SECRETKEYBYTES ->
  Forall (fun kv => is_Some (js_box_key kv.2)) l ->
  forEach (Node.announceTo stringify_announcement a) l st =
  (Return tt,
   Node.with_announced
     (Node.announced st ++
      imap (fun j kv =>
              node_sealed_announcement (stringify_announcement a)
                (JS.secretKey (JS.boxKeyPair i))
                (JS.rng (Node.core st) + nonceLength * j) kv.2) l)
     (Node.with_core
        (JS.with_rng (JS.rng (Node.core st) + nonceLength * length l) (Node.core st))
        st)).
Proof.
  intros Hi Hsk Hl. revert st Hi.
  induction Hl as [|[k ti] l [pk Hk] Hl IH]; intros st Hi.
  - cbn [forEach imap length]. unfold ret. f_equal.
    rewrite app_nil_r, Nat.mul_0_r, Nat.add_0_r. by destruct st as [[]].
  - cbn [forEach]. unfold bind at 1.
    unfold Node.announceTo at 1, bind, Node.lift. cbn [snd].
    rewrite node_encryptText_eq. cbn zeta. cbn [snd] in Hk. rewrite Hk, Hi, Hsk, Nat.eqb_refl.
    unfold Node.sendAnnouncement, modify.
    rewrite IH by done. f_equal.
    unfold Node.with_announced, Node.with_core, JS.with_rng.
    cbn [Node.core Node.trusted_json Node.announced Node.listeners Node.ws_sent
         JS.trustedKeys JS.roomSalt JS.identity JS.entries JS.connections JS.roomId
         JS.identity_json JS.entries_json JS.sent JS.rng length].
    rewrite <- app_assoc. cbn [app imap snd]. rewrite Nat.mul_0_r, Nat.add_0_r.
    f_equal; [f_equal|].
    + unfold nonceLength. lia.
    + f_equal. f_equal. apply imap_ext. intros j kv _. cbn [compose]. f_equal.
      unfold nonceLength. lia.
Qed.

Lemma node_announce_loop_throws (a : Node.Announcement)
    (l : list (string * JS.TrustedInfo)) (st : Node.State) :
  Exists (fun kv => js_box_key kv.2 = None) l ->
  (forEach (Node.announceTo stringify_announcement a) l st).1 = Throw.
Proof.
  intros Hl. revert st. induction l as [|[k ti] l IH]; intros st.
  { by apply Exists_nil in Hl. }
  cbn [forEach]. unfold bind at 1.
  unfold Node.announceTo at 1, bind, Node.lift. cbn [snd].
  rewrite node_encryptText_eq. cbn zeta.
  destruct (js_box_key ti) as [pk|] eqn:Hk; [|done].
  destruct (JS.identity (Node.core st)) as [i|]; [|done].
  destruct (length _ =? _)%nat; [|done].
  unfold Node.sendAnnouncement, modify.
  apply IH. apply Exists_cons in Hl as [Hl|Hl]; [|done].
  cbn [snd] in Hl. congruence.
Qed.

End NodePresence.

(** X16. The presence broadcast of the Node service, run with an identity
    whose box secret key has 32 bytes. If every trusted record has a usable
    box key, it returns normally and calls [sendAnnouncement] once for
    each trusted key, connected or not, in some order: each time with the
    same announcement (the time, the number of entries, the service's
    public key) sealed for that record's box key with a nonce of its own,
    read from the entropy tape 24 bytes further on each time. If some
    trusted record has no usable box key, the broadcast throws. *)
Theorem node_presence_sealed_per_trusted_key `{Primitives}
    (stringify_announcement : Node.Announcement -> string)
    (now : Z) (st : Node.State) (i : JS.Identity) :
  JS.identity (Node.core st) = Some i ->
  length (JS.secretKey (JS.boxKeyPair i)) = crypto_box_SECRETKEYBYTES ->
  let c := Node.core st in
  let text := stringify_announcement
                (Node.mkAnnouncement now (length (JS.entries c))
                   (encodeBase64 (JS.publicKey (JS.keyPair i)))) in
  ((forall k ti, JS.trustedKeys c !! k = Some ti -> is_Some (js_box_key ti)) ->
   exists trusted,
     trusted ≡ₚ map_to_list (JS.trustedKeys c)
     /\ Node.broadcast stringify_announcement now st =
        (Return tt,
         Node.with_announced
           (Node.announced st ++
            imap (fun j kv =>
                    node_sealed_announcement text (JS.secretKey (JS.boxKeyPair i))
                      (JS.rng c + nonceLength * j) kv.2) trusted)
           (Node.with_core
              (JS.with_rng (JS.rng c + nonceLength * size (JS.trustedKeys c)) c) st)))
  /\ (forall k ti, JS.trustedKeys c !! k = Some ti -> js_box_key ti = None ->
      (Node.broadcast stringify_announcement now st).1 = Throw).
Proof.
  intros Hi Hsk c text. subst c text.
  assert (Hpk : JS.getPublicKeyString (Node.core st)
                = (Return (encodeBase64 (JS.publicKey (JS.keyPair i))), Node.core st)).
  { unfold JS.getPublicKeyString, JS.getIdentity, bind, gets, orThrow, ret.
    by rewrite Hi. }
  unfold Node.broadcast, bind, gets, Node.lift. rewrite Hpk.
  assert (Hst : Node.with_core (Node.core st) st = st) by by destruct st.
  rewrite Hst. split.
  - intros Hok. exists (map_to_list (JS.trustedKeys (Node.core st))).
    split; [done|]. rewrite <- length_map_to_list.
    apply node_announce_loop; [done|done|].
    apply Forall_forall. intros [k ti] Hin.
    apply elem_of_map_to_list in Hin. by apply (Hok k ti).
  - intros k ti Hk Hbad. apply node_announce_loop_throws.
    apply Exists_exists. exists (k, ti). split; [|done].
    by apply elem_of_map_to_list.
Qed.

Lemma node_presence_sealed_per_trusted_key_witness :
  JS.identity (Node.core Sample.node_served) = Some Demo.js_identity
  /\ length (JS.secretKey (JS.boxKeyPair Demo.js_identity)) = crypto_box_SECRETKEYBYTES
  /\ (forall k ti, JS.trustedKeys (Node.core Sample.node_served) !! k = Some ti ->
                   is_Some (js_box_key ti))
  /\ Node.announced
       (exec (Node.broadcast (H := Demo.primitives) Sample.stringify_announcement 1300)
          Sample.node_served)
     = [node_sealed_announcement (H := Demo.primitives)
          (encodeBase64 (JS.publicKey (JS.keyPair Demo.js_identity)))
          (JS.secretKey (JS.boxKeyPair Demo.js_identity))
          (JS.rng Demo.js_served) Demo.alice_info].
Proof.
  assert (H1 : JS.identity (Node.core Sample.node_served) = Some Demo.js_identity)
    by (vm_compute; reflexivity).
  assert (H2 : length (JS.secretKey (JS.boxKeyPair Demo.js_identity))
               = crypto_box_SECRETKEYBYTES) by (vm_compute; reflexivity).
  assert (H3 : forall k ti, JS.trustedKeys (Node.core Sample.node_served) !! k = Some ti ->
                 is_Some (js_box_key ti)).
  { intros k ti Hk.
    assert (Ht : JS.trustedKeys (Node.core Sample.node_served)
                 = {[encodeBase64 Demo.alice := Demo.alice_info]})
      by (vm_compute; reflexivity).
    rewrite Ht in Hk. apply lookup_singleton_Some in Hk as [_ <-].
    vm_compute. by eexists. }
  split; [exact H1|]. split; [exact H2|]. split; [exact H3|].
  destruct (proj1 (node_presence_sealed_per_trusted_key (H := Demo.primitives)
                     Sample.stringify_announcement 1300 Sample.node_served
                     Demo.js_identity H1 H2) H3) as (trusted & Hp & Hb).
  unfold exec. rewrite Hb. cbn [snd Node.announced Node.with_announced].
  assert (Ht : map_to_list (JS.trustedKeys (Node.core Sample.node_served))
               = [(encodeBase64 Demo.alice, Demo.alice_info)])
    by (vm_compute; reflexivity).
  rewrite Ht in Hp. apply Permutation_singleton_r in Hp. rewrite Hp.
  cbn [imap snd]. rewrite Nat.mul_0_r, Nat.add_0_r. reflexivity.
Defined.

Section NodeAdmin.
Context `{Primitives}.

Lemma node_emit_loop (e : DiaryEntry) (ls : list string) (st : Node.State) :
  forEach (fun ws => modify (fun st => Node.with_ws_sent (Node.ws_sent st ++ [(ws, e)]) st))
    ls st
  = (Return tt, Node.with_ws_sent (Node.ws_sent st ++ map (fun ws => (ws, e)) ls) st).
Proof.
  revert st. induction ls as [|w ls IH]; intros st.
  - cbn [forEach map]. unfold ret. rewrite app_nil_r. by destruct st.
  - cbn [forEach map]. unfold bind at 1, modify at 1. rewrite IH.
    unfold Node.with_ws_sent. cbn [Node.core Node.trusted_json Node.announced
      Node.listeners Node.ws_sent]. by rewrite <- app_assoc.
Qed.

Lemma node_emit_entry_eq (e : DiaryEntry) (st : Node.State) :
  Node.emit_entry e st
  = (Return tt,
     Node.with_ws_sent (Node.ws_sent st ++ map (fun ws => (ws, e)) (Node.listeners st)) st).
Proof. unfold Node.emit_entry, bind, gets. apply node_emit_loop. Qed.

End NodeAdmin.

(** X17. The admin socket of the Node service. Its message handler never
    throws. A [subscribe] registers one more listener for the socket, so a
    socket that subscribes twice is listed twice. An [add_entry] adds the
    entry as [POST /api/entries] does and then sends it once to every
    registered listener, in the order of registration; when adding throws
    (a failed broadcast) the error is swallowed and no listener is told.
    An entry added through [POST /api/entries] is never sent to the
    listeners. A message that is not JSON, or of another type, changes
    nothing. *)
Theorem node_admin_socket_updates `{Primitives} (st : Node.State) (ws : string)
    (content : string) (now : Z) :
  Node.ws_message ws (Some Node.subscribe) now st
  = (Return tt, Node.with_listeners (Node.listeners st ++ [ws]) st)
  /\ (forall e c, JS.addEntry content now (Node.core st) = (Return e, c) ->
      Node.ws_message ws (Some (Node.add_entry content)) now st
      = (Return tt,
         Node.with_ws_sent
           (Node.ws_sent st ++ map (fun w => (w, e)) (Node.listeners st))
           (Node.with_core c st)))
  /\ (forall c, JS.addEntry content now (Node.core st) = (Throw, c) ->
      Node.ws_message ws (Some (Node.add_entry content)) now st
      = (Return tt, Node.with_core c st))
  /\ (let st' := exec (Node.post_api_entries content now) st in
      Node.ws_sent st' = Node.ws_sent st
      /\ Node.listeners st' = Node.listeners st
      /\ Node.core st' = exec (JS.addEntry content now) (Node.core st))
  /\ Node.ws_message ws None now st = (Return tt, st)
  /\ Node.ws_message ws (Some Node.other_type) now st = (Return tt, st).
Proof.
  split_and!.
  - done.
  - intros e c He.
    unfold Node.ws_message, try_catch, bind, orThrow, ret. cbn [Node.handleAdminMessage].
    unfold bind, Node.lift. rewrite He. by rewrite node_emit_entry_eq.
  - intros c He.
    unfold Node.ws_message, try_catch, bind, orThrow, ret. cbn [Node.handleAdminMessage].
    unfold bind, Node.lift. by rewrite He.
  - unfold exec, Node.post_api_entries, bind, Node.lift, ret.
    destruct (JS.addEntry content now (Node.core st)) as [[e|] c]; done.
  - done.
  - done.
Qed.

(** X18. The configuration the constructor of the Node service builds:
    every property the caller's [config] object has is taken as it is, be
    it [port], [dataDir] or [roomSalt] with a falsy value such as [0], the
    empty string, [null] or [undefined]; the defaults [3333],
    ['./diary-data'] and ['trust-diary-v1'] apply only to properties the
    object does not have, and no other property is added. *)
Theorem node_config_own_properties_win (config : gmap string Node.Value) (k : string) :
  let defaults : gmap string Node.Value :=
    {[ "port"%string := Node.number 3333;
       "dataDir"%string := Node.text "./diary-data";
       "roomSalt"%string := Node.text "trust-diary-v1" ]} in
  Node.constructor_config config !! k
  = match config !! k with
    | Some v => Some v
    | None => defaults !! k
    end.
Proof.
  intros defaults. subst defaults. unfold Node.constructor_config.
  rewrite lookup_union. destruct (config !! k) as [v|] eqn:Hk.
  - apply union_Some_l.
  - rewrite (left_id_L None (∪)). cbn [list_to_map foldr fst snd curry].
    unfold Node.get, Node.or_else.
    destruct (decide (k = "port"%string)) as [->|Hp].
    { rewrite Hk. cbn. by rewrite !lookup_insert_eq. }
    destruct (decide (k = "dataDir"%string)) as [->|Hd].
    { rewrite Hk. cbn. rewrite !(lookup_insert_ne _ "port"%string) by done.
      by rewrite !lookup_insert_eq. }
    destruct (decide (k = "roomSalt"%string)) as [->|Hr].
    { rewrite Hk. cbn. rewrite !(lookup_insert_ne _ "port"%string) by done.
      rewrite !(lookup_insert_ne _ "dataDir"%string) by done.
      by rewrite !lookup_insert_eq. }
    rewrite !lookup_insert_ne by congruence.
    rewrite lookup_empty, lookup_singleton_ne by congruence. done.
Qed.

(* ===================================================================== *)
(** ** The trust file of the Go service: lemmas *)
(* ===================================================================== *)
Section GoTrustFile.
Context `{Primitives}.

Lemma go_store_id (st : GoStore.State) :
  GoStore.with_core (Go.with_trustedUsers (Go.trustedUsers (GoStore.core st))
                       (GoStore.core st)) st = st.
Proof. by destruct st as [[]]. Qed.

(** The loop of [loadTrustedUsers], for any choice [f] of the record
    stored for an element. *)
Lemma go_load_loop (f : Go.TrustedUser -> Go.TrustedUser)
    (l : list Go.TrustedUser) (st : GoStore.State) :
  forEach (fun user => GoStore.setUser (Go.user_PublicKey user) (f user)) l st =
  (Return tt,
   GoStore.with_core
     (Go.with_trustedUsers
        (list_to_map (reverse (map (fun u => (Go.user_PublicKey u, f u)) l))
         ∪ Go.trustedUsers (GoStore.core st))
        (GoStore.core st)) st).
Proof.
  revert st. induction l as [|u l IH]; intros st.
  - cbn [forEach map]. rewrite reverse_nil. cbn [list_to_map foldr]. unfold ret.
    by rewrite (left_id_L ∅ (∪)), go_store_id.
  - cbn [forEach]. unfold bind at 1.
    unfold GoStore.setUser at 1, GoStore.lift, modify. cbn [GoStore.core].
    rewrite IH. f_equal.
    unfold GoStore.with_core, Go.with_trustedUsers.
    cbn [GoStore.core GoStore.trusted_json Go.identity Go.trustedUsers Go.entries
         Go.connections Go.dataChannels Go.roomSalt Go.roomID Go.identity_json
         Go.entries_json Go.sent Go.rng map].
    f_equal. f_equal.
    rewrite reverse_cons, list_to_map_app. cbn [list_to_map foldr fst snd curry].
    rewrite insert_empty, <- (assoc_L (∪)). f_equal.
    by rewrite insert_union_singleton_l.
Qed.

Lemma go_loadTrustedUsers_eq (loopvar : GoStore.LoopVar) (st : GoStore.State) :
  GoStore.loadTrustedUsers loopvar st =
  match GoStore.trusted_json st with
  | None => (Return (Some "no trusted users found"%string), st)
  | Some (GoStore.Unparsable err) =>
      (Return (Some ("failed to parse trusted users: " +:+ err)%string), st)
  | Some (GoStore.Users l) =>
      (Return None,
       GoStore.with_core
         (Go.with_trustedUsers
            (list_to_map
               (reverse (map (fun u => (Go.user_PublicKey u, GoStore.pointee loopvar l u)) l))
             ∪ Go.trustedUsers (GoStore.core st))
            (GoStore.core st)) st)
  end.
Proof.
  unfold GoStore.loadTrustedUsers, bind, gets, ret.
  destruct (GoStore.trusted_json st) as [[err|l]|]; [done| |done].
  by rewrite (go_load_loop (GoStore.pointee loopvar l)).
Qed.

Lemma go_saved_after_save (st : GoStore.State) :
  go_trust_saved (exec GoStore.saveTrustedUsers st).
Proof. eexists. split; [done|done]. Qed.

(** Reading back, with a variable for each iteration, a file that lists
    the records of a store whose records sit under their own keys. *)
Lemma go_read_back (m : gmap string Go.TrustedUser) (l : list Go.TrustedUser) :
  go_keyed m ->
  l ≡ₚ map snd (map_to_list m) ->
  list_to_map (reverse (map (fun u => (Go.user_PublicKey u, u)) l)) = m.
Proof.
  intros Hm Hl.
  assert (Hback : forall x : list (string * Go.TrustedUser),
            (forall kv, kv ∈ x -> Go.user_PublicKey kv.2 = kv.1) ->
            map (fun u => (Go.user_PublicKey u, u)) (map snd x) = x).
  { induction x as [|[k u] x IH]; [done|]. intros Hx. cbn [map snd].
    rewrite IH by (intros kv Hkv; apply Hx; by right).
    f_equal. f_equal. apply (Hx (k, u)). by left. }
  transitivity (list_to_map (map_to_list m) : gmap string Go.TrustedUser);
    [|apply fin_maps.list_to_map_to_list].
  symmetry. apply list_to_map_proper; [apply NoDup_fst_map_to_list|].
  rewrite reverse_Permutation. rewrite <- (Hback (map_to_list m)) at 1.
  - symmetry. by apply Permutation_map.
  - intros [k u] Hkv. apply elem_of_map_to_list in Hkv. by apply Hm.
Qed.

Lemma go_keyed_insert (m : gmap string Go.TrustedUser) (u : Go.TrustedUser) :
  go_keyed m -> go_keyed (<[Go.user_PublicKey u := u]> m).
Proof.
  intros Hm k v. destruct (decide (k = Go.user_PublicKey u)) as [->|Hk].
  - rewrite lookup_insert_eq. by intros [= <-].
  - rewrite lookup_insert_ne by done. apply Hm.
Qed.

Lemma go_keyed_delete (m : gmap string Go.TrustedUser) (key : string) :
  go_keyed m -> go_keyed (delete key m).
Proof.
  intros Hm k v Hk. apply lookup_delete_Some in Hk as [_ Hk]. by apply Hm.
Qed.

Lemma go_list_to_map_replicate (n : nat) (k : string) (u : Go.TrustedUser) :
  (list_to_map (replicate (S n) (k, u)) : gmap string Go.TrustedUser) = {[k := u]}.
Proof.
  induction n as [|n IH].
  - cbn. by rewrite insert_empty.
  - change (replicate (S (S n)) (k, u)) with ((k, u) :: replicate (S n) (k, u)).
    cbn [list_to_map foldr fst snd curry] in *.
    rewrite IH. by rewrite insert_singleton_eq.
Qed.

Lemma go_all_equal (l : list Go.TrustedUser) (u : Go.TrustedUser) :
  Forall (fun v => v = u) l -> l = replicate (length l) u.
Proof. induction 1 as [|v l -> _ IH]; [done|]. cbn. by rewrite <- IH. Qed.

End GoTrustFile.

(** X19. The trust store of the Go service and [trusted.json].
    [handleAddTrusted] and [handleRemoveTrusted] leave the file listing the
    records of the store, and keep every record under its own
    [PublicKey]. With a loop variable per iteration (Go 1.22 on), a
    service started anew on a file that lists such a store has, after
    [loadTrustedUsers], the same store and no error. With either loop
    semantics, a missing or unparsable file gives an error and leaves the
    state unchanged. *)
Theorem go_trust_store_survives_restart :
  (forall (st : GoStore.State) (user : Go.TrustedUser) (now : Z),
      let st' := exec (GoStore.handleAddTrusted user now) st in
      go_trust_saved st'
      /\ (go_keyed (Go.trustedUsers (GoStore.core st)) ->
          go_keyed (Go.trustedUsers (GoStore.core st'))))
  /\ (forall (st : GoStore.State) (key : string),
      let st' := exec (GoStore.handleRemoveTrusted key) st in
      go_trust_saved st'
      /\ (go_keyed (Go.trustedUsers (GoStore.core st)) ->
          go_keyed (Go.trustedUsers (GoStore.core st'))))
  /\ (forall (st : GoStore.State) (f : option FileData)
        (stored : option Go.EntriesFile),
      go_trust_saved st ->
      go_keyed (Go.trustedUsers (GoStore.core st)) ->
      GoStore.loadTrustedUsers GoStore.PerIteration
        (go_new f stored (GoStore.trusted_json st))
      = (Return None,
         GoStore.with_core
           (Go.with_trustedUsers (Go.trustedUsers (GoStore.core st))
              (Go.NewTrustDiaryService f stored))
           (go_new f stored (GoStore.trusted_json st))))
  /\ (forall (loopvar : GoStore.LoopVar) (st : GoStore.State),
      match GoStore.trusted_json st with
      | Some (GoStore.Users _) => True
      | _ => exists err, GoStore.loadTrustedUsers loopvar st = (Return (Some err), st)
      end).
Proof.
  split_and!.
  - intros st user now st'. subst st'. split; [apply go_saved_after_save|].
    intros Hm. exact (go_keyed_insert _ (Go.mkTrustedUser _ _ _ _ _) Hm).
  - intros st key st'. subst st'. split; [apply go_saved_after_save|].
    intros Hm. by apply go_keyed_delete.
  - intros st f stored (l & Hf & Hl) Hm.
    rewrite go_loadTrustedUsers_eq. cbn [go_new GoStore.trusted_json]. rewrite Hf.
    change (Go.trustedUsers (GoStore.core (go_new f stored (Some (GoStore.Users l)))))
      with (∅ : gmap string Go.TrustedUser).
    change (GoStore.core (go_new f stored (Some (GoStore.Users l))))
      with (Go.NewTrustDiaryService f stored).
    rewrite (right_id_L ∅ (∪)). unfold GoStore.pointee.
    by rewrite (go_read_back _ l Hm Hl).
  - intros loopvar st. rewrite go_loadTrustedUsers_eq.
    destruct (GoStore.trusted_json st) as [[err|l]|]; [by eexists|done|by eexists].
Qed.

(** X20. [loadTrustedUsers] of the Go service with one loop variable for
    the whole loop (Go before 1.22): every key named in the file ends up
    with the record of the last element of the file, since each stored
    pointer is the address of the same variable. Saving that store and
    starting anew, with either loop semantics, leaves a single trusted
    key: that of the last element. *)
Theorem go_one_loop_variable_collapses_trust
    (l : list Go.TrustedUser) (u : Go.TrustedUser) :
  last l = Some u ->
  (forall (st : GoStore.State) (v : Go.TrustedUser),
      GoStore.trusted_json st = Some (GoStore.Users l) ->
      v ∈ l ->
      Go.trustedUsers (GoStore.core (exec (GoStore.loadTrustedUsers GoStore.PerLoop) st))
        !! Go.user_PublicKey v = Some u)
  /\ (forall (f f' : option FileData) (stored stored' : option Go.EntriesFile)
        (loopvar : GoStore.LoopVar),
      let loaded := exec (GoStore.loadTrustedUsers GoStore.PerLoop)
                      (go_new f stored (Some (GoStore.Users l))) in
      let saved := exec GoStore.saveTrustedUsers loaded in
      let restarted := exec (GoStore.loadTrustedUsers loopvar)
                         (go_new f' stored' (GoStore.trusted_json saved)) in
      Go.trustedUsers (GoStore.core restarted) = {[Go.user_PublicKey u := u]}).
Proof.
  intros Hu.
  assert (Hall : forall k v,
            (list_to_map
               (reverse (map (fun w => (Go.user_PublicKey w, GoStore.pointee GoStore.PerLoop l w)) l))
             : gmap string Go.TrustedUser) !! k = Some v -> v = u).
  { intros k v Hk. apply elem_of_list_to_map_2 in Hk.
    rewrite elem_of_reverse in Hk.
    apply list_elem_of_In, in_map_iff in Hk as (w & [= <- <-] & _).
    unfold GoStore.pointee. by rewrite Hu. }
  assert (Hin : forall v, v ∈ l ->
            (list_to_map
               (reverse (map (fun w => (Go.user_PublicKey w, GoStore.pointee GoStore.PerLoop l w)) l))
             : gmap string Go.TrustedUser) !! Go.user_PublicKey v = Some u).
  { intros v Hv.
    destruct (list_to_map _ !! Go.user_PublicKey v) as [x|] eqn:Hx.
    - f_equal. by apply (Hall _ _ Hx).
    - exfalso. apply not_elem_of_list_to_map_2 in Hx. apply Hx.
      rewrite fmap_reverse, elem_of_reverse.
      apply list_elem_of_fmap. exists (Go.user_PublicKey v, GoStore.pointee GoStore.PerLoop l v).
      split; [done|]. apply list_elem_of_In, in_map_iff. exists v.
      split; [done|]. by apply list_elem_of_In. }
  split.
  - intros st v Hf Hv. unfold exec. rewrite go_loadTrustedUsers_eq, Hf.
    cbn [snd GoStore.core GoStore.with_core Go.trustedUsers Go.with_trustedUsers].
    rewrite lookup_union, (Hin v Hv). apply union_Some_l.
  - intros f f' stored stored' loopvar loaded saved restarted.
    set (m := list_to_map
                (reverse (map (fun w => (Go.user_PublicKey w,
                                         GoStore.pointee GoStore.PerLoop l w)) l))
              : gmap string Go.TrustedUser) in *.
    assert (H1 : loaded
                 = GoStore.mkState
                     (Go.with_trustedUsers m (Go.NewTrustDiaryService f stored))
                     (Some (GoStore.Users l))).
    { unfold loaded, exec. rewrite go_loadTrustedUsers_eq.
      cbn [go_new GoStore.trusted_json snd]. unfold GoStore.with_core.
      cbn [GoStore.core GoStore.trusted_json]. f_equal. f_equal.
      change (Go.trustedUsers (GoStore.core (go_new f stored (Some (GoStore.Users l)))))
        with (∅ : gmap string Go.TrustedUser).
      by rewrite (right_id_L ∅ (∪)). }
    assert (H2 : GoStore.trusted_json saved
                 = Some (GoStore.Users (map snd (map_to_list m)))).
    { unfold saved. by rewrite H1. }
    unfold restarted. rewrite H2. clear H1 H2 restarted saved loaded.
    unfold exec. rewrite go_loadTrustedUsers_eq.
    cbn [go_new snd GoStore.core GoStore.with_core Go.trustedUsers Go.with_trustedUsers
         GoStore.trusted_json].
    change (Go.trustedUsers (Go.NewTrustDiaryService f' stored'))
      with (∅ : gmap string Go.TrustedUser).
    rewrite (right_id_L ∅ (∪)).
    set (saved := map snd (map_to_list m)).
    assert (Hsaved : Forall (fun v => v = u) saved).
    { apply Forall_forall. intros v Hv.
      apply list_elem_of_In, in_map_iff in Hv as ([k v'] & <- & Hv).
      apply list_elem_of_In, elem_of_map_to_list in Hv. by apply (Hall k). }
    assert (Hne : saved <> []).
    { assert (Hl : u ∈ l).
      { apply last_Some in Hu as [l' ->]. apply elem_of_app. right. by left. }
      pose proof (Hin u Hl) as Hlu. fold m in Hlu.
      apply elem_of_map_to_list in Hlu. intros Hnil.
      assert (Hs : u ∈ saved).
      { apply list_elem_of_In, in_map_iff. exists (Go.user_PublicKey u, u).
        split; [done|]. by apply list_elem_of_In. }
      rewrite Hnil in Hs. by apply elem_of_nil in Hs. }
    rewrite (go_all_equal saved u Hsaved) in *.
    destruct (length saved) as [|n] eqn:Hn; [by destruct saved|].
    assert (Hp : forall w, w ∈ replicate (S n) u ->
              GoStore.pointee loopvar (replicate (S n) u) w = u).
    { intros w Hw. apply elem_of_replicate in Hw as [-> _].
      destruct loopvar; [|done]. unfold GoStore.pointee.
      change (replicate (S n) u) with (u :: replicate n u).
      destruct (last (u :: replicate n u)) as [x|] eqn:Hx; [|done]. cbn.
      apply last_Some in Hx as [l' Hx].
      assert (Hxin : x ∈ u :: replicate n u).
      { rewrite Hx. apply elem_of_app. right. by left. }
      change (u :: replicate n u) with (replicate (S n) u) in Hxin.
      by apply elem_of_replicate in Hxin as [-> _]. }
    assert (Hmap : map (fun w => (Go.user_PublicKey w,
                                  GoStore.pointee loopvar (replicate (S n) u) w))
                     (replicate (S n) u)
                   = replicate (S n) (Go.user_PublicKey u, u)).
    { assert (Hgen : forall big j,
                (forall w, w ∈ replicate j u -> GoStore.pointee loopvar big w = u) ->
                map (fun w => (Go.user_PublicKey w, GoStore.pointee loopvar big w))
                  (replicate j u)
                = replicate j (Go.user_PublicKey u, u)).
      { intros big j. induction j as [|j IHj]; intros Hj; [done|].
        cbn [replicate map]. rewrite IHj.
        - f_equal. f_equal. apply Hj. by left.
        - intros w Hw. apply Hj. by right. }
      by apply Hgen. }
    rewrite Hmap, reverse_replicate. apply go_list_to_map_replicate.
Qed.

Lemma go_one_loop_variable_collapses_trust_witness :
  last Sample.go_users = Some Sample.go_bob
  /\ Go.trustedUsers
       (GoStore.core
          (exec (GoStore.loadTrustedUsers GoStore.PerLoop)
             (go_new None None (Some (GoStore.Users Sample.go_users)))))
       !! Go.user_PublicKey Demo.go_alice = Some Sample.go_bob.
Proof.
  assert (H1 : last Sample.go_users = Some Sample.go_bob) by reflexivity.
  split; [exact H1|].
  apply (proj1 (go_one_loop_variable_collapses_trust
                  Sample.go_users Sample.go_bob H1)
           (go_new None None (Some (GoStore.Users Sample.go_users))) Demo.go_alice).
  - reflexivity.
  - by left.
Defined.
